(** * Rollizr: agent execution and workflow orchestration

    A shallow embedding of
      - [src/utils/claude-client.js]  (ClaudeClient: sendMessage, parseJSON),
      - [src/agents/base-agent.js]    (BaseAgent: execute, _buildUserMessage,
                                       _parseResponse),
      - [src/config/agents.js], [src/agents/index.js] (the agent table),
      - [src/workflows/orchestrator.js] (AgentOrchestrator),
    followed by the properties of the orchestration layer.

    JavaScript strings are sequences of UTF-16 code units, JavaScript values
    are an inductive type, exceptions and the orchestrator's mutable state are
    threaded through a small state-and-exception monad, and the built-ins of
    the host ([JSON.parse], [JSON.stringify], number/string conversion, the
    SDK call) are the fields of a class [Host]. *)

From Stdlib Require Import List String Ascii NArith ZArith QArith Bool Arith Lia.
Import ListNotations.
Close Scope Q_scope.

Set Implicit Arguments.
Set Warnings "-register-all".
Unset Strict Implicit.

(* ================================================================= *)
(** ** JavaScript strings *)

Definition codeunit := N.
Definition jsstring := list codeunit.

(** An ASCII literal of the source as a JavaScript string. *)
Definition lit (s : string) : jsstring :=
  map N_of_ascii (list_ascii_of_string s).

Fixpoint str_eqb (a b : jsstring) : bool :=
  match a, b with
  | [], [] => true
  | x :: a', y :: b' => N.eqb x y && str_eqb a' b'
  | _, _ => false
  end.

(** [WhiteSpace] and [LineTerminator] of ECMAScript: the class [\s]. *)
Definition is_space (c : codeunit) : bool :=
  (N.leb 9 c && N.leb c 13) || N.eqb c 32 || N.eqb c 160 || N.eqb c 5760
  || (N.leb 8192 c && N.leb c 8202) || N.eqb c 8232 || N.eqb c 8233
  || N.eqb c 8239 || N.eqb c 8287 || N.eqb c 12288 || N.eqb c 65279.

(** The class [[\s\S]]: every code unit. *)
Definition any_unit (c : codeunit) : bool := is_space c || negb (is_space c).

Definition lbrace : codeunit := 123%N.
Definition rbrace : codeunit := 125%N.

(** Decimal digits of an array index, as [String(i)] gives them. *)
Fixpoint digits_fuel (fuel n : nat) (acc : jsstring) : jsstring :=
  match fuel with
  | O => acc
  | S fuel' =>
      let acc' := N.of_nat (48 + n mod 10) :: acc in
      if Nat.ltb n 10 then acc' else digits_fuel fuel' (n / 10) acc'
  end.

Definition index_to_string (n : nat) : jsstring := digits_fuel (S n) n [].

(* ================================================================= *)
(** ** JavaScript numbers and values *)

(** A Number: a finite double (as the rational it denotes), an infinity or
    NaN. *)
Inductive JSNumber :=
| NFin (q : Q)
| NPosInf
| NNegInf
| NNaN.

Definition Qltb (x y : Q) : bool :=
  Z.ltb (Qnum x * Zpos (Qden y)) (Qnum y * Zpos (Qden x)).

(** [a < b] on Numbers; any comparison with NaN is false. *)
Definition num_lt (a b : JSNumber) : bool :=
  match a, b with
  | NNaN, _ | _, NNaN => false
  | NFin x, NFin y => Qltb x y
  | NNegInf, NNegInf => false
  | NNegInf, _ => true
  | _, NPosInf => match a with NPosInf => false | _ => true end
  | _, _ => false
  end.

Inductive JValue :=
| JUndefined
| JNull
| JBool (b : bool)
| JNum (n : JSNumber)
| JStr (s : jsstring)
| JArr (elems : list JValue)
| JObj (props : list (jsstring * JValue)).

(** ToBoolean. *)
Definition truthy (v : JValue) : bool :=
  match v with
  | JUndefined | JNull => false
  | JBool b => b
  | JNum (NFin q) => negb (Qeq_bool q 0%Q)
  | JNum NNaN => false
  | JNum _ => true
  | JStr s => match s with [] => false | _ => true end
  | JArr _ | JObj _ => true
  end.

(** Own properties of an object, in insertion order. *)
Fixpoint assoc (k : jsstring) (ps : list (jsstring * JValue)) : option JValue :=
  match ps with
  | [] => None
  | (k', v) :: ps' => if str_eqb k k' then Some v else assoc k ps'
  end.

(** [obj[k] = v]: an existing property keeps its place, a new one is added
    last. *)
Fixpoint obj_set (k : jsstring) (v : JValue) (ps : list (jsstring * JValue))
  : list (jsstring * JValue) :=
  match ps with
  | [] => [(k, v)]
  | (k', v') :: ps' =>
      if str_eqb k k' then (k, v) :: ps' else (k', v') :: obj_set k v ps'
  end.

(** An object literal [{k1: v1, k2: v2, ...}]. *)
Definition obj_lit (ps : list (jsstring * JValue)) : list (jsstring * JValue) :=
  fold_left (fun acc kv => obj_set (fst kv) (snd kv) acc) ps [].

(** Exceptions of the host that the modelled code can raise or catch. *)
Inductive JSError :=
| Error (message : jsstring)
| TypeError (message : jsstring)
| SyntaxError (message : jsstring).

Definition error_message (e : JSError) : jsstring :=
  match e with
  | Error m | TypeError m | SyntaxError m => m
  end.

(* ================================================================= *)
(** ** Regular expressions

    The two patterns of [parseJSON] use literal characters, a greedy and a
    lazy star over a character class and one capture group.  [match_here] is
    the backtracking matcher of ECMAScript on that fragment: a greedy star
    first takes as many code units as it can and gives them back one at a
    time, a lazy star first tries the rest of the pattern. *)

Inductive atom :=
| Chr (c : codeunit)
| StarGreedy (cls : codeunit -> bool)
| StarLazy (cls : codeunit -> bool)
| GroupOpen
| GroupClose.

Definition regex := list atom.

(** [match_here p s]: the pattern matched at the start of [s]; the result
    holds the suffixes of [s] at the group marks, in order, and the suffix
    left after the match. *)
Fixpoint match_here (p : regex) : jsstring -> option (list jsstring * jsstring) :=
  match p with
  | [] => fun s => Some ([], s)
  | Chr c :: p' =>
      fun s =>
        match s with
        | d :: s' => if N.eqb c d then match_here p' s' else None
        | [] => None
        end
  | StarGreedy cls :: p' =>
      fix star (s : jsstring) :=
        match s with
        | d :: s' =>
            if cls d then
              match star s' with
              | Some r => Some r
              | None => match_here p' s
              end
            else match_here p' s
        | [] => match_here p' []
        end
  | StarLazy cls :: p' =>
      fix star (s : jsstring) :=
        match match_here p' s with
        | Some r => Some r
        | None =>
            match s with
            | d :: s' => if cls d then star s' else None
            | [] => None
            end
        end
  | GroupOpen :: p' | GroupClose :: p' =>
      fun s =>
        match match_here p' s with
        | Some (marks, rest) => Some (s :: marks, rest)
        | None => None
        end
  end.

(** The part of [s] before its suffix [rest]. *)
Definition upto (s rest : jsstring) : jsstring :=
  firstn (List.length s - List.length rest) s.

(** The array that [String.prototype.match] returns for a pattern without
    the [g] flag: the text matched and the text of the capture group. *)
Record MatchArray := {
  m_index : nat;
  m_0 : jsstring;
  m_1 : option jsstring
}.

Fixpoint search (p : regex) (s : jsstring) (i : nat) : option MatchArray :=
  match match_here p s with
  | Some (marks, rest) =>
      Some {| m_index := i;
              m_0 := upto s rest;
              m_1 := match marks with
                     | a :: b :: _ => Some (upto a b)
                     | _ => None
                     end |}
  | None =>
      match s with
      | [] => None
      | _ :: s' => search p s' (S i)
      end
  end.

(** [content.match(re)]; [None] is [null]. *)
Definition str_match (s : jsstring) (p : regex) : option MatchArray :=
  search p s 0.

Definition chars (s : string) : regex := map Chr (lit s).

(** [/```json\s*([\s\S]*?)\s*```/] *)
Definition fence_re : regex :=
  chars "```json"
  ++ [StarGreedy is_space; GroupOpen; StarLazy any_unit; GroupClose;
      StarGreedy is_space]
  ++ chars "```".

(** [/\{[\s\S]*\}/] *)
Definition object_re : regex :=
  [Chr lbrace; StarGreedy any_unit; Chr rbrace].

(* ================================================================= *)
(** ** The host

    What the modelled files call and do not define. *)

(** The argument of [client.messages.create]. *)
Record CreateParams := {
  model : jsstring;
  max_tokens : Z;
  cp_temperature : Q;
  system : jsstring;
  messages : list (jsstring * jsstring)   (* role, content *)
}.

(** What [sendMessage] reads of the response of the SDK:
    [response.content[0].text], [response.usage] and
    [response.stop_reason]. *)
Record SdkResponse := {
  text : jsstring;
  input_tokens : N;
  output_tokens : N;
  stop_reason : jsstring
}.

(** A computation without side effects that returns or throws. *)
Inductive Completion (A : Type) :=
| Normal (a : A)
| Abrupt (e : JSError).
Arguments Normal {A} a.
Arguments Abrupt {A} e.

Class Host := {
  (** [JSON.parse(s)]; [None] when it throws a SyntaxError. *)
  JSON_parse : jsstring -> option JValue;
  (** [JSON.stringify(v, null, 2)], as the text that [+=] appends. *)
  JSON_stringify : JValue -> jsstring;
  (** ToNumber of a string. *)
  StringToNumber : jsstring -> JSNumber;
  (** ToNumber of an array or an object: ToPrimitive, which may throw,
      then ToNumber. *)
  ObjectToNumber : JValue -> Completion JSNumber;
  (** The [n]-th call of [messages.create] since the process started: the
      response (or the message of the error the call or the reading of the
      response throws) and the milliseconds it takes. *)
  messages_create : nat -> CreateParams -> (SdkResponse + jsstring) * nat;
  (** [process.env.CLAUDE_MODEL], [parseInt(process.env.MAX_TOKENS)], which
      may be negative, and [parseFloat(process.env.TEMPERATURE)] ([None]
      where absent or NaN). *)
  env_CLAUDE_MODEL : option jsstring;
  env_MAX_TOKENS : option Z;
  env_TEMPERATURE : option Q;
  (** The template literal [systemPrompt] of each entry of
      [config/agents.js]. *)
  prompt_text : jsstring -> jsstring
}.

(* ================================================================= *)
(** ** State and exceptions *)

(** An entry of [workflowHistory]; the ISO text of [timestamp] is the
    instant it denotes, in milliseconds. *)
Record HistoryEntry := {
  h_agent : jsstring;
  h_timestamp : nat;
  h_success : bool;
  h_executionTime : nat
}.

(** The clock (milliseconds), the entries pushed on [workflowHistory], each
    with the time of its push, in the order in which the calls that push them
    were started, and the requests sent to the SDK so far. *)
Record World := {
  now : nat;
  workflowHistory : list HistoryEntry;
  requests : list CreateParams
}.

Inductive Outcome (A : Type) :=
| Ret (a : A) (w : World)
| Throw (e : JSError) (w : World).
Arguments Ret {A} a w.
Arguments Throw {A} e w.

Definition M (A : Type) := World -> Outcome A.

Definition ret {A} (a : A) : M A := fun w => Ret a w.
Definition throw {A} (e : JSError) : M A := fun w => Throw e w.

Definition bind {A B} (m : M A) (k : A -> M B) : M B :=
  fun w =>
    match m w with
    | Ret a w' => k a w'
    | Throw e w' => Throw e w'
    end.

Notation "x <- m ;; k" := (bind m (fun x => k))
  (at level 61, m at next level, right associativity).

(** [try { body } catch (error) { handler }] *)
Definition try_catch {A} (body : M A) (handler : JSError -> M A) : M A :=
  fun w =>
    match body w with
    | Ret a w' => Ret a w'
    | Throw e w' => handler e w'
    end.

Definition lift {A} (c : Completion A) : M A :=
  match c with
  | Normal a => ret a
  | Abrupt e => throw e
  end.

(** [Date.now()] *)
Definition Date_now : M nat := fun w => Ret (now w) w.

Definition world_of {A} (o : Outcome A) : World :=
  match o with
  | Ret _ w | Throw _ w => w
  end.

Definition set_now (t : nat) (w : World) : World :=
  {| now := t; workflowHistory := workflowHistory w; requests := requests w |}.

(** When a call ends and how. *)
Definition settled {A} (o : Outcome A) : nat * Completion A :=
  match o with
  | Ret a w => (now w, Normal a)
  | Throw e w => (now w, Abrupt e)
  end.

(** The calls of an array of promises: each runs up to its request when the
    array is built, so the requests leave in the order of the array, all at
    the same time [t0]; each call then ends at a time of its own. *)
Fixpoint start_all {A} (t0 : nat) (calls : list (M A)) (w : World)
  : list (nat * Completion A) * World :=
  match calls with
  | [] => ([], w)
  | call :: calls' =>
      let o := call (set_now t0 w) in
      let '(rest, w') := start_all t0 calls' (world_of o) in
      (settled o :: rest, w')
  end.

(** The first rejection in time, the earlier of the array among equal
    times. *)
Fixpoint first_rejection {A} (l : list (nat * Completion A))
  : option (nat * JSError) :=
  match l with
  | [] => None
  | (t, Normal _) :: l' => first_rejection l'
  | (t, Abrupt e) :: l' =>
      match first_rejection l' with
      | Some (t', e') => if Nat.ltb t' t then Some (t', e') else Some (t, e)
      | None => Some (t, e)
      end
  end.

Fixpoint values {A} (l : list (nat * Completion A)) : list A :=
  match l with
  | [] => []
  | (_, Normal a) :: l' => a :: values l'
  | (_, Abrupt _) :: l' => values l'
  end.

(** [await Promise.all(calls)]: fulfilled with the values, in the order of
    the array, when the last call has ended; rejected as soon as one call
    throws, the others going on unawaited. *)
Definition Promise_all {A} (calls : list (M A)) : M (list A) :=
  fun w =>
    let '(l, w') := start_all (now w) calls w in
    match first_rejection l with
    | Some (t, e) => Throw e (set_now t w')
    | None => Ret (values l) (set_now (fold_left Nat.max (map fst l) (now w)) w')
    end.

(** An entry put in its place among entries in the order of their pushes;
    among equal times, the call started first comes first. *)
Fixpoint insert_by_time (e : HistoryEntry) (l : list HistoryEntry)
  : list HistoryEntry :=
  match l with
  | [] => [e]
  | x :: l' =>
      if Nat.ltb (h_timestamp e) (h_timestamp x) then e :: l
      else x :: insert_by_time e l'
  end.

(** [getHistory()] at the present time: the entries pushed so far, in the
    order of their pushes.  Entries of calls still running are not in it. *)
Definition getHistory (w : World) : list HistoryEntry :=
  fold_left (fun acc e => insert_by_time e acc)
    (filter (fun e => Nat.leb (h_timestamp e) (now w)) (workflowHistory w)) [].

Section Rollizr.

Context {host : Host}.

(* ================================================================= *)
(** ** [src/utils/claude-client.js] *)

(** The object that [sendMessage] returns: [{success: true, content, usage,
    stopReason}] or [{success: false, error}]. *)
Record Usage := {
  inputTokens : N;
  outputTokens : N
}.

Inductive ClientResponse :=
| ClientOk (content : jsstring) (usage : Usage) (stopReason : jsstring)
| ClientFail (error : jsstring).

Record Options := {
  o_maxTokens : Z;
  o_temperature : Q
}.

(** [this.model]: [process.env.CLAUDE_MODEL || 'claude-sonnet-4-5-20250929'] *)
Definition client_model : jsstring :=
  match env_CLAUDE_MODEL with
  | Some (c :: m) => c :: m
  | _ => lit "claude-sonnet-4-5-20250929"
  end.

(** [options.maxTokens || parseInt(process.env.MAX_TOKENS) || 4096] *)
Definition or_max_tokens (o : Options) : Z :=
  if Z.eqb (o_maxTokens o) 0 then
    match env_MAX_TOKENS with
    | Some n => if Z.eqb n 0 then 4096%Z else n
    | None => 4096%Z
    end
  else o_maxTokens o.

(** [options.temperature || parseFloat(process.env.TEMPERATURE) || 0.7] *)
Definition or_temperature (o : Options) : Q :=
  if Qeq_bool (o_temperature o) 0%Q then
    match env_TEMPERATURE with
    | Some q => if Qeq_bool q 0%Q then (7 # 10)%Q else q
    | None => (7 # 10)%Q
    end
  else o_temperature o.

(** [await this.client.messages.create(params)] and the reading of the
    response: the request leaves, the clock moves on by the time the call
    takes, and the call returns or throws. *)
Definition create_and_read (params : CreateParams) : M SdkResponse :=
  fun w =>
    let '(r, latency) := messages_create (List.length (requests w)) params in
    let w' := {| now := now w + latency;
                 workflowHistory := workflowHistory w;
                 requests := requests w ++ [params] |} in
    match r with
    | inl response => Ret response w'
    | inr message => Throw (Error message) w'
    end.

Definition sendMessage (systemPrompt userMessage : jsstring) (options : Options)
  : M ClientResponse :=
  try_catch
    (response <- create_and_read
       {| model := client_model;
          max_tokens := or_max_tokens options;
          cp_temperature := or_temperature options;
          system := systemPrompt;
          messages := [(lit "user", userMessage)] |} ;;
     ret (ClientOk (text response)
            {| inputTokens := input_tokens response;
               outputTokens := output_tokens response |}
            (stop_reason response)))
    (fun error => ret (ClientFail (error_message error))).

(** [JSON.parse(s)] inside [try]: the text given to the parser is noted, so
    that what [parseJSON] attempts can be stated. *)
Definition try_parse (s : jsstring) : list jsstring * option JValue :=
  ([s], JSON_parse s).

(** [parseJSON(content)]: the texts given to [JSON.parse], in order, and the
    value returned ([JNull] for [null]). *)
Definition parseJSON_run (content : jsstring) : list jsstring * JValue :=
  let '(log1, r1) := try_parse content in
  match r1 with
  | Some v => (log1, v)
  | None =>
      match str_match content fence_re with
      | Some jsonMatch =>
          let '(log2, r2) :=
            try_parse (match m_1 jsonMatch with Some g => g | None => [] end) in
          match r2 with
          | Some v => (log1 ++ log2, v)
          | None => (log1 ++ log2, JNull)
          end
      | None =>
          match str_match content object_re with
          | Some objectMatch =>
              let '(log3, r3) := try_parse (m_0 objectMatch) in
              match r3 with
              | Some v => (log1 ++ log3, v)
              | None => (log1 ++ log3, JNull)
              end
          | None => (log1, JNull)
          end
      end
  end.

Definition parseJSON (content : jsstring) : JValue :=
  snd (parseJSON_run content).

Definition parse_attempts (content : jsstring) : list jsstring :=
  fst (parseJSON_run content).

(* ================================================================= *)
(** ** [src/agents/base-agent.js] *)

Record BaseAgent := {
  name : jsstring;
  agent_role : jsstring;
  description : jsstring;
  systemPrompt : jsstring;
  maxTokens : Z;
  temperature : Q
}.

Record Metadata := {
  executionTime : nat;
  tokensUsed : option Usage;
  timestamp : nat
}.

(** The object that [execute] returns; [None] is a property that the object
    literal does not have. *)
Record ExecutionResult := {
  success : bool;
  agent : jsstring;
  role : jsstring;
  output : option JValue;
  error : option jsstring;
  metadata : Metadata
}.

(** [result.output] and [result.error] as expressions. *)
Definition get_output (r : ExecutionResult) : JValue :=
  match output r with
  | Some v => v
  | None => JUndefined
  end.

Definition get_error (r : ExecutionResult) : JValue :=
  match error r with
  | Some m => JStr m
  | None => JUndefined
  end.

(** A parameter declared [context = {}]. *)
Definition default_object (context : JValue) : JValue :=
  match context with
  | JUndefined => JObj []
  | _ => context
  end.

(** [Object.keys(v).length] *)
Definition keys_length (v : JValue) : Completion nat :=
  match v with
  | JUndefined | JNull =>
      Abrupt (TypeError (lit "Cannot convert undefined or null to object"))
  | JObj ps => Normal (List.length ps)
  | JArr l => Normal (List.length l)
  | JStr s => Normal (List.length s)
  | JBool _ | JNum _ => Normal 0
  end.

Definition nl : jsstring := [10%N].

Definition _buildUserMessage (input context : JValue) : Completion jsstring :=
  match keys_length context with
  | Abrupt e => Abrupt e
  | Normal n =>
      let message :=
        if Nat.ltb 0 n then
          lit "=== CONTEXT ===" ++ nl ++ JSON_stringify context ++ nl ++ nl
        else [] in
      let message := message ++ lit "=== TASK ===" ++ nl in
      Normal (message ++ match input with
                         | JStr s => s
                         | _ => JSON_stringify input
                         end)
  end.

Definition _parseResponse (content : jsstring) : JValue :=
  let parsed := parseJSON content in
  if truthy parsed then parsed
  else JObj [(lit "rawResponse", JStr content); (lit "parsed", JBool false)].

(** [execute(input, context = {})].  The console output of [_logExecution] and
    of the handler is not modelled. *)
Definition execute (this : BaseAgent) (input context : JValue)
  : M ExecutionResult :=
  let context := default_object context in
  startTime <- Date_now ;;
  try_catch
    (userMessage <- lift (_buildUserMessage input context) ;;
     response <- sendMessage (systemPrompt this) userMessage
                   {| o_maxTokens := maxTokens this;
                      o_temperature := temperature this |} ;;
     match response with
     | ClientFail message => throw (Error message)
     | ClientOk content usage _ =>
         let output := _parseResponse content in
         t <- Date_now ;;
         ret {| success := true;
                agent := name this;
                role := agent_role this;
                output := Some output;
                error := None;
                metadata := {| executionTime := t - startTime;
                               tokensUsed := Some usage;
                               timestamp := t |} |}
     end)
    (fun err =>
       t <- Date_now ;;
       ret {| success := false;
              agent := name this;
              role := agent_role this;
              output := None;
              error := Some (error_message err);
              metadata := {| executionTime := t - startTime;
                             tokensUsed := None;
                             timestamp := t |} |}).

(* ================================================================= *)
(** ** Expressions of JavaScript used by the orchestrator *)

Definition cbind {A B} (c : Completion A) (k : A -> Completion B)
  : Completion B :=
  match c with
  | Normal a => k a
  | Abrupt e => Abrupt e
  end.

(** [v.k], for the property names the workflows read ([score], [approved],
    [violations], ...), none of which a built-in prototype defines: the own
    property of an object, [undefined] on any other value, a TypeError on
    [undefined] and [null]. *)
Definition prop (v : JValue) (k : string) : Completion JValue :=
  match v with
  | JUndefined =>
      Abrupt (TypeError (lit "Cannot read properties of undefined (reading '"
                           ++ lit k ++ lit "')"))
  | JNull =>
      Abrupt (TypeError (lit "Cannot read properties of null (reading '"
                           ++ lit k ++ lit "')"))
  | JObj ps =>
      Normal (match assoc (lit k) ps with
              | Some x => x
              | None => JUndefined
              end)
  | _ => Normal JUndefined
  end.

(** ToNumber *)
Definition to_number (v : JValue) : Completion JSNumber :=
  match v with
  | JUndefined => Normal NNaN
  | JNull => Normal (NFin 0%Q)
  | JBool b => Normal (NFin (if b then 1%Q else 0%Q))
  | JNum n => Normal n
  | JStr s => Normal (StringToNumber s)
  | JArr _ | JObj _ => ObjectToNumber v
  end.

(** [v < n] for a Number [n] *)
Definition js_lt (v : JValue) (n : JSNumber) : Completion bool :=
  cbind (to_number v) (fun x => Normal (num_lt x n)).

(** The elements that [...v] gives inside an array literal: those of an
    array, the code points of a string; nothing else that the workflows can
    hold is iterable. *)
Definition is_high_surrogate (c : codeunit) : bool :=
  N.leb 55296 c && N.leb c 56319.
Definition is_low_surrogate (c : codeunit) : bool :=
  N.leb 56320 c && N.leb c 57343.

Fixpoint code_points (pending : option codeunit) (s : jsstring)
  : list JValue :=
  match s with
  | [] => match pending with Some h => [JStr [h]] | None => [] end
  | c :: s' =>
      match pending with
      | Some h =>
          if is_low_surrogate c then JStr [h; c] :: code_points None s'
          else if is_high_surrogate c then JStr [h] :: code_points (Some c) s'
          else JStr [h] :: JStr [c] :: code_points None s'
      | None =>
          if is_high_surrogate c then code_points (Some c) s'
          else JStr [c] :: code_points None s'
      end
  end.

(** [...v], where [expr] is the source text of the operand, after which the
    message of the TypeError is worded. *)
Definition spread (expr : string) (v : JValue) : Completion (list JValue) :=
  match v with
  | JArr l => Normal l
  | JStr s => Normal (code_points None s)
  | _ => Abrupt (TypeError (lit expr ++ lit " is not iterable"))
  end.

(** The callback on each element in turn, until a call throws. *)
Fixpoint map_completion {A B} (f : A -> Completion B) (l : list A)
  : Completion (list B) :=
  match l with
  | [] => Normal []
  | a :: l' =>
      cbind (f a) (fun b => cbind (map_completion f l') (fun bs => Normal (b :: bs)))
  end.

(** [v.map(f)]: only an array has a callable [map]; [expr] is the source
    text of the receiver, after which the message of the TypeError is
    worded. *)
Definition array_map (expr : string) (v : JValue)
  (f : JValue -> Completion JValue) : Completion (list JValue) :=
  match v with
  | JArr l => map_completion f l
  | JUndefined =>
      Abrupt (TypeError (lit "Cannot read properties of undefined (reading 'map')"))
  | JNull =>
      Abrupt (TypeError (lit "Cannot read properties of null (reading 'map')"))
  | _ => Abrupt (TypeError (lit expr ++ lit ".map is not a function"))
  end.

(** The own enumerable properties that [{...v}] copies. *)
Fixpoint indexed (i : nat) (l : list JValue) : list (jsstring * JValue) :=
  match l with
  | [] => []
  | x :: l' => (index_to_string i, x) :: indexed (S i) l'
  end.

Definition object_spread (v : JValue) : list (jsstring * JValue) :=
  match v with
  | JObj ps => ps
  | JArr l => indexed 0 l
  | JStr s => indexed 0 (map (fun c => JStr [c]) s)
  | _ => []
  end.

(* ================================================================= *)
(** ** [src/config/agents.js] and [src/agents/index.js] *)

Definition config (key : string) (name role description : string)
  (temperature : Q) : jsstring * BaseAgent :=
  (lit key,
   {| name := lit name;
      agent_role := lit role;
      description := lit description;
      systemPrompt := prompt_text (lit key);
      maxTokens := 4096%Z;
      temperature := temperature |}).

Definition AGENT_CONFIGS : list (jsstring * BaseAgent) :=
  [ config "scout" "Scout Agent" "target_discovery"
      "Finds companies that match investment thesis; explains rationale with sources"
      (3 # 10)%Q;
    config "resolver" "Resolver Agent" "entity_resolution"
      "Cleans and merges duplicate company entities; provides confidence labels"
      (2 # 10)%Q;
    config "profiler" "Profiler Agent" "company_enrichment"
      "Builds rich company profiles including tech stack, services, pricing indicators"
      (4 # 10)%Q;
    config "valuation" "Valuation Agent" "business_valuation"
      "Triangulates company value using comps, rules of thumb, and DCF; states assumptions"
      (3 # 10)%Q;
    config "compliance" "Compliance Agent" "regulatory_compliance"
      "Monitors outreach rules, data usage policies, and licensure requirements"
      (1 # 10)%Q;
    config "outreach" "Outreach Agent" "communication"
      "Writes and schedules personalized outreach sequences; adapts tone; logs consent"
      (6 # 10)%Q;
    config "diligence" "Diligence Agent" "due_diligence"
      "Generates request lists, summarizes documents, performs gap analysis"
      (3 # 10)%Q;
    config "integrator" "Integrator Agent" "post_acquisition"
      "Creates 100-day plans, pulls KPIs, manages integration tasks"
      (4 # 10)%Q ].

(** [agents[key] = new BaseAgent(config)] for every entry: the constructor
    copies the fields of the configuration. *)
Definition agents : list (jsstring * BaseAgent) := AGENT_CONFIGS.

(** The names that every object inherits from [Object.prototype]. *)
Definition Object_prototype_names : list jsstring :=
  map lit
    [ "constructor"; "__defineGetter__"; "__defineSetter__"; "hasOwnProperty";
      "__lookupGetter__"; "__lookupSetter__"; "isPrototypeOf";
      "propertyIsEnumerable"; "toString"; "valueOf"; "__proto__";
      "toLocaleString" ]%string.

(** [this.agents[agentKey]]: an agent of the table, a value inherited from
    [Object.prototype] (truthy, and without a method [execute]), or
    [undefined]. *)
Inductive Property :=
| Own (a : BaseAgent)
| Inherited
| Missing.

Fixpoint lookup_agent (k : jsstring) (table : list (jsstring * BaseAgent))
  : option BaseAgent :=
  match table with
  | [] => None
  | (k', a) :: table' => if str_eqb k k' then Some a else lookup_agent k table'
  end.

Definition agents_get (agentKey : jsstring) : Property :=
  match lookup_agent agentKey agents with
  | Some a => Own a
  | None =>
      if existsb (str_eqb agentKey) Object_prototype_names then Inherited
      else Missing
  end.

(* ================================================================= *)
(** ** [src/workflows/orchestrator.js] *)

Definition push_history (e : HistoryEntry) : M unit :=
  fun w =>
    Ret tt {| now := now w;
              workflowHistory := workflowHistory w ++ [e];
              requests := requests w |}.

(** [executeAgent(agentKey, input, context = {})] *)
Definition executeAgent (agentKey : jsstring) (input context : JValue)
  : M ExecutionResult :=
  let context := default_object context in
  match agents_get agentKey with
  | Missing =>
      throw (Error (lit "Agent '" ++ agentKey ++ lit "' not found"))
  | Inherited =>
      throw (TypeError (lit "agent.execute is not a function"))
  | Own agent =>
      result <- execute agent input context ;;
      t <- Date_now ;;
      _ <- push_history {| h_agent := agentKey;
                           h_timestamp := t;
                           h_success := success result;
                           h_executionTime := executionTime (metadata result) |} ;;
      ret result
  end.

(** The object that [executePipeline] returns; [None] is a property that the
    object literal does not have. *)
Record PipelineResult := {
  p_success : bool;
  failedAt : option jsstring;
  p_results : list ExecutionResult;
  p_error : option JValue;
  finalOutput : option JValue;
  p_context : option (list (jsstring * JValue))
}.

(** The [for ... of] loop of [executePipeline] and the statements after
    it. *)
Fixpoint pipeline_loop (agentSequence : list jsstring)
  (results : list ExecutionResult) (currentInput : JValue)
  (context : list (jsstring * JValue)) : M PipelineResult :=
  match agentSequence with
  | agentKey :: rest =>
      result <- executeAgent agentKey currentInput (JObj context) ;;
      let results := results ++ [result] in
      if negb (success result) then
        ret {| p_success := false;
               failedAt := Some (agent result);
               p_results := results;
               p_error := Some (get_error result);
               finalOutput := None;
               p_context := None |}
      else
        pipeline_loop rest results (get_output result)
          (obj_set (role result) (get_output result) context)
  | [] =>
      match rev results with
      | last :: _ =>
          ret {| p_success := true;
                 failedAt := None;
                 p_results := results;
                 p_error := None;
                 finalOutput := Some (get_output last);
                 p_context := Some context |}
      | [] =>
          throw (TypeError
                   (lit "Cannot read properties of undefined (reading 'output')"))
      end
  end.

Definition executePipeline (agentSequence : list jsstring) (initialInput : JValue)
  : M PipelineResult :=
  pipeline_loop agentSequence [] initialInput [].

Record ParallelResult := {
  par_success : bool;
  par_results : list ExecutionResult;
  outputs : list (jsstring * JValue)
}.

(** [executeParallel(agentKeys, input, context = {})] *)
Definition executeParallel (agentKeys : list jsstring) (input context : JValue)
  : M ParallelResult :=
  let context := default_object context in
  results <- Promise_all
               (map (fun agentKey => executeAgent agentKey input context)
                  agentKeys) ;;
  ret {| par_success := forallb success results;
         par_results := results;
         outputs := fold_left (fun acc r => obj_set (role r) (get_output r) acc)
                      results [] |}.

(** The objects that [executeSourcingWorkflow] returns. *)
Record SourcingResults := {
  scout : ExecutionResult;
  profiler : ExecutionResult;
  valuation : option ExecutionResult;
  compliance : ExecutionResult
}.

Record Summary := {
  score : JValue;
  estimatedValue : JValue;
  topSignals : JValue;
  risks : list JValue
}.

Record SourcingResult := {
  s_success : bool;
  qualified : bool;
  reason : option jsstring;
  scoutResult : option ExecutionResult;
  s_results : option SourcingResults;
  summary : option Summary
}.

(** [r.output] for an element [r] of a destructured array, which is
    [undefined] when the array is too short. *)
Definition element_output (r : option ExecutionResult) : Completion JValue :=
  match r with
  | Some r => Normal (get_output r)
  | None =>
      Abrupt (TypeError
                (lit "Cannot read properties of undefined (reading 'output')"))
  end.

Definition executeSourcingWorkflow (thesis companyData : JValue)
  : M SourcingResult :=
  scoutResult <- executeAgent (lit "scout")
                   (JObj (obj_lit [(lit "thesis", thesis);
                                   (lit "companyData", companyData)]))
                   JUndefined ;;
  below <- lift (if negb (success scoutResult) then Normal true
                 else cbind (prop (get_output scoutResult) "score")
                        (fun v => js_lt v (NFin 50%Q))) ;;
  if (below : bool) then
    ret {| s_success := true;
           qualified := false;
           reason := Some (lit "Did not meet minimum score threshold");
           scoutResult := Some scoutResult;
           s_results := None;
           summary := None |}
  else
    profilerResult <- executeAgent (lit "profiler") companyData
                        (JObj (obj_lit [(lit "scoutAnalysis",
                                         get_output scoutResult)])) ;;
    both <- Promise_all
              [ executeAgent (lit "valuation") companyData
                  (JObj (obj_lit [(lit "scoutAnalysis", get_output scoutResult);
                                  (lit "profile", get_output profilerResult)]));
                executeAgent (lit "compliance") companyData
                  (JObj (obj_lit [(lit "checkType", JStr (lit "licensure"))])) ] ;;
    let valuationResult := nth_error both 0 in
    match nth_error both 1 with
    | None =>
        throw (TypeError
                 (lit "Cannot read properties of undefined (reading 'output')"))
    | Some complianceResult =>
    approved <- lift (prop (get_output complianceResult) "approved") ;;
    if negb (truthy approved) then
      ret {| s_success := true;
             qualified := false;
             reason := Some (lit "Failed compliance checks");
             scoutResult := None;
             s_results := Some {| scout := scoutResult;
                                  profiler := profilerResult;
                                  valuation := None;
                                  compliance := complianceResult |};
             summary := None |}
    else
      score <- lift (prop (get_output scoutResult) "score") ;;
      estimatedValue <- lift (cbind (element_output valuationResult)
                                (fun o => prop o "estimated_value_range")) ;;
      topSignals <- lift (prop (get_output scoutResult) "top_signals") ;;
      scoutRisks <- lift (cbind (prop (get_output scoutResult) "risks")
                            (spread "scoutResult.output.risks")) ;;
      violations <- lift (prop (get_output complianceResult) "violations") ;;
      details <- lift (array_map "complianceResult.output.violations"
                         violations (fun v => prop v "details")) ;;
      ret {| s_success := true;
             qualified := true;
             reason := None;
             scoutResult := None;
             s_results := Some {| scout := scoutResult;
                                  profiler := profilerResult;
                                  valuation := valuationResult;
                                  compliance := complianceResult |};
             summary := Some {| score := score;
                                estimatedValue := estimatedValue;
                                topSignals := topSignals;
                                risks := scoutRisks ++ details |} |}
    end.

(** The objects that [executeOutreachWorkflow] returns. *)
Record OutreachResult := {
  o_success : bool;
  o_reason : option jsstring;
  o_violations : option JValue;
  complianceCheck : option ExecutionResult;
  outreachDraft : option ExecutionResult
}.

(** [executeOutreachWorkflow(companyData, context = {})] *)
Definition executeOutreachWorkflow (companyData context : JValue)
  : M OutreachResult :=
  let context := default_object context in
  entity_id <- lift (prop companyData "company_id") ;;
  contact_info <- lift (prop companyData "contact") ;;
  complianceResult <- executeAgent (lit "compliance")
                        (JObj (obj_lit [(lit "entity_id", entity_id);
                                        (lit "check_type", JStr (lit "outreach"));
                                        (lit "contact_info", contact_info)]))
                        JUndefined ;;
  approved <- lift (prop (get_output complianceResult) "approved") ;;
  if negb (truthy approved) then
    violations <- lift (prop (get_output complianceResult) "violations") ;;
    ret {| o_success := false;
           o_reason := Some (lit "Outreach not approved by compliance");
           o_violations := Some violations;
           complianceCheck := None;
           outreachDraft := None |}
  else
    outreachResult <- executeAgent (lit "outreach") companyData
                        (JObj (obj_set (lit "complianceApproved") (JBool true)
                                 (obj_lit (object_spread context)))) ;;
    ret {| o_success := true;
           o_reason := None;
           o_violations := None;
           complianceCheck := Some complianceResult;
           outreachDraft := Some outreachResult |}.

Record DiligenceResult := {
  d_success : bool;
  diligenceReport : ExecutionResult
}.

(** [executeDiligenceWorkflow(companyData, documents = [])] *)
Definition executeDiligenceWorkflow (companyData documents : JValue)
  : M DiligenceResult :=
  let documents := match documents with JUndefined => JArr [] | _ => documents end in
  company_id <- lift (prop companyData "company_id") ;;
  vertical <- lift (prop companyData "vertical") ;;
  diligenceResult <- executeAgent (lit "diligence")
                       (JObj (obj_lit [(lit "company_id", company_id);
                                       (lit "documents", documents);
                                       (lit "vertical", vertical)]))
                       JUndefined ;;
  ret {| d_success := true; diligenceReport := diligenceResult |}.

Record IntegrationResult := {
  i_success : bool;
  integrationPlan : ExecutionResult
}.

Definition executeIntegrationWorkflow (dealData : JValue) : M IntegrationResult :=
  integrationResult <- executeAgent (lit "integrator") dealData JUndefined ;;
  ret {| i_success := true; integrationPlan := integrationResult |}.

(** [clearHistory()]: a new, empty array; the pushes of calls still running
    will go to it. *)
Definition clearHistory : M unit :=
  fun w =>
    Ret tt {| now := now w;
              workflowHistory :=
                filter (fun e => negb (Nat.leb (h_timestamp e) (now w)))
                  (workflowHistory w);
              requests := requests w |}.

End Rollizr.

(* ================================================================= *)
(** ** The Response Extractor, as the specification words it *)

(** The index of the first and of the last occurrence of a code unit. *)
Fixpoint first_index (c : codeunit) (s : jsstring) : option nat :=
  match s with
  | [] => None
  | d :: s' => if N.eqb c d then Some 0 else option_map S (first_index c s')
  end.

Fixpoint last_index (c : codeunit) (s : jsstring) : option nat :=
  match s with
  | [] => None
  | d :: s' =>
      match last_index c s' with
      | Some j => Some (S j)
      | None => if N.eqb c d then Some 0 else None
      end
  end.

(** The code units of [s] from index [i] to index [j], both included. *)
Definition slice (i j : nat) (s : jsstring) : jsstring :=
  skipn i (firstn (S j) s).

(** The first opening brace through the last closing brace. *)
Definition outer_brace_span (s : jsstring) : option jsstring :=
  match first_index lbrace s, last_index rbrace s with
  | Some i, Some j => if Nat.ltb i j then Some (slice i j s) else None
  | _, _ => None
  end.

(** A step yields a structured document, as the specification has it, when
    its parse returns a key-value object. *)
Definition structured (r : option JValue) : Prop :=
  exists ps, r = Some (JObj ps).

(** A step yields a truthy value when its parse returns a value, and not one
    of the values that [_parseResponse] takes for a failure ([null], [false],
    [0], the empty string). *)
Definition yields_truthy (r : option JValue) : Prop :=
  exists v, r = Some v /\ truthy v = true.

Section Extractor.

Context {host : Host}.

(** Step 1: the whole text. *)
Definition whole_text_parse (content : jsstring) : option JValue :=
  JSON_parse content.

(** Step 2: the interior of the first fenced block tagged [json]. *)
Definition fenced_block_parse (content : jsstring) : option JValue :=
  match str_match content fence_re with
  | Some m => JSON_parse (match m_1 m with Some g => g | None => [] end)
  | None => None
  end.

(** Step 3: the outer brace span. *)
Definition outer_brace_parse (content : jsstring) : option JValue :=
  match outer_brace_span content with
  | Some t => JSON_parse t
  | None => None
  end.

End Extractor.

(** The result of [execute] has exactly one of [output] and [error], and
    [success] tells which. *)
Definition exactly_one (r : ExecutionResult) : Prop :=
  (success r = true /\ (exists o, output r = Some o) /\ error r = None) \/
  (success r = false /\ output r = None /\ exists m, error r = Some m).

(** The keys of the agent table. *)
Definition known {host : Host} (agentKey : jsstring) : Prop :=
  In agentKey (map fst agents).

(** What a call [executeAgent(agentKey, input, context)] on an agent [a] of
    the table does to the state [w], with its result [r]: one entry is
    pushed on the history, for that key; the clock does not go back; one
    request leaves, or none when building the message throws, which only a
    [null] context causes. *)
Record agent_run (agentKey : jsstring) (a : BaseAgent) (context : JValue)
  (w : World) (r : ExecutionResult) (w' : World) : Prop := {
  run_agent : agent r = name a;
  run_role : role r = agent_role a;
  run_exactly_one : exactly_one r;
  run_history :
    workflowHistory w' =
    workflowHistory w ++
      [{| h_agent := agentKey;
          h_timestamp := now w';
          h_success := success r;
          h_executionTime := executionTime (metadata r) |}];
  run_clock : now w <= now w';
  run_request :
    context <> JNull -> exists p, requests w' = requests w ++ [p];
  run_requests :
    requests w' = requests w \/ exists p, requests w' = requests w ++ [p]
}.

(** The calls that the loop of [executePipeline] makes for the keys [keys],
    one after the other: [executeAgent] on the first key with the input and
    the context, in the state [w]; then on each next key, in the state in
    which the call before it ended, with the output of that call as the
    input and with the context to which that output was added under the role
    of its agent.  [rs] are the results of the calls, in order, and [w'] is
    the state in which the last of them ended. *)
Inductive pipeline_steps {host : Host} :
  list jsstring -> JValue -> list (jsstring * JValue) -> World ->
  list ExecutionResult -> World -> Prop :=
| steps_nil (input : JValue) (context : list (jsstring * JValue)) (w : World) :
    pipeline_steps [] input context w [] w
| steps_cons (key : jsstring) (keys : list jsstring) (input : JValue)
    (context : list (jsstring * JValue)) (w w1 w' : World)
    (r : ExecutionResult) (rs : list ExecutionResult) :
    executeAgent key input (JObj context) w = Ret r w1 ->
    pipeline_steps keys (get_output r)
      (obj_set (role r) (get_output r) context) w1 rs w' ->
    pipeline_steps (key :: keys) input context w (r :: rs) w'.

(* ================================================================= *)
(** ** Hosts for the examples *)

Definition quote : jsstring := [34%N].

(** The SDK answers with a text after [ms] milliseconds. *)
Definition says (t : jsstring) (ms : nat) : (SdkResponse + jsstring) * nat :=
  (inl {| text := t;
          input_tokens := 120%N;
          output_tokens := 40%N;
          stop_reason := lit "end_turn" |}, ms).

(** The call fails after [ms] milliseconds. *)
Definition fails (message : string) (ms : nat) : (SdkResponse + jsstring) * nat :=
  (inr (lit message), ms).

(** A host whose [JSON.parse] accepts the texts of a table, with the values
    listed, and rejects every other text, and whose SDK answers its [n]-th
    call with [replies n]. *)
Definition table_host (table : list (jsstring * JValue))
  (replies : nat -> (SdkResponse + jsstring) * nat) : Host :=
  {| JSON_parse := fun s => assoc s table;
     JSON_stringify := fun _ => lit "{}";
     StringToNumber := fun _ => NNaN;
     ObjectToNumber := fun _ => Normal NNaN;
     messages_create := fun n _ => replies n;
     env_CLAUDE_MODEL := None;
     env_MAX_TOKENS := None;
     env_TEMPERATURE := None;
     prompt_text := fun key => lit "You are the agent " ++ key |}.

(** The state of a process that has just started. *)
Definition w0 : World := {| now := 0; workflowHistory := []; requests := [] |}.

(** A host whose network is down. *)
Definition offline_host : Host :=
  table_host [] (fun _ => fails "Connection error." 30).

(** A fenced block that is not JSON, followed by an object. *)
Definition fenced_then_object : jsstring := lit "```json x ``` {}".

(** An object between two remarks. *)
Definition object_in_prose : jsstring := lit "Result: {} (end)".

Definition empty_object_host : Host :=
  table_host [(lit "{}", JObj [])] (fun _ => says object_in_prose 900).

(** A refusal, with no JSON in it. *)
Definition refusal : jsstring := lit "I cannot score this company.".

(** A host on which the text [42] is the JSON of the number 42. *)
Definition number_host : Host :=
  table_host [(lit "42", JNum (NFin 42%Q))] (fun _ => says (lit "42") 10).

(** The first call fails and every later call is refused in prose. *)
Definition first_call_fails_host : Host :=
  table_host []
    (fun n => match n with
              | O => fails "Connection error." 30
              | _ => says refusal 700
              end).

(** [{"score": 30}] and [{"score": 87}] *)
Definition score_text (digits : string) : jsstring :=
  lit "{" ++ quote ++ lit "score" ++ quote ++ lit ": " ++ lit digits ++ lit "}".

(** [{"approved": false}] *)
Definition denial_text : jsstring :=
  lit "{" ++ quote ++ lit "approved" ++ quote ++ lit ": false}".

(** [{"approved": true}] *)
Definition approval_text : jsstring :=
  lit "{" ++ quote ++ lit "approved" ++ quote ++ lit ": true}".

Definition sourcing_table : list (jsstring * JValue) :=
  [ (score_text "30", JObj [(lit "score", JNum (NFin 30%Q))]);
    (score_text "87", JObj [(lit "score", JNum (NFin 87%Q))]);
    (denial_text, JObj [(lit "approved", JBool false)]);
    (approval_text, JObj [(lit "approved", JBool true)]);
    (lit "{}", JObj []) ].

(** [{"score": null}] *)
Definition null_score_text : jsstring :=
  lit "{" ++ quote ++ lit "score" ++ quote ++ lit ": null}".

(** The scout gives no score but the property is there, with [null]. *)
Definition null_score_host : Host :=
  table_host [(null_score_text, JObj [(lit "score", JNull)])]
    (fun _ => says null_score_text 1000).

(** [{"score": "N/A"}] *)
Definition text_score_text : jsstring :=
  lit "{" ++ quote ++ lit "score" ++ quote ++ lit ": " ++ quote ++ lit "N/A"
  ++ quote ++ lit "}".

(** The scout gives a score that is a text; the other agents answer with an
    empty object. *)
Definition text_score_host : Host :=
  table_host [(text_score_text, JObj [(lit "score", JStr (lit "N/A"))]);
              (lit "{}", JObj [])]
    (fun n => match n with
              | 0 => says text_score_text 1000
              | _ => says (lit "{}") 500
              end).

(** An answer with its JSON in a fenced block. *)
Definition fenced_answer : jsstring :=
  lit "Here is the analysis:" ++ nl ++ lit "```json" ++ nl
  ++ score_text "87" ++ nl ++ lit "```" ++ nl ++ lit "Let me know.".

(** Two objects in one text. *)
Definition two_objects : jsstring := lit "first {a} then {b} last".

(** The scout gives the company a score of 30. *)
Definition low_score_host : Host :=
  table_host sourcing_table (fun _ => says (score_text "30") 1200).

(** The scout gives 87, the profiler and the valuation agent answer with an
    empty object, and the compliance agent, faster than the valuation agent,
    denies its approval. *)
Definition denial_host : Host :=
  table_host sourcing_table
    (fun n => match n with
              | 0 => says (score_text "87") 1200
              | 1 => says (lit "{}") 900
              | 2 => says (lit "{}") 1500
              | _ => says denial_text 400
              end).

(** The scout answers in prose; the other agents answer with an empty
    object. *)
Definition prose_scout_host : Host :=
  table_host sourcing_table
    (fun n => match n with
              | 0 => says refusal 800
              | _ => says (lit "{}") 500
              end).

(* ================================================================= *)
(** ** The other functions of the client, the runner and the orchestrator *)

Section Conversations.

Context {host : Host}.

(** [sendConversation(systemPrompt, messages, options)]: as [sendMessage],
    with the messages of the caller. *)
Definition sendConversation (systemPrompt : jsstring)
  (messages : list (jsstring * jsstring)) (options : Options)
  : M ClientResponse :=
  try_catch
    (response <- create_and_read
       {| model := client_model;
          max_tokens := or_max_tokens options;
          cp_temperature := or_temperature options;
          system := systemPrompt;
          messages := messages |} ;;
     ret (ClientOk (text response)
            {| inputTokens := input_tokens response;
               outputTokens := output_tokens response |}
            (stop_reason response)))
    (fun error => ret (ClientFail (error_message error))).

(** What a call of [executeWithHistory] gives: the object it returns, whose
    property [conversationHistory] (on success only) is the array of the
    agent itself, and that array, [this.conversationHistory], after the
    call. *)
Record HistoryExecution := {
  he_result : ExecutionResult;
  he_conversationHistory : option (list (jsstring * jsstring));
  he_retained : list (jsstring * jsstring)
}.

(** [executeWithHistory(input, history = [], context = {})] on an agent whose
    [conversationHistory] is [retained]. *)
Definition executeWithHistory (this : BaseAgent)
  (retained : list (jsstring * jsstring)) (input : JValue)
  (history : list (jsstring * jsstring)) (context : JValue)
  : M HistoryExecution :=
  let context := default_object context in
  startTime <- Date_now ;;
  try_catch
    (userMessage <- lift (_buildUserMessage input context) ;;
     let messages := history ++ [(lit "user", userMessage)] in
     response <- sendConversation (systemPrompt this) messages
                   {| o_maxTokens := maxTokens this;
                      o_temperature := temperature this |} ;;
     match response with
     | ClientFail message => throw (Error message)
     | ClientOk content usage _ =>
         let output := _parseResponse content in
         t <- Date_now ;;
         let retained' :=
           retained ++ [(lit "user", userMessage); (lit "assistant", content)] in
         ret {| he_result :=
                  {| success := true;
                     agent := name this;
                     role := agent_role this;
                     output := Some output;
                     error := None;
                     metadata := {| executionTime := t - startTime;
                                    tokensUsed := Some usage;
                                    timestamp := t |} |};
                he_conversationHistory := Some retained';
                he_retained := retained' |}
     end)
    (fun err =>
       t <- Date_now ;;
       ret {| he_result :=
                {| success := false;
                   agent := name this;
                   role := agent_role this;
                   output := None;
                   error := Some (error_message err);
                   metadata := {| executionTime := t - startTime;
                                  tokensUsed := None;
                                  timestamp := t |} |};
              he_conversationHistory := None;
              he_retained := retained |}).

(** [resetHistory()] *)
Definition resetHistory (retained : list (jsstring * jsstring))
  : list (jsstring * jsstring) := [].

End Conversations.

Section Statistics.

(** The double nearest to a real number: the sums and quotients of
    [getStats] are those of doubles. *)
Variable round : Q -> Q.

Record AgentStats := {
  count : nat;
  successes : nat
}.

Record Stats := {
  totalExecutions : nat;
  byAgent : list (jsstring * AgentStats);
  successRate : Q;
  avgExecutionTime : Q
}.

Fixpoint agent_stats (k : jsstring) (l : list (jsstring * AgentStats))
  : option AgentStats :=
  match l with
  | [] => None
  | (k', st) :: l' => if str_eqb k k' then Some st else agent_stats k l'
  end.

Fixpoint set_agent_stats (k : jsstring) (st : AgentStats)
  (l : list (jsstring * AgentStats)) : list (jsstring * AgentStats) :=
  match l with
  | [] => [(k, st)]
  | (k', st') :: l' =>
      if str_eqb k k' then (k, st) :: l' else (k', st') :: set_agent_stats k st l'
  end.

(** The three locals that the callback of [forEach] updates. *)
Record Tally := {
  t_byAgent : list (jsstring * AgentStats);
  successCount : nat;
  totalTime : Q
}.

(** One call of the callback.  [stats.byAgent[item.agent]] of a name that
    [byAgent] has not and that every object inherits from [Object.prototype]
    is the inherited value, which is truthy: no entry is made for it, and the
    two increments land on that value, outside of [byAgent]. *)
Definition tally_item (acc : Tally) (item : HistoryEntry) : Tally :=
  let key := h_agent item in
  let inherited :=
    match agent_stats key (t_byAgent acc) with
    | Some _ => false
    | None => existsb (str_eqb key) Object_prototype_names
    end in
  let by0 :=
    match agent_stats key (t_byAgent acc) with
    | Some _ => t_byAgent acc
    | None =>
        if inherited then t_byAgent acc
        else set_agent_stats key {| count := 0; successes := 0 |} (t_byAgent acc)
    end in
  let by1 :=
    match agent_stats key by0 with
    | Some st =>
        set_agent_stats key {| count := S (count st); successes := successes st |} by0
    | None => by0
    end in
  let by2 :=
    if h_success item then
      match agent_stats key by1 with
      | Some st =>
          set_agent_stats key {| count := count st; successes := S (successes st) |} by1
      | None => by1
      end
    else by1 in
  {| t_byAgent := by2;
     successCount := if h_success item then S (successCount acc) else successCount acc;
     totalTime := round (totalTime acc + inject_Z (Z.of_nat (h_executionTime item))) |}.

(** [getStats()] over the array [history]. *)
Definition stats_of (history : list HistoryEntry) : Stats :=
  let t := fold_left tally_item history
             {| t_byAgent := []; successCount := 0; totalTime := 0%Q |} in
  let n := List.length history in
  {| totalExecutions := n;
     byAgent := t_byAgent t;
     successRate :=
       if Nat.ltb 0 n then
         round (round (inject_Z (Z.of_nat (successCount t)) / inject_Z (Z.of_nat n))
                * 100)%Q
       else 0%Q;
     avgExecutionTime :=
       if Nat.ltb 0 n then round (totalTime t / inject_Z (Z.of_nat n))%Q
       else 0%Q |}.

(** [getStats()] when the clock is [now w]. *)
Definition getStats (w : World) : Stats := stats_of (getHistory w).

End Statistics.

Definition backtick : codeunit := 96%N.

(** A text that neither starts nor ends with white space. *)
Definition trimmed (s : jsstring) : bool :=
  match s with
  | [] => true
  | c :: _ => negb (is_space c) && negb (is_space (last s c))
  end.

Definition no_backtick (s : jsstring) : bool :=
  negb (existsb (N.eqb backtick) s).

(** The argument that [sendMessage] and [sendConversation] give to
    [messages.create]. *)
Definition create_params {host : Host} (systemPrompt : jsstring)
  (messages : list (jsstring * jsstring)) (options : Options) : CreateParams :=
  {| model := client_model;
     max_tokens := or_max_tokens options;
     cp_temperature := or_temperature options;
     system := systemPrompt;
     messages := messages |}.

(** The options that an agent gives to the client. *)
Definition agent_options (this : BaseAgent) : Options :=
  {| o_maxTokens := maxTokens this; o_temperature := temperature this |}.

(** The state after a request that takes [ms] milliseconds. *)
Definition after_request (w : World) (p : CreateParams) (ms : nat) : World :=
  {| now := now w + ms;
     workflowHistory := workflowHistory w;
     requests := requests w ++ [p] |}.

(** A conversation made of turns: a message of the user and then the answer
    of the assistant, any number of times. *)
Fixpoint turns (l : list (jsstring * jsstring)) : bool :=
  match l with
  | [] => true
  | (r1, _) :: l1 =>
      match l1 with
      | (r2, _) :: l2 =>
          str_eqb r1 (lit "user") && str_eqb r2 (lit "assistant") && turns l2
      | [] => false
      end
  end.

(** Every agent is answered with a denial, or with an approval. *)
Definition denying_host : Host :=
  table_host sourcing_table (fun _ => says denial_text 600).

Definition approving_host : Host :=
  table_host sourcing_table (fun _ => says approval_text 600).

(** A company with an identifier and a contact. *)
Definition some_company : JValue :=
  JObj [(lit "company_id", JStr (lit "c-17"));
        (lit "contact", JObj [(lit "email", JStr (lit "owner@example.com"))]);
        (lit "vertical", JStr (lit "HVAC"))].

(** A JSON string literal without escapes. *)
Definition qstr (t : string) : jsstring := quote ++ lit t ++ quote.

(** [{"score": 87, "top_signals": ["24/7 service"], "risks": ["owner age"]}] *)
Definition scout_report : jsstring :=
  lit "{" ++ qstr "score" ++ lit ": 87, " ++ qstr "top_signals" ++ lit ": ["
  ++ qstr "24/7 service" ++ lit "], " ++ qstr "risks" ++ lit ": ["
  ++ qstr "owner age" ++ lit "]}".

(** [{"estimated_value_range": 4}] *)
Definition valuation_report : jsstring :=
  lit "{" ++ qstr "estimated_value_range" ++ lit ": 4}".

(** [{"approved": true, "violations": [{"details": "license renewal due"}]}] *)
Definition compliance_report : jsstring :=
  lit "{" ++ qstr "approved" ++ lit ": true, " ++ qstr "violations" ++ lit ": [{"
  ++ qstr "details" ++ lit ": " ++ qstr "license renewal due" ++ lit "}]}".

(** The four agents of the sourcing workflow answer with a report each. *)
Definition qualifying_host : Host :=
  table_host
    [ (scout_report,
       JObj [(lit "score", JNum (NFin 87%Q));
             (lit "top_signals", JArr [JStr (lit "24/7 service")]);
             (lit "risks", JArr [JStr (lit "owner age")])]);
      (valuation_report,
       JObj [(lit "estimated_value_range", JNum (NFin 4%Q))]);
      (compliance_report,
       JObj [(lit "approved", JBool true);
             (lit "violations",
              JArr [JObj [(lit "details", JStr (lit "license renewal due"))]])]);
      (lit "{}", JObj []) ]
    (fun n => match n with
              | 0 => says scout_report 1200
              | 1 => says (lit "{}") 900
              | 2 => says valuation_report 1500
              | _ => says compliance_report 400
              end).


(* ================================================================= *)
(** * Properties *)

(** Proves the first part of a conjunction and keeps it as a hypothesis. *)
Ltac keep tac :=
  match goal with
  | |- ?A /\ _ =>
      let H := fresh "H" in
      assert (H : A) by tac; split; [exact H|]
  end.

(** ** Strings and the outer brace pattern *)

Lemma str_eqb_eq (a b : jsstring) : str_eqb a b = true <-> a = b.
Proof.
  revert b; induction a as [|x a IH]; intros [|y b]; simpl;
    try (split; [discriminate | discriminate]); try tauto.
  rewrite andb_true_iff, N.eqb_eq, IH.
  split; [intros [-> ->]; reflexivity | intros H; inversion H; auto].
Qed.

Lemma str_eqb_refl (a : jsstring) : str_eqb a a = true.
Proof. apply str_eqb_eq; reflexivity. Qed.

Lemma any_unit_true (c : codeunit) : any_unit c = true.
Proof. unfold any_unit; destruct (is_space c); reflexivity. Qed.

(** After the opening brace, the greedy star runs to the end of the text and
    gives code units back until a closing brace follows: the last one. *)
Lemma greedy_star_last_brace (s : jsstring) :
  match_here [StarGreedy any_unit; Chr rbrace] s =
  match last_index rbrace s with
  | Some j => Some ([], skipn (S j) s)
  | None => None
  end.
Proof.
  induction s as [|d s IH].
  - reflexivity.
  - change (match_here [StarGreedy any_unit; Chr rbrace] (d :: s))
      with (if any_unit d then
              match match_here [StarGreedy any_unit; Chr rbrace] s with
              | Some r => Some r
              | None => match_here [Chr rbrace] (d :: s)
              end
            else match_here [Chr rbrace] (d :: s)).
    rewrite any_unit_true, IH. cbn [last_index].
    destruct (last_index rbrace s) as [j|]; [reflexivity|].
    change (match_here [Chr rbrace] (d :: s))
      with (if N.eqb rbrace d then Some (@nil jsstring, s) else None).
    destruct (N.eqb rbrace d); reflexivity.
Qed.

Lemma upto_skipn (s : jsstring) (n : nat) :
  n <= List.length s -> upto s (skipn n s) = firstn n s.
Proof.
  intros H. unfold upto. rewrite length_skipn.
  f_equal. lia.
Qed.

Lemma last_index_lt (c : codeunit) (s : jsstring) (j : nat) :
  last_index c s = Some j -> j < List.length s.
Proof.
  revert j; induction s as [|d s IH]; simpl; intros j H; [discriminate|].
  destruct (last_index c s) as [k|].
  - inversion H; subst. specialize (IH k eq_refl). lia.
  - destruct (N.eqb c d); inversion H; subst; lia.
Qed.

(** [content.match(/\\{[\\s\\S]*\\}/)] is the outer brace span. *)
Lemma search_object_re (s : jsstring) (i : nat) :
  search object_re s i =
  match first_index lbrace s, last_index rbrace s with
  | Some a, Some b =>
      if Nat.ltb a b then
        Some {| m_index := i + a; m_0 := slice a b s; m_1 := None |}
      else None
  | _, _ => None
  end.
Proof.
  revert i; induction s as [|d s IH]; intros i.
  - reflexivity.
  - unfold object_re in *. cbn [search match_here first_index last_index].
    destruct (N.eqb lbrace d) eqn:Ed.
    + apply N.eqb_eq in Ed; subst d.
      rewrite greedy_star_last_brace.
      destruct (last_index rbrace s) as [j|] eqn:Ej.
      * change (Nat.ltb 0 (S j)) with true. cbv iota.
        pose proof (last_index_lt Ej) as Hj.
        replace (i + 0) with i by lia.
        f_equal. f_equal.
        unfold slice, upto. rewrite length_skipn. cbn [List.length].
        replace (S (List.length s) - (List.length s - S j)) with (S (S j)) by lia.
        reflexivity.
      * rewrite IH.
        change (N.eqb rbrace lbrace) with false. cbv iota.
        destruct (first_index lbrace s); reflexivity.
    + rewrite IH.
      destruct (first_index lbrace s) as [a|] eqn:Ea;
        destruct (last_index rbrace s) as [b|] eqn:Eb;
        cbn [option_map]; try reflexivity.
      * change (Nat.ltb (S a) (S b)) with (Nat.ltb a b).
        destruct (Nat.ltb a b); [|reflexivity].
        f_equal. f_equal. lia.
      * destruct (N.eqb rbrace d); reflexivity.
Qed.

Lemma str_match_object_re (s : jsstring) :
  option_map m_0 (str_match s object_re) = outer_brace_span s.
Proof.
  unfold str_match, outer_brace_span. rewrite search_object_re.
  destruct (first_index lbrace s) as [a|]; [|reflexivity].
  destruct (last_index rbrace s) as [b|]; [|reflexivity].
  destruct (Nat.ltb a b); reflexivity.
Qed.

(** The pattern takes the first opening brace and the last closing brace,
    not the first pair. *)
Example object_re_two_objects :
  option_map m_0 (str_match two_objects object_re) = Some (lit "{a} then {b}").
Proof. reflexivity. Qed.

Example object_re_wrong_order :
  str_match (lit "} and {") object_re = None.
Proof. reflexivity. Qed.

(** The fence pattern captures the interior of the block, without the white
    space around it. *)
Example fence_re_interior :
  option_map m_1 (str_match fenced_answer fence_re) = Some (Some (score_text "87")).
Proof. reflexivity. Qed.

Example fence_re_unclosed :
  str_match (lit "```json {} and no end") fence_re = None.
Proof. reflexivity. Qed.

Lemma first_index_first (c : codeunit) (s : jsstring) (a : nat) :
  first_index c s = Some a ->
  nth_error s a = Some c /\ forall k, k < a -> nth_error s k <> Some c.
Proof.
  revert a; induction s as [|d s IH]; intros a H; [discriminate|].
  cbn [first_index] in H. destruct (N.eqb c d) eqn:E.
  - inversion H; subst. apply N.eqb_eq in E; subst.
    split; [reflexivity | intros k Hk; lia].
  - destruct (first_index c s) as [a'|]; [|discriminate].
    inversion H; subst. destruct (IH a' eq_refl) as [H1 H2].
    split; [exact H1|].
    intros [|k] Hk; cbn [nth_error].
    + intros Heq; inversion Heq; subst. rewrite N.eqb_refl in E. discriminate.
    + apply H2. lia.
Qed.

Lemma last_index_last (c : codeunit) (s : jsstring) (b : nat) :
  last_index c s = Some b ->
  nth_error s b = Some c /\ forall k, b < k -> nth_error s k <> Some c.
Proof.
  revert b; induction s as [|d s IH]; intros b H; [discriminate|].
  cbn [last_index] in H. destruct (last_index c s) as [b'|] eqn:E.
  - inversion H; subst. destruct (IH b' eq_refl) as [H1 H2].
    split; [exact H1|].
    intros [|k] Hk; [lia|]. cbn [nth_error]. apply H2. lia.
  - destruct (N.eqb c d) eqn:Ed; [|discriminate].
    inversion H; subst. apply N.eqb_eq in Ed; subst.
    split; [reflexivity|].
    intros [|k] Hk; [lia|]. cbn [nth_error].
    intros Hn. clear H IH Hk. revert k Hn.
    induction s as [|x s IHs]; intros k Hn.
    + destruct k; discriminate.
    + cbn [last_index] in E. destruct (last_index d s) eqn:E'; [discriminate|].
      destruct (N.eqb d x) eqn:Ex; [discriminate|].
      destruct k as [|k]; cbn [nth_error] in Hn.
      * inversion Hn; subst. rewrite N.eqb_refl in Ex. discriminate.
      * apply (IHs eq_refl k Hn).
Qed.

Lemma first_index_exists (c : codeunit) (s : jsstring) (i : nat) :
  nth_error s i = Some c -> exists a, first_index c s = Some a /\ a <= i.
Proof.
  revert i; induction s as [|d s IH]; intros i H.
  - destruct i; discriminate.
  - cbn [first_index]. destruct (N.eqb c d) eqn:E.
    + exists 0. split; [reflexivity | lia].
    + destruct i as [|i]; cbn [nth_error] in H.
      * inversion H; subst. rewrite N.eqb_refl in E. discriminate.
      * destruct (IH i H) as [a [Ha Hle]]. exists (S a). rewrite Ha.
        split; [reflexivity | lia].
Qed.

Lemma last_index_exists (c : codeunit) (s : jsstring) (i : nat) :
  nth_error s i = Some c -> exists b, last_index c s = Some b /\ i <= b.
Proof.
  revert i; induction s as [|d s IH]; intros i H.
  - destruct i; discriminate.
  - cbn [last_index]. destruct i as [|i]; cbn [nth_error] in H.
    + inversion H; subst. destruct (last_index c s) as [b|].
      * exists (S b). split; [reflexivity | lia].
      * rewrite N.eqb_refl. exists 0. split; [reflexivity | lia].
    + destruct (IH i H) as [b [Hb Hle]]. rewrite Hb.
      exists (S b). split; [reflexivity | lia].
Qed.

(** ** The Response Extractor *)

Lemma not_yields_truthy_falsy (v : JValue) :
  ~ yields_truthy (Some v) -> truthy v = false.
Proof.
  intros H. destruct (truthy v) eqn:E; [|reflexivity].
  exfalso. apply H. exists v. split; [reflexivity | exact E].
Qed.

Lemma not_yields_truthy_None : ~ yields_truthy None.
Proof. intros (v & H & _). discriminate H. Qed.

(** A structured document is a truthy value. *)
Lemma structured_yields_truthy (r : option JValue) :
  structured r -> yields_truthy r.
Proof. intros (ps & ->). exists (JObj ps). split; reflexivity. Qed.

Section ExtractorProperties.

Context {host : Host}.

(** C5, as amended.  When neither the whole text, nor the interior of a
    fenced block, nor the outer brace span yields a truthy value (each parse
    fails, or gives [null], [false], [0] or the empty string), no step yields
    a structured document and [_parseResponse] returns the wrapper whose raw
    text is the response text itself, unchanged, and whose [parsed] is
    false; it returns a value, it does not throw. *)
Theorem parseResponse_fallback (content : jsstring) :
  ~ yields_truthy (whole_text_parse content) ->
  ~ yields_truthy (fenced_block_parse content) ->
  ~ yields_truthy (outer_brace_parse content) ->
  ~ structured (whole_text_parse content) /\
  ~ structured (fenced_block_parse content) /\
  ~ structured (outer_brace_parse content) /\
  _parseResponse content =
  JObj [(lit "rawResponse", JStr content); (lit "parsed", JBool false)].
Proof.
  intros H1 H2 H3.
  split; [intros H; exact (H1 (structured_yields_truthy H))|].
  split; [intros H; exact (H2 (structured_yields_truthy H))|].
  split; [intros H; exact (H3 (structured_yields_truthy H))|].
  revert H1 H2 H3.
  unfold whole_text_parse, fenced_block_parse, outer_brace_parse.
  intros H1 H2 H3.
  assert (Hfalsy : truthy (parseJSON content) = false).
  { unfold parseJSON, parseJSON_run, try_parse.
    destruct (JSON_parse content) as [v|].
    { cbn [snd]. apply not_yields_truthy_falsy, H1. }
    destruct (str_match content fence_re) as [m|].
    - destruct (JSON_parse _) as [v|]; cbn [snd];
        [apply not_yields_truthy_falsy, H2 | reflexivity].
    - rewrite <- str_match_object_re in H3.
      destruct (str_match content object_re) as [m|]; [|reflexivity].
      cbn [option_map] in H3.
      destruct (JSON_parse (m_0 m)) as [v|]; cbn [snd];
        [apply not_yields_truthy_falsy, H3 | reflexivity]. }
  unfold _parseResponse. rewrite Hfalsy. reflexivity.
Qed.

(** C6, as amended.  When the whole text does not parse, the text has no
    fenced block and an opening brace is followed later by a closing brace,
    [parseJSON] gives [JSON.parse] two texts: the whole text and then the text
    from the first opening brace through the last closing brace; what it
    returns is the value of that second parse, or [null]. *)
Theorem parseJSON_outer_brace_span (content : jsstring) (i j : nat) :
  whole_text_parse content = None ->
  str_match content fence_re = None ->
  i < j ->
  nth_error content i = Some lbrace ->
  nth_error content j = Some rbrace ->
  exists a b,
    nth_error content a = Some lbrace /\
    (forall k, k < a -> nth_error content k <> Some lbrace) /\
    nth_error content b = Some rbrace /\
    (forall k, b < k -> nth_error content k <> Some rbrace) /\
    a < b /\
    parse_attempts content = [content; slice a b content] /\
    parseJSON content =
      match JSON_parse (slice a b content) with
      | Some v => v
      | None => JNull
      end.
Proof.
  unfold whole_text_parse. intros H1 H2 Hij Hi Hj.
  destruct (first_index_exists Hi) as [a [Ha Hai]].
  destruct (last_index_exists Hj) as [b [Hb Hjb]].
  destruct (first_index_first Ha) as [Ha1 Ha2].
  destruct (last_index_last Hb) as [Hb1 Hb2].
  assert (Hab : a < b) by lia.
  exists a, b. repeat (split; [assumption|]).
  unfold parse_attempts, parseJSON, parseJSON_run, try_parse.
  rewrite H1, H2. unfold str_match. rewrite search_object_re, Ha, Hb.
  apply Nat.ltb_lt in Hab. rewrite Hab. cbn [m_0].
  destruct (JSON_parse (slice a b content)); split; reflexivity.
Qed.

End ExtractorProperties.

(** C5, at a refusal in plain prose. *)
Lemma parseResponse_fallback_witness :
  ~ structured (whole_text_parse (host := offline_host) refusal) /\
  ~ structured (fenced_block_parse (host := offline_host) refusal) /\
  ~ structured (outer_brace_parse (host := offline_host) refusal) /\
  _parseResponse (host := offline_host) refusal =
  JObj [(lit "rawResponse", JStr refusal); (lit "parsed", JBool false)].
Proof.
  apply (@parseResponse_fallback offline_host refusal);
    intros (v & H & _); discriminate H.
Defined.

(** C5, as stated, fails: the text [42] parses to a number; no step yields a
    structured document, and [_parseResponse] returns the number itself, not
    the wrapper. *)
Lemma parseResponse_bare_number :
  whole_text_parse (host := number_host) (lit "42") = Some (JNum (NFin 42%Q)) /\
  ~ structured (whole_text_parse (host := number_host) (lit "42")) /\
  ~ structured (fenced_block_parse (host := number_host) (lit "42")) /\
  ~ structured (outer_brace_parse (host := number_host) (lit "42")) /\
  _parseResponse (host := number_host) (lit "42") = JNum (NFin 42%Q) /\
  _parseResponse (host := number_host) (lit "42") <>
  JObj [(lit "rawResponse", JStr (lit "42")); (lit "parsed", JBool false)].
Proof.
  split; [reflexivity|].
  split; [intros (ps & H); discriminate H|].
  split; [intros (ps & H); discriminate H|].
  split; [intros (ps & H); discriminate H|].
  split; [reflexivity | discriminate].
Qed.

(** C6, as amended, at an object between two remarks. *)
Lemma parseJSON_outer_brace_span_witness :
  exists a b,
    nth_error object_in_prose a = Some lbrace /\
    (forall k, k < a -> nth_error object_in_prose k <> Some lbrace) /\
    nth_error object_in_prose b = Some rbrace /\
    (forall k, b < k -> nth_error object_in_prose k <> Some rbrace) /\
    a < b /\
    parse_attempts (host := empty_object_host) object_in_prose =
      [object_in_prose; slice a b object_in_prose] /\
    parseJSON (host := empty_object_host) object_in_prose =
      match @JSON_parse empty_object_host (slice a b object_in_prose) with
      | Some v => v
      | None => JNull
      end.
Proof.
  apply (@parseJSON_outer_brace_span empty_object_host object_in_prose 8 9);
    [reflexivity | reflexivity | lia | reflexivity | reflexivity].
Defined.

(** C6, as stated, fails: the whole text does not parse, the fenced block is
    found and its interior does not parse, and an opening brace is followed
    by a closing brace; [parseJSON] then returns [null] after two parses, of
    the whole text and of the interior, and never parses the outer brace
    span, which is a valid document. *)
Lemma fenced_block_failure_skips_brace_scan :
  whole_text_parse (host := empty_object_host) fenced_then_object = None /\
  fenced_block_parse (host := empty_object_host) fenced_then_object = None /\
  nth_error fenced_then_object 14 = Some lbrace /\
  nth_error fenced_then_object 15 = Some rbrace /\
  outer_brace_span fenced_then_object = Some (lit "{}") /\
  outer_brace_parse (host := empty_object_host) fenced_then_object
    = Some (JObj []) /\
  parse_attempts (host := empty_object_host) fenced_then_object
    = [fenced_then_object; lit "x"] /\
  ~ In (lit "{}") (parse_attempts (host := empty_object_host) fenced_then_object) /\
  parseJSON (host := empty_object_host) fenced_then_object = JNull.
Proof.
  repeat split; try reflexivity.
  vm_compute. intros [H | [H | []]]; discriminate.
Qed.

(** ** The Agent Runner *)

Section RunnerProperties.

Context {host : Host}.

(** [sendMessage] returns a value whatever the SDK does. *)
Lemma sendMessage_returns (sp um : jsstring) (o : Options) (w : World) :
  exists c p,
    sendMessage sp um o w =
    Ret c {| now := now w + snd (messages_create (List.length (requests w)) p);
             workflowHistory := workflowHistory w;
             requests := requests w ++ [p] |}.
Proof.
  unfold sendMessage, try_catch, bind, create_and_read.
  match goal with
  | |- context [messages_create _ ?q] => set (p := q)
  end.
  destruct (messages_create (List.length (requests w)) p) as [[resp|msg] ms] eqn:E;
    cbn [snd]; eexists; exists p; rewrite E; reflexivity.
Qed.

(** [execute] returns a result whatever its arguments and whatever the SDK
    does, and the result has exactly one of [output] and [error]. *)
Lemma execute_returns (a : BaseAgent) (input context : JValue) (w : World) :
  exists r w',
    execute a input context w = Ret r w' /\
    agent r = name a /\
    role r = agent_role a /\
    exactly_one r /\
    workflowHistory w' = workflowHistory w /\
    now w <= now w' /\
    (context <> JNull -> exists p, requests w' = requests w ++ [p]) /\
    (requests w' = requests w \/ exists p, requests w' = requests w ++ [p]).
Proof.
  unfold execute. unfold bind at 1. unfold Date_now at 1. unfold try_catch.
  unfold bind at 1.
  destruct (_buildUserMessage input (default_object context)) as [um|e] eqn:Eb.
  - cbn [lift ret]. unfold bind at 1.
    destruct (sendMessage_returns (systemPrompt a) um
                {| o_maxTokens := maxTokens a; o_temperature := temperature a |} w)
      as [c [p Hs]].
    rewrite Hs. clear Hs.
    destruct c as [content usage stop | message].
    + unfold bind, Date_now, ret. cbn [now].
      eexists; eexists; split; [reflexivity|].
      cbn. repeat split; try reflexivity; try lia.
      * left; split; [reflexivity | split; [eexists; reflexivity | reflexivity]].
      * intros _. eauto.
      * right. eauto.
    + unfold throw, bind, Date_now, ret. cbn [now].
      eexists; eexists; split; [reflexivity|].
      cbn. repeat split; try reflexivity; try lia.
      * right; split; [reflexivity | split; [reflexivity | eexists; reflexivity]].
      * intros _. eauto.
      * right. eauto.
  - cbn [lift throw]. unfold bind, Date_now, ret.
    eexists; eexists; split; [reflexivity|].
    cbn. repeat split; try reflexivity; try lia.
    + right; split; [reflexivity | split; [reflexivity | eexists; reflexivity]].
    + intros Hc. exfalso.
      unfold _buildUserMessage in Eb.
      destruct context; cbn in Eb; try discriminate. congruence.
    + left. reflexivity.
Qed.

End RunnerProperties.

(** ** The Orchestrator: one agent *)

Section AgentProperties.

Context {host : Host}.

Lemma lookup_agent_none (key : jsstring) (table : list (jsstring * BaseAgent)) :
  ~ In key (map fst table) -> lookup_agent key table = None.
Proof.
  induction table as [|[k a] table IH]; intros H; [reflexivity|].
  cbn [lookup_agent]. destruct (str_eqb key k) eqn:E.
  - apply str_eqb_eq in E. exfalso. apply H. left. symmetry. exact E.
  - apply IH. intros Hin. apply H. right. exact Hin.
Qed.

Lemma lookup_agent_some (key : jsstring) (table : list (jsstring * BaseAgent)) :
  In key (map fst table) -> exists a, lookup_agent key table = Some a.
Proof.
  induction table as [|[k a] table IH]; intros H; [destruct H|].
  cbn [lookup_agent]. destruct (str_eqb key k) eqn:E.
  - eexists; reflexivity.
  - destruct H as [H|H].
    + cbn in H. subst. rewrite str_eqb_refl in E. discriminate.
    + apply IH, H.
Qed.

Lemma lookup_agent_In (key : jsstring) (a : BaseAgent)
  (table : list (jsstring * BaseAgent)) :
  lookup_agent key table = Some a -> In (key, a) table.
Proof.
  induction table as [|[k b] table IH]; intros H; [discriminate|].
  cbn [lookup_agent] in H. destruct (str_eqb key k) eqn:E.
  - apply str_eqb_eq in E. inversion H; subst. left; reflexivity.
  - right. apply IH, H.
Qed.

(** Two keys of the table never share a role. *)
Lemma role_injective (k1 k2 : jsstring) (a1 a2 : BaseAgent) :
  lookup_agent k1 agents = Some a1 ->
  lookup_agent k2 agents = Some a2 ->
  agent_role a1 = agent_role a2 -> k1 = k2.
Proof.
  intros H1 H2 Hr.
  apply lookup_agent_In in H1. apply lookup_agent_In in H2.
  unfold agents, AGENT_CONFIGS, config in H1, H2.
  cbn [In] in H1, H2.
  repeat match goal with
         | H : _ \/ _ |- _ => destruct H as [H|H]
         | H : False |- _ => destruct H
         end;
    inversion H1; inversion H2; subst; cbn in Hr;
    first [reflexivity | discriminate Hr].
Qed.

(** A key of the table: the agent runs and [executeAgent] returns its
    result. *)
Lemma executeAgent_known (key : jsstring) (a : BaseAgent)
  (input context : JValue) (w : World) :
  lookup_agent key agents = Some a ->
  exists r w',
    executeAgent key input context w = Ret r w' /\
    agent_run key a context w r w'.
Proof.
  intros Hk. unfold executeAgent, agents_get. rewrite Hk.
  destruct (execute_returns a input (default_object context) w)
    as (r & w' & He & Ha & Hr & Hx & Hh & Hc & Hq1 & Hq2).
  unfold bind at 1. rewrite He.
  unfold bind, Date_now, push_history, ret.
  eexists; eexists; split; [reflexivity|].
  constructor; cbn; try assumption.
  - rewrite Hh. reflexivity.
  - intros Hn. apply Hq1. destruct context; cbn; congruence.
Qed.

(** C1, as amended.  For a key that is not in the agent table,
    [executeAgent] throws: it returns no result, and it throws at once, in
    the state in which it was called, so that no request has left and no
    history entry has been pushed.  The exception is the Error that names the
    key, unless the key is a name that the table inherits from
    [Object.prototype]: for such a name it is the TypeError of the call of
    [agent.execute]. *)
Theorem executeAgent_unknown_key_throws (key : jsstring)
  (input context : JValue) (w : World) :
  ~ known key ->
  exists e,
    executeAgent key input context w = Throw e w /\
    (forall r w', executeAgent key input context w <> Ret r w') /\
    (existsb (str_eqb key) Object_prototype_names = false ->
     e = Error (lit "Agent '" ++ key ++ lit "' not found")) /\
    (existsb (str_eqb key) Object_prototype_names = true ->
     e = TypeError (lit "agent.execute is not a function")).
Proof.
  unfold known. intros H. unfold executeAgent, agents_get.
  rewrite (lookup_agent_none H).
  destruct (existsb (str_eqb key) Object_prototype_names);
    eexists; (split; [reflexivity|]); (split; [discriminate|]);
    split; solve [discriminate | reflexivity].
Qed.

(** C9.  For a key of the agent table, whatever the input, the context and
    the outcome of the SDK call, [executeAgent] returns a result, and so does
    the [execute] of the agent; each result has exactly one of [output] and
    [error]: [output] when [success] is true, [error] when it is false. *)
Theorem execution_result_exactly_one (key : jsstring) (input context : JValue)
  (w : World) :
  known key ->
  exists a,
    lookup_agent key agents = Some a /\
    (exists r w', executeAgent key input context w = Ret r w' /\ exactly_one r) /\
    (exists r w', execute a input context w = Ret r w' /\ exactly_one r).
Proof.
  intros Hk. destruct (lookup_agent_some Hk) as [a Ha].
  exists a. split; [exact Ha|]. split.
  - destruct (executeAgent_known input context w Ha) as (r & w' & He & Hrun).
    exists r, w'. split; [exact He | exact (run_exactly_one Hrun)].
  - destruct (execute_returns a input context w)
      as (r & w' & He & _ & _ & Hx & _).
    exists r, w'. split; assumption.
Qed.

End AgentProperties.

(** ** The Orchestrator: pipelines *)

Section PipelineProperties.

Context {host : Host}.

(** The loop runs the agents of the sequence in order, one request each, and
    either comes to the end of the sequence, every step having succeeded, or
    returns at the first step that fails. *)
Lemma pipeline_loop_spec (seq : list jsstring) :
  forall (results : list ExecutionResult) (input : JValue)
         (context : list (jsstring * JValue)) (w : World),
    Forall known seq ->
    seq <> [] \/ results <> [] ->
    exists res w' ran,
      pipeline_loop seq results input context w = Ret res w' /\
      p_results res = results ++ ran /\
      List.length ran <= List.length seq /\
      Forall2 (fun k r => exists a, lookup_agent k agents = Some a /\
                                    agent r = name a)
        (firstn (List.length ran) seq) ran /\
      map h_agent (workflowHistory w') =
        map h_agent (workflowHistory w) ++ firstn (List.length ran) seq /\
      List.length (requests w') = List.length (requests w) + List.length ran /\
      ((p_success res = true /\ Forall (fun r => success r = true) ran /\
        List.length ran = List.length seq)
       \/
       (exists done r m,
          ran = done ++ [r] /\
          Forall (fun r => success r = true) done /\
          success r = false /\
          error r = Some m /\
          p_success res = false /\
          failedAt res = Some (agent r) /\
          p_error res = Some (JStr m))).
Proof.
  induction seq as [|key seq IH]; intros results input context w Hk Hne.
  - cbn [pipeline_loop].
    destruct Hne as [Hne|Hne]; [congruence|].
    destruct (rev results) as [|last l] eqn:Er.
    + exfalso. apply Hne. rewrite <- (rev_involutive results), Er. reflexivity.
    + eexists; eexists; exists []. split; [reflexivity|].
      cbn [p_results p_success failedAt p_error List.length firstn].
      rewrite !app_nil_r.
      repeat split; auto.
  - inversion Hk as [|? ? Hkey Hrest]; subst.
    destruct (lookup_agent_some Hkey) as [a Ha].
    destruct (executeAgent_known input (JObj context) w Ha)
      as (r & w1 & He & Hrun).
    cbn [pipeline_loop]. unfold bind at 1. rewrite He.
    assert (Hreq : List.length (requests w1) = S (List.length (requests w))).
    { destruct (run_request Hrun) as [p Hp]; [discriminate|].
      rewrite Hp, length_app. cbn. lia. }
    assert (Hhist : map h_agent (workflowHistory w1)
                    = map h_agent (workflowHistory w) ++ [key]).
    { rewrite (run_history Hrun), map_app. reflexivity. }
    destruct (success r) eqn:Es; cbn [negb].
    + destruct (IH (results ++ [r]) (get_output r)
                  (obj_set (role r) (get_output r) context) w1 Hrest)
        as (res & w' & ran & Hl & Hres & Hlen & Hf2 & Hh & Hq & Hend).
      { right. intros Habs. destruct results; discriminate. }
      exists res, w', (r :: ran). split; [exact Hl|].
      split; [rewrite Hres, <- app_assoc; reflexivity|].
      split; [cbn; lia|].
      split.
      { cbn [List.length firstn]. constructor; [|exact Hf2].
        exists a. split; [exact Ha | exact (run_agent Hrun)]. }
      split.
      { rewrite Hh, Hhist, <- app_assoc. reflexivity. }
      split; [rewrite Hq, Hreq; cbn; lia|].
      destruct Hend as [(Hs & Hall & Hn) | (done & r' & m & Hran & Hd & Hs & Hm & Hrest')].
      * left. repeat split; [exact Hs | constructor; assumption | cbn; lia].
      * right. exists (r :: done), r', m. subst ran.
        split; [reflexivity|].
        split; [constructor; assumption|].
        split; [exact Hs|]. split; [exact Hm | exact Hrest'].
    + destruct (run_exactly_one Hrun) as [(Ht & _) | (_ & _ & m & Hm)];
        [congruence|].
      unfold ret. eexists; eexists; exists [r]. split; [reflexivity|].
      cbn [p_results p_success failedAt p_error List.length firstn].
      repeat split; auto.
      * lia.
      * constructor; [|constructor]. exists a.
        split; [exact Ha | exact (run_agent Hrun)].
      * rewrite Hreq. lia.
      * right. exists [], r, m. repeat split; auto.
        unfold get_error. rewrite Hm. reflexivity.
Qed.

(** The results of the loop of [executePipeline] are the results of the
    calls of [executeAgent] on a prefix of the keys, made one after the other,
    and the loop ends in the state in which the last of these calls ended. *)
Lemma pipeline_loop_steps (seq : list jsstring) :
  forall (results : list ExecutionResult) (input : JValue)
         (context : list (jsstring * JValue)) (w w' : World)
         (res : PipelineResult),
    pipeline_loop seq results input context w = Ret res w' ->
    exists ran,
      p_results res = results ++ ran /\
      pipeline_steps (firstn (List.length ran) seq) input context w ran w'.
Proof.
  induction seq as [|key seq IH]; intros results input context w w' res H.
  - cbn [pipeline_loop] in H. destruct (rev results) as [|last l];
      [discriminate|].
    inversion H; subst. exists []. cbn [p_results]. rewrite app_nil_r.
    split; [reflexivity | constructor].
  - cbn [pipeline_loop] in H. unfold bind at 1 in H.
    destruct (executeAgent key input (JObj context) w) as [r w1|e w1] eqn:He;
      [|discriminate].
    destruct (success r) eqn:Es; cbn [negb] in H.
    + destruct (IH _ _ _ _ _ _ H) as (ran & Hres & Hsteps).
      exists (r :: ran). rewrite Hres, <- app_assoc.
      split; [reflexivity|]. cbn [List.length firstn].
      exact (steps_cons He Hsteps).
    + inversion H; subst. exists [r]. cbn [p_results List.length firstn].
      split; [reflexivity|]. exact (steps_cons He (steps_nil _ _ _)).
Qed.

(** C3.  For a sequence of keys of the agent table that is not empty,
    [executePipeline] returns, and its results are the results of the calls
    of [executeAgent] on a prefix of the sequence, made in its order, each on
    the output of the one before; it ends in the state in which the last of
    these calls ended, with one history entry and one request for each of
    them.  Either every key had its call and every call succeeded, and
    [success] is true; or the last call made is the first that failed:
    [success] is false, [failedAt] is the name of the agent of that step and
    [error] its error message.  So if the result of step [k] is a failure,
    then it is the last result (no agent after step [k] ran). *)
Theorem executePipeline_stops_at_first_failure (keys : list jsstring)
  (input : JValue) (w : World) :
  keys <> [] ->
  Forall known keys ->
  exists res w',
    executePipeline keys input w = Ret res w' /\
    pipeline_steps (firstn (List.length (p_results res)) keys) input [] w
      (p_results res) w' /\
    List.length (p_results res) <= List.length keys /\
    map h_agent (workflowHistory w') =
      map h_agent (workflowHistory w)
      ++ firstn (List.length (p_results res)) keys /\
    List.length (requests w') =
      List.length (requests w) + List.length (p_results res) /\
    ((p_success res = true /\
      Forall (fun r => success r = true) (p_results res) /\
      List.length (p_results res) = List.length keys)
     \/
     (exists done r m,
        p_results res = done ++ [r] /\
        Forall (fun r => success r = true) done /\
        success r = false /\
        error r = Some m /\
        p_success res = false /\
        failedAt res = Some (agent r) /\
        p_error res = Some (JStr m))) /\
    forall k r,
      nth_error (p_results res) k = Some r ->
      success r = false ->
      List.length (p_results res) = S k /\
      p_success res = false /\
      failedAt res = Some (agent r) /\
      (exists key a,
         nth_error keys k = Some key /\
         lookup_agent key agents = Some a /\
         agent r = name a) /\
      (exists m, error r = Some m /\ p_error res = Some (JStr m)).
Proof.
  intros Hne Hk. unfold executePipeline.
  destruct (@pipeline_loop_spec keys [] input [] w Hk (or_introl Hne))
    as (res & w' & ran & Hl & Hres & Hlen & Hf2 & Hh & Hq & Hend).
  cbn [app] in Hres.
  destruct (pipeline_loop_steps Hl) as (ran' & Hres' & Hsteps).
  cbn [app] in Hres'. rewrite <- Hres' in Hsteps.
  exists res, w'.
  split; [exact Hl|]. split; [exact Hsteps|]. rewrite Hres.
  split; [exact Hlen|]. split; [exact Hh|].
  split; [exact Hq|].
  split.
  { destruct Hend as [(Hps & Hall & Hn)
                     | (done & r0 & m & Hran & Hd & Hs & Hm & Hps & Hfa & Hpe)].
    - left. split; [exact Hps|]. split; assumption.
    - right. exists done, r0, m. repeat split; assumption. }
  intros k r Hnth Hfail.
  destruct Hend as [(_ & Hall & _) | (done & r0 & m & Hran & Hd & Hs & Hm & Hps & Hfa & Hpe)].
  - exfalso. apply nth_error_In in Hnth.
    rewrite Forall_forall in Hall. rewrite (Hall r Hnth) in Hfail. discriminate.
  - clear Hres. subst ran.
    assert (Hkd : k = List.length done /\ r = r0).
    { destruct (Nat.lt_ge_cases k (List.length done)) as [Hlt|Hge].
      - exfalso. rewrite nth_error_app1 in Hnth by exact Hlt.
        apply nth_error_In in Hnth. rewrite Forall_forall in Hd.
        rewrite (Hd r Hnth) in Hfail. discriminate.
      - rewrite nth_error_app2 in Hnth by exact Hge.
        destruct (k - List.length done) as [|d] eqn:Ed.
        + cbn in Hnth. inversion Hnth. split; [lia | reflexivity].
        + cbn in Hnth. destruct d; discriminate. }
    destruct Hkd as [-> ->].
    split; [rewrite length_app; cbn; lia|].
    split; [exact Hps|]. split; [exact Hfa|].
    split; [|exists m; split; assumption].
    apply Forall2_app_inv_r in Hf2.
    destruct Hf2 as (l1 & l2 & Hf1 & Hf2 & Hfirst).
    inversion Hf2 as [|key r' l2' nil' (a & Ha & Hag) Hnil]; subst.
    inversion Hnil; subst.
    exists key, a. split; [|split; assumption].
    pose proof (Forall2_length Hf1) as Hl1.
    assert (Hn : nth_error (firstn (List.length (done ++ [r0])) keys)
                   (List.length done) = Some key).
    { rewrite Hfirst, nth_error_app2 by lia.
      rewrite Hl1, Nat.sub_diag. reflexivity. }
    rewrite nth_error_firstn in Hn.
    destruct (Nat.ltb (List.length done) (List.length (done ++ [r0])));
      [exact Hn | discriminate].
Qed.

End PipelineProperties.

(** ** The Orchestrator: parallel groups *)

Section ParallelProperties.

Context {host : Host}.

Lemma assoc_obj_set_same (k : jsstring) (v : JValue)
  (ps : list (jsstring * JValue)) :
  assoc k (obj_set k v ps) = Some v.
Proof.
  induction ps as [|[k0 v0] ps IH]; cbn [obj_set assoc].
  - rewrite str_eqb_refl. reflexivity.
  - destruct (str_eqb k k0) eqn:E; cbn [assoc].
    + rewrite str_eqb_refl. reflexivity.
    + rewrite E. exact IH.
Qed.

Lemma assoc_obj_set_other (k k' : jsstring) (v : JValue)
  (ps : list (jsstring * JValue)) :
  k <> k' -> assoc k (obj_set k' v ps) = assoc k ps.
Proof.
  intros Hne.
  assert (Hf : str_eqb k k' = false).
  { destruct (str_eqb k k') eqn:E; [|reflexivity].
    apply str_eqb_eq in E. contradiction. }
  induction ps as [|[k0 v0] ps IH]; cbn [obj_set assoc].
  - rewrite Hf. reflexivity.
  - destruct (str_eqb k' k0) eqn:E; cbn [assoc].
    + apply str_eqb_eq in E. subst k0. rewrite Hf. reflexivity.
    + destruct (str_eqb k k0); [reflexivity | exact IH].
Qed.

Lemma outputs_other (results : list ExecutionResult) :
  forall (acc : list (jsstring * JValue)) (k : jsstring),
    ~ In k (map role results) ->
    assoc k (fold_left (fun acc r => obj_set (role r) (get_output r) acc)
               results acc) = assoc k acc.
Proof.
  induction results as [|x results IH]; intros acc k Hk; [reflexivity|].
  cbn [fold_left]. rewrite IH.
  - apply assoc_obj_set_other. intros ->. apply Hk. left. reflexivity.
  - intros Hin. apply Hk. right. exact Hin.
Qed.

Lemma outputs_In (results : list ExecutionResult) :
  forall (acc : list (jsstring * JValue)) (r : ExecutionResult),
    NoDup (map role results) ->
    In r results ->
    assoc (role r)
      (fold_left (fun acc r => obj_set (role r) (get_output r) acc) results acc)
    = Some (get_output r).
Proof.
  induction results as [|x results IH]; intros acc r Hnd Hin; [destruct Hin|].
  cbn [map] in Hnd. inversion Hnd as [|? ? Hx Hnd']; subst.
  cbn [fold_left]. destruct Hin as [->|Hin].
  - rewrite outputs_other by exact Hx. apply assoc_obj_set_same.
  - apply IH; assumption.
Qed.

(** The calls of a parallel group over keys of the table: every one of them
    is started and every one returns. *)
Lemma start_all_agents (input context : JValue) (t0 : nat)
  (keys : list jsstring) :
  forall w,
    Forall known keys ->
    exists l w',
      start_all t0 (map (fun k => executeAgent k input context) keys) w
        = (l, w') /\
      first_rejection l = None /\
      Forall2 (fun k r => exists a, lookup_agent k agents = Some a /\
                                    agent r = name a /\
                                    role r = agent_role a /\
                                    exactly_one r)
        keys (values l) /\
      map h_agent (workflowHistory w') = map h_agent (workflowHistory w) ++ keys /\
      (context <> JNull ->
       List.length (requests w') = List.length (requests w) + List.length keys).
Proof.
  induction keys as [|key keys IH]; intros w Hk.
  - exists [], w. cbn [map start_all first_rejection values List.length].
    rewrite app_nil_r.
    repeat split; auto.
  - inversion Hk as [|? ? Hkey Hrest]; subst.
    destruct (lookup_agent_some Hkey) as [a Ha].
    destruct (executeAgent_known input context (set_now t0 w) Ha)
      as (r & w1 & He & Hrun).
    destruct (IH w1 Hrest) as (l & w' & Hs & Hrej & Hf2 & Hh & Hq).
    cbn [map start_all]. rewrite He. cbn [world_of settled]. rewrite Hs.
    exists ((now w1, Normal r) :: l), w'. split; [reflexivity|].
    split; [exact Hrej|].
    split.
    { cbn [values]. constructor; [|exact Hf2].
      exists a. split; [exact Ha|].
      split; [exact (run_agent Hrun)|].
      split; [exact (run_role Hrun) | exact (run_exactly_one Hrun)]. }
    split.
    { rewrite Hh, (run_history Hrun), map_app, <- app_assoc. reflexivity. }
    intros Hn. rewrite (Hq Hn).
    destruct (run_request Hrun Hn) as [p Hp].
    rewrite Hp, length_app. cbn. lia.
Qed.

Lemma Forall2_In_r {A B} (P : A -> B -> Prop) (l : list A) (l' : list B) (b : B) :
  Forall2 P l l' -> In b l' -> exists a, In a l /\ P a b.
Proof.
  induction 1 as [|x y l l' Hxy Hf IH]; intros Hin; [destruct Hin|].
  destruct Hin as [->|Hin].
  - exists x. split; [left; reflexivity | exact Hxy].
  - destruct (IH Hin) as [a [Ha Hp]]. exists a. split; [right|]; assumption.
Qed.

(** Distinct keys give results with distinct roles. *)
Lemma distinct_roles (keys : list jsstring) (results : list ExecutionResult) :
  Forall2 (fun k r => exists a, lookup_agent k agents = Some a /\
                                agent r = name a /\
                                role r = agent_role a /\
                                exactly_one r) keys results ->
  NoDup keys -> NoDup (map role results).
Proof.
  induction 1 as [|k r keys results (a & Ha & _ & Hr & _) Hf IH]; intros Hnd.
  - constructor.
  - inversion Hnd as [|? ? Hk Hnd']; subst. cbn [map]. constructor.
    + intros Hin. apply in_map_iff in Hin. destruct Hin as (r' & Hrr & Hin).
      destruct (Forall2_In_r Hf Hin) as (k' & Hk' & a' & Ha' & _ & Hr' & _).
      apply Hk. rewrite (@role_injective host k k' a a' Ha Ha'); [exact Hk'|].
      congruence.
    + apply IH, Hnd'.
Qed.


End ParallelProperties.

(** ** The sourcing workflow *)

Section SourcingProperties.

Context {host : Host}.

Lemma scout_known : exists a, lookup_agent (lit "scout") agents = Some a.
Proof. eexists; reflexivity. Qed.

Lemma profiler_known : exists a, lookup_agent (lit "profiler") agents = Some a.
Proof. eexists; reflexivity. Qed.

Lemma valuation_known : exists a, lookup_agent (lit "valuation") agents = Some a.
Proof. eexists; reflexivity. Qed.

Lemma compliance_known : exists a, lookup_agent (lit "compliance") agents = Some a.
Proof. eexists; reflexivity. Qed.

(** What one call of [executeAgent] on a key of the table adds to the
    history and to the requests, when the context is not [null]. *)
Lemma executeAgent_trace (key : jsstring) (input context : JValue)
  (w w' : World) (r : ExecutionResult) :
  (exists a, lookup_agent key agents = Some a) ->
  context <> JNull ->
  executeAgent key input context w = Ret r w' ->
  map h_agent (workflowHistory w') = map h_agent (workflowHistory w) ++ [key] /\
  List.length (requests w') = S (List.length (requests w)) /\
  exactly_one r.
Proof.
  intros [a Ha] Hc He.
  destruct (executeAgent_known input context w Ha) as (r' & w1 & He' & Hrun).
  rewrite He in He'. inversion He'; subst r' w1.
  split; [rewrite (run_history Hrun), map_app; reflexivity|].
  split; [|exact (run_exactly_one Hrun)].
  destruct (run_request Hrun Hc) as [p Hp].
  rewrite Hp, length_app. cbn. lia.
Qed.

(** C7.  When the scout step fails, or succeeds with an output whose score is
    a number below 50, the sourcing workflow returns [{success: true,
    qualified: false, reason: 'Did not meet minimum score threshold',
    scoutResult}] in the state in which the scout step ended: the scout is
    the only agent that ran, with the only request, and the profiler, the
    valuation and the compliance agents were not called. *)
Theorem sourcing_threshold_exit (thesis companyData : JValue) (w w1 : World)
  (r : ExecutionResult) :
  executeAgent (lit "scout")
    (JObj (obj_lit [(lit "thesis", thesis); (lit "companyData", companyData)]))
    JUndefined w = Ret r w1 ->
  (success r = false \/
   exists o n, output r = Some o /\
               prop o "score" = Normal (JNum n) /\
               num_lt n (NFin 50%Q) = true) ->
  executeSourcingWorkflow thesis companyData w =
    Ret {| s_success := true;
           qualified := false;
           reason := Some (lit "Did not meet minimum score threshold");
           scoutResult := Some r;
           s_results := None;
           summary := None |} w1 /\
  map h_agent (workflowHistory w1) =
    map h_agent (workflowHistory w) ++ [lit "scout"] /\
  List.length (requests w1) = S (List.length (requests w)).
Proof.
  intros He Hlow.
  assert (Hc : JUndefined <> JNull) by discriminate.
  destruct (executeAgent_trace scout_known Hc He) as (Hh & Hq & _).
  split; [|split; assumption].
  unfold executeSourcingWorkflow. unfold bind at 1. rewrite He.
  unfold bind at 1.
  destruct Hlow as [Hf | (o & n & Ho & Hs & Hlt)].
  - rewrite Hf. reflexivity.
  - destruct (success r); [|reflexivity].
    cbn [negb]. unfold get_output. rewrite Ho. rewrite Hs.
    cbn [cbind]. unfold js_lt. cbn [to_number cbind]. rewrite Hlt.
    reflexivity.
Qed.

(** Two agents of the table started together: both are called, and both
    return. *)
Lemma Promise_all_two (k1 k2 : jsstring) (i1 c1 i2 c2 : JValue) (w : World) :
  (exists a, lookup_agent k1 agents = Some a) ->
  (exists a, lookup_agent k2 agents = Some a) ->
  c1 <> JNull -> c2 <> JNull ->
  exists r1 r2 w',
    Promise_all [executeAgent k1 i1 c1; executeAgent k2 i2 c2] w
      = Ret [r1; r2] w' /\
    map h_agent (workflowHistory w') =
      map h_agent (workflowHistory w) ++ [k1; k2] /\
    List.length (requests w') = List.length (requests w) + 2.
Proof.
  intros [a1 Ha1] [a2 Ha2] Hc1 Hc2.
  destruct (executeAgent_known i1 c1 (set_now (now w) w) Ha1)
    as (r1 & wa & He1 & Hrun1).
  destruct (executeAgent_known i2 c2 (set_now (now w) wa) Ha2)
    as (r2 & wb & He2 & Hrun2).
  unfold Promise_all. cbn [start_all]. rewrite He1. cbn [world_of].
  rewrite He2. cbn [world_of settled first_rejection values].
  eexists; eexists; eexists. split; [reflexivity|].
  cbn [set_now workflowHistory requests].
  destruct (run_request Hrun1 Hc1) as [p1 Hp1].
  destruct (run_request Hrun2 Hc2) as [p2 Hp2].
  pose proof (run_history Hrun1) as Hh1. pose proof (run_history Hrun2) as Hh2.
  cbn [set_now workflowHistory requests] in Hp1, Hp2, Hh1, Hh2.
  rewrite Hh2, Hh1, Hp2, Hp1.
  rewrite !map_app, !length_app, <- app_assoc.
  cbn [map h_agent app List.length]. split; [reflexivity | lia].
Qed.

Lemma not_below_50 (q : Q) : (50 <= q)%Q -> num_lt (NFin q) (NFin 50%Q) = false.
Proof.
  unfold Qle. intros H. cbn [num_lt]. unfold Qltb.
  apply Z.ltb_ge. exact H.
Qed.

(** C8.  When the scout succeeds with a score of at least 50 and the
    compliance agent, started together with the valuation agent, returns an
    output whose [approved] is false, the workflow returns [{success: true,
    qualified: false, reason: 'Failed compliance checks', results}] where
    [results.compliance] is the result of the compliance agent, with its
    output and so its violations; and the valuation agent has been called:
    it has its history entry and its request, like the three other
    agents. *)
Theorem sourcing_compliance_denial (thesis companyData : JValue)
  (w w1 w2 w3 : World) (r1 r2 r3 r4 : ExecutionResult) (o1 o4 : JValue) (q : Q) :
  executeAgent (lit "scout")
    (JObj (obj_lit [(lit "thesis", thesis); (lit "companyData", companyData)]))
    JUndefined w = Ret r1 w1 ->
  success r1 = true ->
  output r1 = Some o1 ->
  prop o1 "score" = Normal (JNum (NFin q)) ->
  (50 <= q)%Q ->
  executeAgent (lit "profiler") companyData
    (JObj (obj_lit [(lit "scoutAnalysis", o1)])) w1 = Ret r2 w2 ->
  Promise_all
    [ executeAgent (lit "valuation") companyData
        (JObj (obj_lit [(lit "scoutAnalysis", o1);
                        (lit "profile", get_output r2)]));
      executeAgent (lit "compliance") companyData
        (JObj (obj_lit [(lit "checkType", JStr (lit "licensure"))])) ] w2
    = Ret [r3; r4] w3 ->
  output r4 = Some o4 ->
  prop o4 "approved" = Normal (JBool false) ->
  executeSourcingWorkflow thesis companyData w =
    Ret {| s_success := true;
           qualified := false;
           reason := Some (lit "Failed compliance checks");
           scoutResult := None;
           s_results := Some {| scout := r1;
                                profiler := r2;
                                valuation := None;
                                compliance := r4 |};
           summary := None |} w3 /\
  map h_agent (workflowHistory w3) =
    map h_agent (workflowHistory w)
    ++ [lit "scout"; lit "profiler"; lit "valuation"; lit "compliance"] /\
  List.length (requests w3) = List.length (requests w) + 4.
Proof.
  intros He1 Hs1 Ho1 Hscore Hq He2 Hpar Ho4 Happ.
  assert (Hg1 : get_output r1 = o1) by (unfold get_output; rewrite Ho1; reflexivity).
  split.
  - unfold executeSourcingWorkflow. unfold bind at 1. rewrite He1.
    unfold bind at 1. rewrite Hs1. cbn [negb]. rewrite Hg1, Hscore.
    cbn [cbind]. unfold js_lt. cbn [to_number cbind].
    rewrite (not_below_50 Hq). cbn [lift ret].
    unfold bind at 1. rewrite He2.
    unfold bind at 1. rewrite Hpar. cbn [nth_error].
    unfold bind at 1. unfold get_output at 1. rewrite Ho4, Happ.
    reflexivity.
  - assert (Hc : JUndefined <> JNull) by discriminate.
    destruct (executeAgent_trace scout_known Hc He1) as (Hh1 & Hq1 & _).
    assert (Hc2 : JObj (obj_lit [(lit "scoutAnalysis", o1)]) <> JNull)
      by discriminate.
    destruct (executeAgent_trace profiler_known Hc2 He2) as (Hh2 & Hq2 & _).
    destruct (@Promise_all_two (lit "valuation") (lit "compliance")
                companyData
                (JObj (obj_lit [(lit "scoutAnalysis", o1);
                                (lit "profile", get_output r2)]))
                companyData
                (JObj (obj_lit [(lit "checkType", JStr (lit "licensure"))]))
                w2 valuation_known compliance_known
                ltac:(discriminate) ltac:(discriminate))
      as (r3' & r4' & w3' & Hpar' & Hh3 & Hq3).
    rewrite Hpar in Hpar'. inversion Hpar'; subst r3' r4' w3'.
    rewrite Hh3, Hh2, Hh1, Hq3, Hq2, Hq1, <- !app_assoc.
    split; [reflexivity | lia].
Qed.

Lemma bind_lift {A B} (c : Completion A) (k : A -> M B) (w : World) :
  bind (lift c) k w =
  match c with
  | Normal a => k a w
  | Abrupt e => Throw e w
  end.
Proof. destruct c; reflexivity. Qed.

(** Past the threshold test, the workflow calls the three other agents and
    ends, by a result or by an exception, in the state in which the parallel
    group ended; a result it returns then is not the one of the threshold
    exit. *)
Lemma sourcing_past_threshold (thesis companyData : JValue) (w w1 : World)
  (r1 : ExecutionResult) :
  executeAgent (lit "scout")
    (JObj (obj_lit [(lit "thesis", thesis); (lit "companyData", companyData)]))
    JUndefined w = Ret r1 w1 ->
  success r1 = true ->
  cbind (prop (get_output r1) "score") (fun v => js_lt v (NFin 50%Q))
    = Normal false ->
  exists w3,
    map h_agent (workflowHistory w3) =
      map h_agent (workflowHistory w)
      ++ [lit "scout"; lit "profiler"; lit "valuation"; lit "compliance"] /\
    List.length (requests w3) = List.length (requests w) + 4 /\
    ((exists e, executeSourcingWorkflow thesis companyData w = Throw e w3) \/
     (exists res, executeSourcingWorkflow thesis companyData w = Ret res w3 /\
                  (reason res = Some (lit "Failed compliance checks") \/
                   reason res = None))).
Proof.
  intros He1 Hs1 Hcmp.
  assert (Hc : JUndefined <> JNull) by discriminate.
  destruct (executeAgent_trace scout_known Hc He1) as (Hh1 & Hq1 & _).
  destruct profiler_known as [ap Hap].
  destruct (executeAgent_known companyData
              (JObj (obj_lit [(lit "scoutAnalysis", get_output r1)])) w1 Hap)
    as (r2 & w2 & He2 & Hrun2).
  assert (Hc2 : JObj (obj_lit [(lit "scoutAnalysis", get_output r1)]) <> JNull)
    by discriminate.
  destruct (executeAgent_trace (ex_intro _ ap Hap) Hc2 He2) as (Hh2 & Hq2 & _).
  destruct (@Promise_all_two (lit "valuation") (lit "compliance")
              companyData
              (JObj (obj_lit [(lit "scoutAnalysis", get_output r1);
                              (lit "profile", get_output r2)]))
              companyData
              (JObj (obj_lit [(lit "checkType", JStr (lit "licensure"))]))
              w2 valuation_known compliance_known
              ltac:(discriminate) ltac:(discriminate))
    as (r3 & r4 & w3 & Hpar & Hh3 & Hq3).
  exists w3.
  split; [rewrite Hh3, Hh2, Hh1, <- !app_assoc; reflexivity|].
  split; [rewrite Hq3, Hq2, Hq1; lia|].
  remember (executeSourcingWorkflow thesis companyData w) as out eqn:Hout.
  unfold executeSourcingWorkflow in Hout. unfold bind at 1 in Hout.
  rewrite He1 in Hout.
  unfold bind at 1 in Hout. rewrite Hs1 in Hout. cbn [negb] in Hout.
  rewrite Hcmp in Hout. cbn [lift ret] in Hout.
  unfold bind at 1 in Hout. rewrite He2 in Hout.
  unfold bind at 1 in Hout. rewrite Hpar in Hout. cbn [nth_error] in Hout.
  rewrite bind_lift in Hout.
  destruct (prop (get_output r4) "approved") as [approved|e];
    [|left; eexists; exact Hout].
  destruct (truthy approved); cbn [negb] in Hout.
  - repeat (rewrite bind_lift in Hout;
            match type of Hout with
            | context [match ?c with Normal _ => _ | Abrupt _ => _ end] =>
                destruct c; [|left; eexists; exact Hout]
            end).
    right. eexists. split; [exact Hout|]. right. reflexivity.
  - right. eexists. split; [exact Hout|]. left. reflexivity.
Qed.

(** C10, as amended.  When the scout succeeds with an output whose [score]
    does not convert to a number (ToNumber gives NaN: a score that is
    missing, so [undefined], as in the wrapper of a raw text, or a string
    that is not numeric), the comparison with 50 is false and the threshold
    exit is not taken: whatever the workflow then returns, it is not the
    result of the threshold exit, and, whether it returns or throws, the
    profiler, the valuation and the compliance agents have been called after
    the scout, one request each. *)
Theorem sourcing_missing_score_proceeds (thesis companyData : JValue)
  (w w1 : World) (r1 : ExecutionResult) (o1 s : JValue) :
  executeAgent (lit "scout")
    (JObj (obj_lit [(lit "thesis", thesis); (lit "companyData", companyData)]))
    JUndefined w = Ret r1 w1 ->
  success r1 = true ->
  output r1 = Some o1 ->
  prop o1 "score" = Normal s ->
  to_number s = Normal NNaN ->
  js_lt s (NFin 50%Q) = Normal false /\
  (forall res w',
     executeSourcingWorkflow thesis companyData w = Ret res w' ->
     reason res <> Some (lit "Did not meet minimum score threshold")) /\
  map h_agent
    (workflowHistory (world_of (executeSourcingWorkflow thesis companyData w))) =
    map h_agent (workflowHistory w)
    ++ [lit "scout"; lit "profiler"; lit "valuation"; lit "compliance"] /\
  List.length
    (requests (world_of (executeSourcingWorkflow thesis companyData w))) =
    List.length (requests w) + 4.
Proof.
  intros He1 Hs1 Ho1 Hscore Hnan.
  assert (Hlt : js_lt s (NFin 50%Q) = Normal false)
    by (unfold js_lt; rewrite Hnan; reflexivity).
  split; [exact Hlt|].
  assert (Hcmp : cbind (prop (get_output r1) "score")
                   (fun v => js_lt v (NFin 50%Q)) = Normal false).
  { unfold get_output. rewrite Ho1, Hscore. exact Hlt. }
  destruct (sourcing_past_threshold He1 Hs1 Hcmp)
    as (w3 & Hh & Hq & [(e & Hout) | (res & Hout & Hreason)]);
    rewrite Hout; cbn [world_of].
  - split; [intros res w' Habs; discriminate|]. split; assumption.
  - split; [|split; assumption].
    intros res' w' Heq. inversion Heq; subst res' w'.
    destruct Hreason as [-> | ->]; intros Habs; discriminate.
Qed.

End SourcingProperties.

(** ** The workflows and exceptions *)

(** C2 fails on the code.  With the network down, the compliance call of the
    outreach workflow fails; [execute] turns the failure into a result
    without [output], and the workflow, which reads [output.approved] of it
    without looking at [success], throws a TypeError. *)
Theorem outreach_throws_when_compliance_call_fails
  (company : list (jsstring * JValue)) (context : JValue) (w : World) :
  exists w',
    executeOutreachWorkflow (host := offline_host) (JObj company) context w =
    Throw (TypeError
             (lit "Cannot read properties of undefined (reading 'approved')"))
      w' /\
    map h_agent (workflowHistory w') =
      map h_agent (workflowHistory w) ++ [lit "compliance"].
Proof.
  eexists. split.
  - lazy. reflexivity.
  - cbn [workflowHistory]. rewrite map_app. reflexivity.
Qed.

(** The sourcing workflow has the same defect. *)
Lemma sourcing_throws_when_compliance_call_fails :
  exists e w',
    executeSourcingWorkflow
      (host := table_host sourcing_table
                 (fun n => match n with
                           | 0 => says (score_text "87") 1200
                           | 3 => fails "Connection error." 30
                           | _ => says (lit "{}") 900
                           end))
      JNull (JObj []) w0 = Throw (TypeError e) w'.
Proof. eexists; eexists. vm_compute. reflexivity. Qed.

(** And a second one: with a scout that answers in prose, and so without
    [risks], and a compliance agent that approves, every call succeeds and
    building the summary throws. *)
Lemma sourcing_throws_on_summary :
  exists e w',
    executeSourcingWorkflow
      (host := table_host sourcing_table
                 (fun n => match n with
                           | 0 => says refusal 800
                           | 3 => says approval_text 400
                           | _ => says (lit "{}") 900
                           end))
      JNull (JObj []) w0 = Throw (TypeError e) w' /\
    map h_success (workflowHistory w') = [true; true; true; true].
Proof. eexists; eexists. vm_compute. split; reflexivity. Qed.

(** An empty pipeline throws as well. *)
Lemma empty_pipeline_throws :
  executePipeline (host := offline_host) [] JNull w0 =
  Throw (TypeError (lit "Cannot read properties of undefined (reading 'output')"))
    w0.
Proof. reflexivity. Qed.

(** ** Examples *)

(** C1, as stated, fails: for a key that no agent has, [executeAgent] returns
    no result at all, it throws. *)
Lemma executeAgent_unknown_key_no_result :
  ~ known (host := offline_host) (lit "ghost") /\
  executeAgent (host := offline_host) (lit "ghost") JNull JUndefined w0 =
    Throw (Error (lit "Agent 'ghost' not found")) w0 /\
  ~ exists r w',
      executeAgent (host := offline_host) (lit "ghost") JNull JUndefined w0 =
      Ret r w'.
Proof.
  split; [|split].
  - vm_compute. intros H.
    repeat (destruct H as [H|H]; [discriminate H|]). exact H.
  - reflexivity.
  - intros (r & w' & H). discriminate H.
Qed.

(** C1, as amended, at the key [ghost]. *)
Lemma executeAgent_unknown_key_throws_witness :
  exists e,
    executeAgent (host := offline_host) (lit "ghost") JNull JUndefined w0 =
    Throw e w0 /\
    (forall r w',
       executeAgent (host := offline_host) (lit "ghost") JNull JUndefined w0
       <> Ret r w') /\
    (existsb (str_eqb (lit "ghost")) Object_prototype_names = false ->
     e = Error (lit "Agent '" ++ lit "ghost" ++ lit "' not found")) /\
    (existsb (str_eqb (lit "ghost")) Object_prototype_names = true ->
     e = TypeError (lit "agent.execute is not a function")).
Proof.
  apply (@executeAgent_unknown_key_throws offline_host (lit "ghost")
           JNull JUndefined w0).
  vm_compute. intros H.
  repeat (destruct H as [H|H]; [discriminate H|]). exact H.
Defined.

(** A name inherited from [Object.prototype] is not a key of the table
    either, and the exception is another one. *)
Lemma executeAgent_inherited_name :
  executeAgent (host := offline_host) (lit "toString") JNull JUndefined w0 =
  Throw (TypeError (lit "agent.execute is not a function")) w0.
Proof. reflexivity. Qed.

(** C9, at the scout, with the network down. *)
Lemma execution_result_exactly_one_witness :
  exists a,
    lookup_agent (lit "scout") (agents (host := offline_host)) = Some a /\
    (exists r w',
       executeAgent (host := offline_host) (lit "scout") JNull JUndefined w0
         = Ret r w' /\ exactly_one r) /\
    (exists r w',
       execute (host := offline_host) a JNull JUndefined w0 = Ret r w' /\
       exactly_one r).
Proof.
  apply (@execution_result_exactly_one offline_host (lit "scout")
           JNull JUndefined w0).
  vm_compute. left. reflexivity.
Defined.

(** C3, at the pipeline scout, profiler, with a scout whose call fails. *)
Lemma executePipeline_stops_at_first_failure_witness :
  exists res w',
    executePipeline (host := first_call_fails_host)
      [lit "scout"; lit "profiler"] JNull w0 = Ret res w' /\
    pipeline_steps (host := first_call_fails_host)
      (firstn (List.length (p_results res)) [lit "scout"; lit "profiler"])
      JNull [] w0 (p_results res) w' /\
    List.length (p_results res) <= 2 /\
    map h_agent (workflowHistory w') =
      map h_agent (workflowHistory w0)
      ++ firstn (List.length (p_results res)) [lit "scout"; lit "profiler"] /\
    List.length (requests w') =
      List.length (requests w0) + List.length (p_results res) /\
    ((p_success res = true /\
      Forall (fun r => success r = true) (p_results res) /\
      List.length (p_results res) = 2)
     \/
     (exists done r m,
        p_results res = done ++ [r] /\
        Forall (fun r => success r = true) done /\
        success r = false /\
        error r = Some m /\
        p_success res = false /\
        failedAt res = Some (agent r) /\
        p_error res = Some (JStr m))) /\
    forall k r,
      nth_error (p_results res) k = Some r ->
      success r = false ->
      List.length (p_results res) = S k /\
      p_success res = false /\
      failedAt res = Some (agent r) /\
      (exists key a,
         nth_error [lit "scout"; lit "profiler"] k = Some key /\
         lookup_agent key (agents (host := first_call_fails_host)) = Some a /\
         agent r = name a) /\
      (exists m, error r = Some m /\ p_error res = Some (JStr m)).
Proof.
  apply (@executePipeline_stops_at_first_failure first_call_fails_host
           [lit "scout"; lit "profiler"] JNull w0).
  - discriminate.
  - apply Forall_cons; [vm_compute; auto 10|].
    apply Forall_cons; [vm_compute; auto 10|]. apply Forall_nil.
Defined.

(** The same run, computed: the scout fails, the pipeline reports it, and
    the profiler has no history entry and no request. *)
Lemma pipeline_scout_fails :
  exists res w',
    executePipeline (host := first_call_fails_host)
      [lit "scout"; lit "profiler"] JNull w0 = Ret res w' /\
    p_success res = false /\
    failedAt res = Some (lit "Scout Agent") /\
    p_error res = Some (JStr (lit "Connection error.")) /\
    map h_agent (workflowHistory w') = [lit "scout"] /\
    List.length (requests w') = 1.
Proof. eexists; eexists. vm_compute. repeat split; reflexivity. Qed.


(** The same run, computed: the scout fails, the compliance agent succeeds;
    [success] is false and [outputs] has the output of the compliance agent
    under its role. *)
Lemma parallel_one_fails :
  exists res w',
    executeParallel (host := first_call_fails_host)
      [lit "scout"; lit "compliance"] JNull JUndefined w0 = Ret res w' /\
    map success (par_results res) = [false; true] /\
    par_success res = false /\
    assoc (lit "regulatory_compliance") (outputs res) =
      Some (JObj [(lit "rawResponse", JStr refusal); (lit "parsed", JBool false)]) /\
    assoc (lit "target_discovery") (outputs res) = Some JUndefined /\
    map h_agent (getHistory w') = [lit "scout"; lit "compliance"].
Proof. eexists; eexists. vm_compute. repeat split; reflexivity. Qed.

(** C7, at a company that the scout scores 30. *)
Lemma sourcing_threshold_exit_witness :
  exists r w1,
    executeAgent (host := low_score_host) (lit "scout")
      (JObj (obj_lit [(lit "thesis", JObj []); (lit "companyData", JObj [])]))
      JUndefined w0 = Ret r w1 /\
    (success r = false \/
     exists o n, output r = Some o /\
                 prop o "score" = Normal (JNum n) /\
                 num_lt n (NFin 50%Q) = true) /\
    executeSourcingWorkflow (host := low_score_host) (JObj []) (JObj []) w0 =
      Ret {| s_success := true;
             qualified := false;
             reason := Some (lit "Did not meet minimum score threshold");
             scoutResult := Some r;
             s_results := None;
             summary := None |} w1 /\
    map h_agent (workflowHistory w1) =
      map h_agent (workflowHistory w0) ++ [lit "scout"] /\
    List.length (requests w1) = S (List.length (requests w0)).
Proof.
  do 2 eexists.
  keep ltac:(lazy; reflexivity).
  keep ltac:(right; do 2 eexists; split; [reflexivity | split; reflexivity]).
  eapply sourcing_threshold_exit; eassumption.
Defined.

(** C8, at a company that the scout scores 87 and that the compliance agent
    does not approve. *)
Lemma sourcing_compliance_denial_witness :
  exists w1 w2 w3 r1 r2 r3 r4 o1 o4 q,
    executeAgent (host := denial_host) (lit "scout")
      (JObj (obj_lit [(lit "thesis", JObj []); (lit "companyData", JObj [])]))
      JUndefined w0 = Ret r1 w1 /\
    success r1 = true /\
    output r1 = Some o1 /\
    prop o1 "score" = Normal (JNum (NFin q)) /\
    (50 <= q)%Q /\
    executeAgent (host := denial_host) (lit "profiler") (JObj [])
      (JObj (obj_lit [(lit "scoutAnalysis", o1)])) w1 = Ret r2 w2 /\
    Promise_all
      [ executeAgent (host := denial_host) (lit "valuation") (JObj [])
          (JObj (obj_lit [(lit "scoutAnalysis", o1);
                          (lit "profile", get_output r2)]));
        executeAgent (host := denial_host) (lit "compliance") (JObj [])
          (JObj (obj_lit [(lit "checkType", JStr (lit "licensure"))])) ] w2
      = Ret [r3; r4] w3 /\
    output r4 = Some o4 /\
    prop o4 "approved" = Normal (JBool false) /\
    executeSourcingWorkflow (host := denial_host) (JObj []) (JObj []) w0 =
      Ret {| s_success := true;
             qualified := false;
             reason := Some (lit "Failed compliance checks");
             scoutResult := None;
             s_results := Some {| scout := r1;
                                  profiler := r2;
                                  valuation := None;
                                  compliance := r4 |};
             summary := None |} w3 /\
    map h_agent (workflowHistory w3) =
      map h_agent (workflowHistory w0)
      ++ [lit "scout"; lit "profiler"; lit "valuation"; lit "compliance"] /\
    List.length (requests w3) = List.length (requests w0) + 4.
Proof.
  do 10 eexists.
  keep ltac:(lazy; reflexivity).
  keep ltac:(reflexivity).
  keep ltac:(reflexivity).
  keep ltac:(reflexivity).
  keep ltac:(vm_compute; discriminate).
  keep ltac:(lazy; reflexivity).
  keep ltac:(lazy; reflexivity).
  keep ltac:(reflexivity).
  keep ltac:(reflexivity).
  eapply sourcing_compliance_denial; eassumption.
Defined.

(** The same run, computed: the valuation agent has been called, and it ends
    after the compliance agent has denied. *)
Lemma sourcing_denial_run :
  exists res w',
    executeSourcingWorkflow (host := denial_host) (JObj []) (JObj []) w0
      = Ret res w' /\
    qualified res = false /\
    reason res = Some (lit "Failed compliance checks") /\
    map h_agent (workflowHistory w') =
      [lit "scout"; lit "profiler"; lit "valuation"; lit "compliance"] /\
    map h_agent (getHistory w') =
      [lit "scout"; lit "profiler"; lit "compliance"; lit "valuation"] /\
    List.length (requests w') = 4 /\
    now w' = 3600.
Proof. eexists; eexists. vm_compute. repeat split; reflexivity. Qed.

(** C10, at a scout that answers in prose: its output is the wrapper of the
    raw text, which has no [score]. *)
Lemma sourcing_missing_score_proceeds_witness :
  exists w1 r1 o1 s,
    executeAgent (host := prose_scout_host) (lit "scout")
      (JObj (obj_lit [(lit "thesis", JObj []); (lit "companyData", JObj [])]))
      JUndefined w0 = Ret r1 w1 /\
    success r1 = true /\
    output r1 = Some o1 /\
    o1 = JObj [(lit "rawResponse", JStr refusal); (lit "parsed", JBool false)] /\
    prop o1 "score" = Normal s /\
    s = JUndefined /\
    to_number (host := prose_scout_host) s = Normal NNaN /\
    js_lt (host := prose_scout_host) s (NFin 50%Q) = Normal false /\
    (forall res w',
       executeSourcingWorkflow (host := prose_scout_host) (JObj []) (JObj []) w0
         = Ret res w' ->
       reason res <> Some (lit "Did not meet minimum score threshold")) /\
    map h_agent
      (workflowHistory
         (world_of (executeSourcingWorkflow (host := prose_scout_host)
                      (JObj []) (JObj []) w0))) =
      map h_agent (workflowHistory w0)
      ++ [lit "scout"; lit "profiler"; lit "valuation"; lit "compliance"] /\
    List.length
      (requests
         (world_of (executeSourcingWorkflow (host := prose_scout_host)
                      (JObj []) (JObj []) w0))) =
      List.length (requests w0) + 4.
Proof.
  do 4 eexists.
  keep ltac:(lazy; reflexivity).
  keep ltac:(reflexivity).
  keep ltac:(reflexivity).
  keep ltac:(reflexivity).
  keep ltac:(reflexivity).
  keep ltac:(reflexivity).
  keep ltac:(reflexivity).
  eapply sourcing_missing_score_proceeds; eassumption.
Defined.

(** C10, as stated, fails: the scout succeeds with the output
    [{score: null}], which carries no numeric score; [null < 50] is
    [0 < 50], the threshold exit is taken, and no agent is called after the
    scout. *)
Lemma sourcing_null_score_takes_exit :
  exists r1 w1,
    executeAgent (host := null_score_host) (lit "scout")
      (JObj (obj_lit [(lit "thesis", JObj []); (lit "companyData", JObj [])]))
      JUndefined w0 = Ret r1 w1 /\
    success r1 = true /\
    output r1 = Some (JObj [(lit "score", JNull)]) /\
    prop (get_output r1) "score" = Normal JNull /\
    (forall n, JNull <> JNum n) /\
    js_lt (host := null_score_host) JNull (NFin 50%Q) = Normal true /\
    executeSourcingWorkflow (host := null_score_host) (JObj []) (JObj []) w0
      = Ret {| s_success := true;
               qualified := false;
               reason := Some (lit "Did not meet minimum score threshold");
               scoutResult := Some r1;
               s_results := None;
               summary := None |} w1 /\
    map h_agent (workflowHistory w1) = [lit "scout"] /\
    List.length (requests w1) = 1.
Proof.
  eexists; eexists.
  split; [lazy; reflexivity|].
  split; [reflexivity|]. split; [reflexivity|]. split; [reflexivity|].
  split; [discriminate|]. split; [reflexivity|].
  split; [vm_compute; reflexivity|]. split; reflexivity.
Qed.

(** C10, as amended, covers a score that is a string and not a numeric one:
    [ToNumber] of it is NaN and the workflow goes on. *)
Lemma sourcing_text_score_proceeds :
  exists r1 w1,
    executeAgent (host := text_score_host) (lit "scout")
      (JObj (obj_lit [(lit "thesis", JObj []); (lit "companyData", JObj [])]))
      JUndefined w0 = Ret r1 w1 /\
    output r1 = Some (JObj [(lit "score", JStr (lit "N/A"))]) /\
    map h_agent
      (workflowHistory
         (world_of (executeSourcingWorkflow (host := text_score_host)
                      (JObj []) (JObj []) w0))) =
      [lit "scout"; lit "profiler"; lit "valuation"; lit "compliance"].
Proof.
  eexists; eexists. split; [lazy; reflexivity|].
  split; [reflexivity | vm_compute; reflexivity].
Qed.

(** An answer with its JSON in a fenced block: the runner returns the JSON
    as the output. *)
Lemma execute_fenced_answer :
  exists r w',
    executeAgent (host := table_host sourcing_table (fun _ => says fenced_answer 1000))
      (lit "scout") (JStr (lit "Score this company.")) JUndefined w0 = Ret r w' /\
    success r = true /\
    output r = Some (JObj [(lit "score", JNum (NFin 87%Q))]) /\
    error r = None /\
    executionTime (metadata r) = 1000.
Proof. eexists; eexists. vm_compute. repeat split; reflexivity. Qed.

(** C5 covers the texts that parse to a falsy value: the extractor wraps
    them too. *)
Lemma parseResponse_zero :
  _parseResponse (host := table_host [(lit "0", JNum (NFin 0%Q))]
                            (fun _ => says (lit "0") 10)) (lit "0") =
  JObj [(lit "rawResponse", JStr (lit "0")); (lit "parsed", JBool false)].
Proof. reflexivity. Qed.

(** A parallel group with a key that no agent has: the group is rejected at
    once, while the request of the scout has left; the entry of the scout
    will be pushed when its call ends, and is not in the history yet. *)
Lemma parallel_unknown_key_rejects :
  exists w',
    executeParallel (host := first_call_fails_host)
      [lit "scout"; lit "ghost"] JNull JUndefined w0 =
    Throw (Error (lit "Agent 'ghost' not found")) w' /\
    now w' = 0 /\
    List.length (requests w') = 1 /\
    getHistory w' = [] /\
    map h_agent (getHistory (set_now 30 w')) = [lit "scout"].
Proof. eexists. vm_compute. repeat split; reflexivity. Qed.

(* ================================================================= *)
(** * Further properties *)

(** ** The fence pattern *)

Lemma upto_app (a b : jsstring) : upto (a ++ b) b = a.
Proof.
  unfold upto. rewrite length_app.
  replace (List.length a + List.length b - List.length b) with (List.length a) by lia.
  rewrite firstn_app, Nat.sub_diag, firstn_all. cbn. apply app_nil_r.
Qed.

(** White space and then something that is neither white space nor a
    backtick: the closing fence is not there. *)
Lemma no_closing_fence (t u : jsstring) :
  Forall (fun c => c <> backtick) t ->
  forallb is_space t = false ->
  match_here (StarGreedy is_space :: chars "```") (t ++ u) = None.
Proof.
  induction t as [|d t IH]; intros Hbt Hsp; [discriminate|].
  inversion Hbt as [|? ? Hd Hbt']; subst.
  assert (Hchars : match_here (chars "```") ((d :: t) ++ u) = None).
  { cbn [app chars lit list_ascii_of_string map match_here].
    change (N_of_ascii "`") with backtick.
    destruct (N.eqb backtick d) eqn:E; [|reflexivity].
    apply N.eqb_eq in E. congruence. }
  change (match_here (StarGreedy is_space :: chars "```") ((d :: t) ++ u))
    with (if is_space d then
            match match_here (StarGreedy is_space :: chars "```") (t ++ u) with
            | Some r => Some r
            | None => match_here (chars "```") ((d :: t) ++ u)
            end
          else match_here (chars "```") ((d :: t) ++ u)).
  destruct (is_space d) eqn:Ed; [|exact Hchars].
  cbn [forallb] in Hsp. rewrite Ed in Hsp. cbn [andb] in Hsp.
  rewrite (IH Hbt' Hsp). exact Hchars.
Qed.

(** White space and then the closing fence. *)
Lemma closing_fence (ws u : jsstring) :
  Forall (fun c => is_space c = true) ws ->
  match_here (StarGreedy is_space :: chars "```") (ws ++ lit "```" ++ u)
  = Some ([], u).
Proof.
  induction ws as [|d ws IH]; intros Hws.
  - reflexivity.
  - inversion Hws as [|? ? Hd Hws']; subst.
    change (match_here (StarGreedy is_space :: chars "```")
              ((d :: ws) ++ lit "```" ++ u))
      with (if is_space d then
              match match_here (StarGreedy is_space :: chars "```")
                      (ws ++ lit "```" ++ u) with
              | Some r => Some r
              | None => match_here (chars "```") ((d :: ws) ++ lit "```" ++ u)
              end
            else match_here (chars "```") ((d :: ws) ++ lit "```" ++ u)).
    rewrite Hd, (IH Hws'). reflexivity.
Qed.

Lemma last_unspaced (t : jsstring) (d : codeunit) :
  t <> [] -> is_space (last t d) = false -> forallb is_space t = false.
Proof.
  induction t as [|c t IH]; intros Hne Hl; [congruence|].
  cbn [forallb]. destruct t as [|c' t].
  - cbn in Hl. rewrite Hl. reflexivity.
  - rewrite IH; [apply andb_false_r | discriminate | exact Hl].
Qed.

Lemma lazy_unfold (cls : codeunit -> bool) (p : regex) (s : jsstring) :
  match_here (StarLazy cls :: p) s =
  match match_here p s with
  | Some r => Some r
  | None =>
      match s with
      | d :: s' => if cls d then match_here (StarLazy cls :: p) s' else None
      | [] => None
      end
  end.
Proof. destruct s; reflexivity. Qed.

Lemma greedy_unfold (cls : codeunit -> bool) (p : regex) (s : jsstring) :
  match_here (StarGreedy cls :: p) s =
  match s with
  | d :: s' =>
      if cls d then
        match match_here (StarGreedy cls :: p) s' with
        | Some r => Some r
        | None => match_here p s
        end
      else match_here p s
  | [] => match_here p []
  end.
Proof. destruct s; reflexivity. Qed.

Lemma group_unfold (p : regex) (s : jsstring) :
  match_here (GroupClose :: p) s =
  match match_here p s with
  | Some (marks, rest) => Some (s :: marks, rest)
  | None => None
  end.
Proof. reflexivity. Qed.

(** The lazy star of the capture group gives code units up one at a time
    and stops where white space and the closing fence follow: at the end of a
    text without backticks that does not end in white space. *)
Lemma lazy_capture (t ws u : jsstring) :
  Forall (fun c => c <> backtick) t ->
  (t <> [] -> is_space (last t 0%N) = false) ->
  Forall (fun c => is_space c = true) ws ->
  match_here (StarLazy any_unit :: GroupClose :: StarGreedy is_space
                :: chars "```") (t ++ ws ++ lit "```" ++ u)
  = Some ([ws ++ lit "```" ++ u], u).
Proof.
  intros Hbt Hl Hws. induction t as [|c t IH].
  - cbn [app]. rewrite lazy_unfold, group_unfold, (closing_fence u Hws).
    reflexivity.
  - inversion Hbt as [|? ? Hc Hbt']; subst.
    rewrite lazy_unfold, group_unfold.
    rewrite no_closing_fence; [| exact Hbt |].
    + cbn [app]. rewrite any_unit_true. apply IH; [exact Hbt'|].
      intros Hne. destruct t as [|c' t]; [congruence|].
      apply Hl. discriminate.
    + apply (@last_unspaced (c :: t) 0%N); [discriminate|].
      apply Hl. discriminate.
Qed.

Lemma no_backtick_Forall (s : jsstring) :
  no_backtick s = true -> Forall (fun c => c <> backtick) s.
Proof.
  unfold no_backtick. induction s as [|c s IH]; intros H; [constructor|].
  cbn [existsb] in H. apply negb_true_iff, orb_false_iff in H.
  destruct H as [Hc Hs]. constructor.
  - intros ->. rewrite N.eqb_refl in Hc. discriminate.
  - apply IH. rewrite Hs. reflexivity.
Qed.

Lemma all_space_Forall (s : jsstring) :
  forallb is_space s = true -> Forall (fun c => is_space c = true) s.
Proof. intros H. apply Forall_forall. apply forallb_forall. exact H. Qed.

Lemma greedy_spaces (ws s : jsstring) (p : regex) :
  Forall (fun c => is_space c = true) ws ->
  (exists c s', s = c :: s' /\ is_space c = false) ->
  match_here p s <> None ->
  match_here (StarGreedy is_space :: p) (ws ++ s) = match_here p s.
Proof.
  intros Hws (c & s' & -> & Hc) Hsome. induction ws as [|d ws IH].
  - cbn [app]. rewrite greedy_unfold, Hc. reflexivity.
  - inversion Hws as [|? ? Hd Hws']; subst.
    cbn [app]. rewrite greedy_unfold, Hd, (IH Hws').
    destruct (match_here p (c :: s')); [reflexivity | congruence].
Qed.

(** The fence pattern at an opening fence: the group is the text between
    the white space that follows the tag and the white space that precedes
    the closing fence. *)
Lemma fence_here (ws1 body ws2 u : jsstring) :
  forallb is_space ws1 = true ->
  forallb is_space ws2 = true ->
  no_backtick body = true ->
  trimmed body = true ->
  exists a b,
    match_here fence_re (lit "```json" ++ ws1 ++ body ++ ws2 ++ lit "```" ++ u)
      = Some ([a; b], u) /\
    upto a b = body.
Proof.
  intros H1 H2 Hbt Htr.
  apply all_space_Forall in H1. apply all_space_Forall in H2.
  apply no_backtick_Forall in Hbt.
  set (R := GroupOpen :: StarLazy any_unit :: GroupClose :: StarGreedy is_space
              :: chars "```").
  assert (Hfence : forall s,
             match_here fence_re (lit "```json" ++ s)
             = match_here (StarGreedy is_space :: R) s).
  { intros s. unfold fence_re, chars, lit.
    cbn [list_ascii_of_string map app match_here N_of_ascii].
    reflexivity. }
  rewrite Hfence.
  destruct body as [|c body].
  - (* nothing between the fences: the first star takes all the white space *)
    cbn [app]. exists (lit "```" ++ u), (lit "```" ++ u).
    split; [|unfold upto; rewrite Nat.sub_diag; reflexivity].
    assert (HL : match_here (StarLazy any_unit :: GroupClose
                               :: StarGreedy is_space :: chars "```")
                   (lit "```" ++ u) = Some ([lit "```" ++ u], u)).
    { apply (@lazy_capture [] [] u); [constructor | congruence | constructor]. }
    assert (HR : match_here R (lit "```" ++ u)
                 = Some ([lit "```" ++ u; lit "```" ++ u], u)).
    { unfold R. change (match_here (GroupOpen :: ?p) ?s)
        with (match match_here p s with
              | Some (marks, rest) => Some (s :: marks, rest)
              | None => None
              end).
      rewrite HL. reflexivity. }
    rewrite app_assoc.
    rewrite greedy_spaces; [exact HR | | | rewrite HR; discriminate].
    + apply Forall_app. split; assumption.
    + eexists; eexists. split; reflexivity.
  - cbn [trimmed] in Htr. apply andb_true_iff in Htr. destruct Htr as [Hc Hl].
    apply negb_true_iff in Hc. apply negb_true_iff in Hl.
    assert (Hl0 : (c :: body) <> [] -> is_space (last (c :: body) 0%N) = false).
    { intros _. rewrite <- Hl. f_equal.
      clear. revert c. induction body as [|x body IH]; intros c; [reflexivity|].
      cbn [last]. cbn [last] in IH. destruct body; [reflexivity|]. apply IH. }
    exists ((c :: body) ++ ws2 ++ lit "```" ++ u), (ws2 ++ lit "```" ++ u).
    split; [|apply upto_app].
    assert (HR : match_here R ((c :: body) ++ ws2 ++ lit "```" ++ u)
                 = Some ([(c :: body) ++ ws2 ++ lit "```" ++ u;
                          ws2 ++ lit "```" ++ u], u)).
    { unfold R. change (match_here (GroupOpen :: ?p) ?s)
        with (match match_here p s with
              | Some (marks, rest) => Some (s :: marks, rest)
              | None => None
              end).
      rewrite (lazy_capture u Hbt Hl0 H2). reflexivity. }
    rewrite greedy_spaces; [exact HR | exact H1 | | rewrite HR; discriminate].
    exists c, (body ++ ws2 ++ lit "```" ++ u). split; [reflexivity | exact Hc].
Qed.

Lemma search_skip (before s : jsstring) (i : nat) :
  no_backtick before = true ->
  search fence_re (before ++ s) i = search fence_re s (i + List.length before).
Proof.
  intros H. apply no_backtick_Forall in H. revert i.
  induction before as [|b before IH]; intros i.
  - cbn. rewrite Nat.add_0_r. reflexivity.
  - inversion H as [|? ? Hb H']; subst.
    cbn [app search].
    assert (Hnone : match_here fence_re (b :: before ++ s) = None).
    { unfold fence_re, chars, lit.
      cbn [list_ascii_of_string map app match_here].
      change (N_of_ascii "`") with backtick.
      destruct (N.eqb backtick b) eqn:E; [|reflexivity].
      apply N.eqb_eq in E. congruence. }
    rewrite Hnone, (IH H'). cbn [List.length]. f_equal. lia.
Qed.

Section FencedBlock.

Context {host : Host}.

(** X1.  A response whose whole text does not parse and that holds a fenced
    block tagged [json], after prose without backticks: [parseJSON] parses
    the whole text and then the interior of the block, without the white
    space around it, and nothing else; the value of the interior, when it is
    one, is what [_parseResponse] returns, whatever follows the block. *)
Theorem parseJSON_fenced_block (before ws1 body ws2 after : jsstring) :
  whole_text_parse
    (before ++ lit "```json" ++ ws1 ++ body ++ ws2 ++ lit "```" ++ after) = None ->
  no_backtick before = true ->
  forallb is_space ws1 = true ->
  forallb is_space ws2 = true ->
  no_backtick body = true ->
  trimmed body = true ->
  parse_attempts
    (before ++ lit "```json" ++ ws1 ++ body ++ ws2 ++ lit "```" ++ after)
    = [before ++ lit "```json" ++ ws1 ++ body ++ ws2 ++ lit "```" ++ after;
       body] /\
  parseJSON
    (before ++ lit "```json" ++ ws1 ++ body ++ ws2 ++ lit "```" ++ after)
    = match JSON_parse body with
      | Some v => v
      | None => JNull
      end /\
  forall v,
    JSON_parse body = Some v ->
    truthy v = true ->
    _parseResponse
      (before ++ lit "```json" ++ ws1 ++ body ++ ws2 ++ lit "```" ++ after) = v.
Proof.
  intros Hwhole Hb H1 H2 Hbody Htr.
  destruct (fence_here after H1 H2 Hbody Htr) as (a & b & Hm & Hcap).
  assert (Hmatch :
    option_map m_1
      (str_match
         (before ++ lit "```json" ++ ws1 ++ body ++ ws2 ++ lit "```" ++ after)
         fence_re) = Some (Some body)).
  { unfold str_match. rewrite (search_skip _ 0 Hb).
    destruct (lit "```json" ++ ws1 ++ body ++ ws2 ++ lit "```" ++ after)
      as [|x rest] eqn:Es; [discriminate Es|].
    cbn [search]. rewrite Hm. cbn [option_map m_1]. rewrite Hcap. reflexivity. }
  assert (Hrun :
    parseJSON_run
      (before ++ lit "```json" ++ ws1 ++ body ++ ws2 ++ lit "```" ++ after)
    = ([before ++ lit "```json" ++ ws1 ++ body ++ ws2 ++ lit "```" ++ after; body],
       match JSON_parse body with Some v => v | None => JNull end)).
  { unfold parseJSON_run, try_parse. unfold whole_text_parse in Hwhole.
    rewrite Hwhole.
    destruct (str_match _ fence_re) as [m|]; [|discriminate Hmatch].
    cbn [option_map] in Hmatch. inversion Hmatch as [Hm1]. rewrite Hm1.
    destruct (JSON_parse body); reflexivity. }
  unfold parse_attempts, parseJSON, _parseResponse, parseJSON.
  rewrite Hrun. cbn [fst snd].
  split; [reflexivity|]. split; [reflexivity|].
  intros v Hv Ht. rewrite Hv, Ht. reflexivity.
Qed.

End FencedBlock.

(** X1, at an answer with prose before and after the block. *)
Lemma parseJSON_fenced_block_witness :
  parse_attempts (host := table_host sourcing_table (fun _ => says refusal 10))
    ((lit "Here is the analysis:" ++ nl) ++ lit "```json" ++ nl
     ++ score_text "87" ++ nl ++ lit "```" ++ nl ++ lit "Let me know.")
    = [(lit "Here is the analysis:" ++ nl) ++ lit "```json" ++ nl
       ++ score_text "87" ++ nl ++ lit "```" ++ nl ++ lit "Let me know.";
       score_text "87"] /\
  parseJSON (host := table_host sourcing_table (fun _ => says refusal 10))
    ((lit "Here is the analysis:" ++ nl) ++ lit "```json" ++ nl
     ++ score_text "87" ++ nl ++ lit "```" ++ nl ++ lit "Let me know.")
    = match @JSON_parse (table_host sourcing_table (fun _ => says refusal 10))
              (score_text "87") with
      | Some v => v
      | None => JNull
      end /\
  forall v,
    @JSON_parse (table_host sourcing_table (fun _ => says refusal 10))
      (score_text "87") = Some v ->
    truthy v = true ->
    _parseResponse (host := table_host sourcing_table (fun _ => says refusal 10))
      ((lit "Here is the analysis:" ++ nl) ++ lit "```json" ++ nl
       ++ score_text "87" ++ nl ++ lit "```" ++ nl ++ lit "Let me know.") = v.
Proof.
  apply (@parseJSON_fenced_block
           (table_host sourcing_table (fun _ => says refusal 10))
           (lit "Here is the analysis:" ++ nl) nl (score_text "87") nl
           (nl ++ lit "Let me know.")); reflexivity.
Defined.

(** ** The extractor and the runner *)

(** A match leaves one mark for each group atom of the pattern. *)
Lemma marks_length (p : regex) :
  forall s marks rest,
    match_here p s = Some (marks, rest) ->
    List.length marks =
    List.length (filter (fun a => match a with
                                  | GroupOpen | GroupClose => true
                                  | _ => false
                                  end) p).
Proof.
  induction p as [|a p IH]; intros s marks rest H.
  - cbn in H. inversion H. reflexivity.
  - destruct a as [c | cls | cls | | ]; cbn [filter].
    + destruct s as [|d s]; cbn [match_here] in H; [discriminate|].
      destruct (N.eqb c d); [exact (IH _ _ _ H) | discriminate].
    + revert H. induction s as [|d s IHs]; intros H;
        rewrite greedy_unfold in H.
      * exact (IH _ _ _ H).
      * destruct (cls d); [|exact (IH _ _ _ H)].
        destruct (match_here (StarGreedy cls :: p) s) as [r|];
          [inversion H; subst; apply IHs; reflexivity | exact (IH _ _ _ H)].
    + revert H. induction s as [|d s IHs]; intros H;
        rewrite lazy_unfold in H.
      * destruct (match_here p []) as [r|] eqn:E; [|discriminate].
        inversion H; subst. exact (IH _ _ _ E).
      * destruct (match_here p (d :: s)) as [r|] eqn:E.
        -- inversion H; subst. exact (IH _ _ _ E).
        -- destruct (cls d); [apply IHs, H | discriminate].
    + cbn [match_here] in H.
      destruct (match_here p s) as [[marks' rest']|] eqn:E; [|discriminate].
      inversion H; subst. cbn [List.length]. f_equal. exact (IH _ _ _ E).
    + cbn [match_here] in H.
      destruct (match_here p s) as [[marks' rest']|] eqn:E; [|discriminate].
      inversion H; subst. cbn [List.length]. f_equal. exact (IH _ _ _ E).
Qed.

Section RunnerMore.

Context {host : Host}.

(** X2.  [parseJSON] gives [JSON.parse] the whole text and at most one other
    text: when the whole text parses, nothing else; otherwise the interior of
    the first fenced block if the text has one, and only else the outer brace
    span; it returns the value of the last parse, or [null] when that parse
    fails or there is nothing more to parse. *)
Theorem parseJSON_two_parses (content : jsstring) :
  match JSON_parse content with
  | Some v => parse_attempts content = [content] /\ parseJSON content = v
  | None =>
      match str_match content fence_re with
      | Some m =>
          exists g, m_1 m = Some g /\
            parse_attempts content = [content; g] /\
            parseJSON content =
              match JSON_parse g with Some v => v | None => JNull end
      | None =>
          match outer_brace_span content with
          | Some t =>
              parse_attempts content = [content; t] /\
              parseJSON content =
                match JSON_parse t with Some v => v | None => JNull end
          | None =>
              parse_attempts content = [content] /\ parseJSON content = JNull
          end
      end
  end.
Proof.
  unfold parse_attempts, parseJSON, parseJSON_run, try_parse.
  destruct (JSON_parse content) as [v|]; [split; reflexivity|].
  destruct (str_match content fence_re) as [m|] eqn:Em.
  - assert (Hg : exists g, m_1 m = Some g).
    { unfold str_match in Em. revert Em. generalize 0.
      induction content as [|c content IH]; intros i Em.
      - cbn in Em. discriminate.
      - cbn [search] in Em.
        destruct (match_here fence_re (c :: content)) as [[marks rest]|] eqn:Eh.
        + inversion Em; subst. cbn [m_1].
          apply marks_length in Eh. cbn in Eh.
          destruct marks as [|a [|b marks]]; [discriminate | discriminate |].
          eexists; reflexivity.
        + apply (IH _ Em). }
    destruct Hg as [g Hg]. exists g. split; [exact Hg|]. rewrite Hg.
    destruct (JSON_parse g); split; reflexivity.
  - rewrite <- str_match_object_re.
    destruct (str_match content object_re) as [m|]; cbn [option_map].
    + destruct (JSON_parse (m_0 m)); split; reflexivity.
    + split; reflexivity.
Qed.

Lemma parseResponse_truthy (content : jsstring) :
  truthy (_parseResponse content) = true.
Proof.
  unfold _parseResponse. destruct (truthy (parseJSON content)) eqn:E;
    [exact E | reflexivity].
Qed.

Lemma prop_of_truthy (o : JValue) (k : string) :
  truthy o = true -> exists v, prop o k = Normal v.
Proof.
  destruct o; cbn; intros H; try discriminate; eexists; reflexivity.
Qed.

(** X3.  [execute] is decided by the message it builds and by what the SDK
    does with the one request it sends.  With a response, the result is a
    success whose output is the extraction of the text of the response, whose
    token counts are those of the response and whose execution time is the
    time the call took; with an error, it is a failure that carries the
    message of that error unchanged.  When the message cannot be built, the
    result is a failure and no request leaves. *)
Theorem execute_outcome (this : BaseAgent) (input context : JValue) (w : World) :
  match _buildUserMessage input (default_object context) with
  | Abrupt e =>
      execute this input context w =
      Ret {| success := false;
             agent := name this;
             role := agent_role this;
             output := None;
             error := Some (error_message e);
             metadata := {| executionTime := 0;
                            tokensUsed := None;
                            timestamp := now w |} |} w
  | Normal userMessage =>
      let p := create_params (systemPrompt this) [(lit "user", userMessage)]
                 (agent_options this) in
      match messages_create (List.length (requests w)) p with
      | (inl response, ms) =>
          execute this input context w =
          Ret {| success := true;
                 agent := name this;
                 role := agent_role this;
                 output := Some (_parseResponse (text response));
                 error := None;
                 metadata :=
                   {| executionTime := ms;
                      tokensUsed :=
                        Some {| inputTokens := input_tokens response;
                                outputTokens := output_tokens response |};
                      timestamp := now w + ms |} |}
            (after_request w p ms)
      | (inr message, ms) =>
          execute this input context w =
          Ret {| success := false;
                 agent := name this;
                 role := agent_role this;
                 output := None;
                 error := Some message;
                 metadata := {| executionTime := ms;
                                tokensUsed := None;
                                timestamp := now w + ms |} |}
            (after_request w p ms)
      end
  end.
Proof.
  unfold execute, bind, Date_now, try_catch.
  destruct (_buildUserMessage input (default_object context)) as [um|e].
  - cbn [lift ret]. unfold sendMessage, try_catch, bind, create_and_read.
    unfold create_params, agent_options, after_request.
    destruct (messages_create _ _) as [[response|message] ms];
      cbn [ret throw now error_message];
      replace (now w + ms - now w) with ms by lia; reflexivity.
  - cbn [lift throw ret]. rewrite Nat.sub_diag. reflexivity.
Qed.

(** X4.  The output of a successful [execute] is never [undefined], [null],
    [false], [0] or the empty string, so that reading a property of it never
    throws. *)
Theorem success_output_truthy (this : BaseAgent) (input context : JValue)
  (w : World) :
  exists r w',
    execute this input context w = Ret r w' /\
    (success r = true ->
     exists o, output r = Some o /\ truthy o = true /\
               forall k, exists v, prop o k = Normal v).
Proof.
  pose proof (execute_outcome this input context w) as H.
  destruct (_buildUserMessage input (default_object context)) as [um|e].
  - cbv zeta in H.
    destruct (messages_create _ _) as [[response|message] ms];
      rewrite H; eexists; eexists; (split; [reflexivity|]); cbn [success output].
    + intros _. eexists. split; [reflexivity|].
      split; [apply parseResponse_truthy|].
      intros k. apply prop_of_truthy, parseResponse_truthy.
    + discriminate.
  - rewrite H. eexists; eexists. split; [reflexivity|]. discriminate.
Qed.

(** X5.  With a context that is [null], [execute] makes no request: building
    the message throws, and the result is a failure with the message of that
    TypeError, in an unchanged state. *)
Theorem execute_null_context (this : BaseAgent) (input : JValue) (w : World) :
  exists r,
    execute this input JNull w = Ret r w /\
    success r = false /\
    output r = None /\
    error r = Some (lit "Cannot convert undefined or null to object") /\
    executionTime (metadata r) = 0.
Proof.
  pose proof (execute_outcome this input JNull w) as H.
  cbn [_buildUserMessage keys_length default_object] in H.
  rewrite H. eexists. repeat split; reflexivity.
Qed.

End RunnerMore.

(** ** The client *)

Section ClientMore.

Context {host : Host}.

(** X6.  [sendMessage] does not throw and sends one request, with the
    system prompt and the one message of the user it was given.  The request
    never has 0 for [max_tokens] or for [temperature]: an option that is 0 is
    taken for a missing one and replaced by the value of the environment or
    by 4096 and 0.7; an option that is not 0 is sent as it is. *)
Theorem sendMessage_request (systemPrompt userMessage : jsstring)
  (options : Options) (w : World) :
  exists c p ms,
    sendMessage systemPrompt userMessage options w = Ret c (after_request w p ms) /\
    system p = systemPrompt /\
    messages p = [(lit "user", userMessage)] /\
    max_tokens p <> 0%Z /\
    ~ (cp_temperature p == 0)%Q /\
    (o_maxTokens options <> 0%Z -> max_tokens p = o_maxTokens options) /\
    (~ (o_temperature options == 0)%Q ->
     cp_temperature p = o_temperature options) /\
    (o_maxTokens options = 0%Z ->
     max_tokens p = match env_MAX_TOKENS with
                    | Some n => if Z.eqb n 0 then 4096%Z else n
                    | None => 4096%Z
                    end) /\
    ((o_temperature options == 0)%Q ->
     cp_temperature p = match env_TEMPERATURE with
                        | Some q => if Qeq_bool q 0 then (7 # 10)%Q else q
                        | None => (7 # 10)%Q
                        end).
Proof.
  exists (match fst (messages_create (List.length (requests w))
                       (create_params systemPrompt [(lit "user", userMessage)] options)) with
          | inl response =>
              ClientOk (text response)
                {| inputTokens := input_tokens response;
                   outputTokens := output_tokens response |}
                (stop_reason response)
          | inr message => ClientFail message
          end),
    (create_params systemPrompt [(lit "user", userMessage)] options),
    (snd (messages_create (List.length (requests w))
            (create_params systemPrompt [(lit "user", userMessage)] options))).
  split.
  { unfold sendMessage, try_catch, bind, create_and_read, create_params, after_request.
    destruct (messages_create _ _) as [[response|message] ms]; reflexivity. }
  cbn [create_params system messages max_tokens cp_temperature].
  split; [reflexivity|]. split; [reflexivity|].
  unfold or_max_tokens, or_temperature.
  split; [|split; [|split; [|split; [|split]]]].
  - destruct (Z.eqb (o_maxTokens options) 0) eqn:E.
    + destruct env_MAX_TOKENS as [n|]; [|discriminate].
      destruct (Z.eqb n 0) eqn:En; [discriminate|]. apply Z.eqb_neq, En.
    + apply Z.eqb_neq, E.
  - destruct (Qeq_bool (o_temperature options) 0) eqn:E.
    + destruct env_TEMPERATURE as [q|].
      * destruct (Qeq_bool q 0) eqn:Eq0.
        -- intros H. apply Qeq_bool_iff in H. discriminate H.
        -- apply Qeq_bool_neq, Eq0.
      * intros H. apply Qeq_bool_iff in H. discriminate H.
    + apply Qeq_bool_neq, E.
  - intros H. apply Z.eqb_neq in H. rewrite H. reflexivity.
  - intros H. destruct (Qeq_bool (o_temperature options) 0) eqn:E; [|reflexivity].
    apply Qeq_bool_iff in E. contradiction.
  - intros H. rewrite H. reflexivity.
  - intros H. apply Qeq_bool_iff in H. rewrite H. reflexivity.
Qed.

(** X7.  For every agent of the table the request has the [max_tokens] and
    the [temperature] of the configuration, 4096 and a temperature from 0.1
    to 0.6: [MAX_TOKENS] and [TEMPERATURE] of the environment are never
    read. *)
Theorem table_agents_ignore_environment (key : jsstring) (a : BaseAgent)
  (messages : list (jsstring * jsstring)) :
  lookup_agent key agents = Some a ->
  max_tokens (create_params (systemPrompt a) messages (agent_options a)) = 4096%Z /\
  cp_temperature (create_params (systemPrompt a) messages (agent_options a))
    = temperature a /\
  (1 # 10 <= temperature a)%Q /\ (temperature a <= 6 # 10)%Q.
Proof.
  intros H. apply lookup_agent_In in H.
  unfold agents, AGENT_CONFIGS, config in H. cbn [In] in H.
  repeat match goal with
         | H : _ \/ _ |- _ => destruct H as [H|H]
         | H : False |- _ => destruct H
         end;
    inversion H; subst; clear H;
    (split; [reflexivity|]); (split; [reflexivity|]);
    split; vm_compute; discriminate.
Qed.

(** X8.  [sendConversation] does not throw and sends one request, with the
    messages of the caller in their order; it returns the text, the token
    counts and the stop reason of the response, or the message of the error.
    [sendMessage] is [sendConversation] on the one message of the user. *)
Theorem sendConversation_outcome (systemPrompt : jsstring)
  (msgs : list (jsstring * jsstring)) (options : Options) (w : World) :
  let p := create_params systemPrompt msgs options in
  sendConversation systemPrompt msgs options w =
    Ret (match fst (messages_create (List.length (requests w)) p) with
         | inl response =>
             ClientOk (text response)
               {| inputTokens := input_tokens response;
                  outputTokens := output_tokens response |}
               (stop_reason response)
         | inr message => ClientFail message
         end)
      (after_request w p (snd (messages_create (List.length (requests w)) p))) /\
  messages p = msgs /\
  forall userMessage,
    msgs = [(lit "user", userMessage)] ->
    sendMessage systemPrompt userMessage options w =
    sendConversation systemPrompt msgs options w.
Proof.
  cbv zeta. split; [|split; [reflexivity | intros um ->; reflexivity]].
  unfold sendConversation, try_catch, bind, create_and_read, create_params,
    after_request.
  destruct (messages_create _ _) as [[response|message] ms]; reflexivity.
Qed.

End ClientMore.

(** X7, at the scout. *)
Lemma table_agents_ignore_environment_witness :
  exists a,
    lookup_agent (lit "scout") (agents (host := offline_host)) = Some a /\
    max_tokens (create_params (host := offline_host) (systemPrompt a) []
                  (agent_options a)) = 4096%Z /\
    cp_temperature (create_params (host := offline_host) (systemPrompt a) []
                      (agent_options a)) = temperature a /\
    (1 # 10 <= temperature a)%Q /\ (temperature a <= 6 # 10)%Q.
Proof.
  eexists.
  keep ltac:(reflexivity).
  eapply table_agents_ignore_environment; eassumption.
Defined.

(** ** Conversations *)

Section ConversationProperties.

Context {host : Host}.

(** X9.  [executeWithHistory] sends the history it was given followed by the
    new message of the user, and not the history that the agent retains.
    With a response, it appends that message and the raw text of the
    response to the retained history and returns the extended history with
    the result; with an error, or when the message cannot be built, the
    retained history is unchanged and the result has no history. *)
Theorem executeWithHistory_outcome (this : BaseAgent)
  (retained : list (jsstring * jsstring)) (input : JValue)
  (history : list (jsstring * jsstring)) (context : JValue) (w : World) :
  match _buildUserMessage input (default_object context) with
  | Abrupt e =>
      exists r,
        executeWithHistory this retained input history context w =
          Ret {| he_result := r;
                 he_conversationHistory := None;
                 he_retained := retained |} w /\
        success r = false /\ error r = Some (error_message e)
  | Normal userMessage =>
      let p := create_params (systemPrompt this)
                 (history ++ [(lit "user", userMessage)]) (agent_options this) in
      match messages_create (List.length (requests w)) p with
      | (inl response, ms) =>
          exists r,
            executeWithHistory this retained input history context w =
              Ret {| he_result := r;
                     he_conversationHistory :=
                       Some (retained ++ [(lit "user", userMessage);
                                          (lit "assistant", text response)]);
                     he_retained :=
                       retained ++ [(lit "user", userMessage);
                                    (lit "assistant", text response)] |}
                (after_request w p ms) /\
            success r = true /\
            output r = Some (_parseResponse (text response)) /\
            executionTime (metadata r) = ms
      | (inr message, ms) =>
          exists r,
            executeWithHistory this retained input history context w =
              Ret {| he_result := r;
                     he_conversationHistory := None;
                     he_retained := retained |}
                (after_request w p ms) /\
            success r = false /\ error r = Some message
      end
  end.
Proof.
  unfold executeWithHistory, bind, Date_now, try_catch.
  destruct (_buildUserMessage input (default_object context)) as [um|e].
  - cbn [lift ret]. unfold sendConversation, try_catch, bind, create_and_read.
    unfold create_params, agent_options, after_request.
    destruct (messages_create _ _) as [[response|message] ms];
      cbn [ret throw now error_message]; eexists;
      (split; [reflexivity|]); cbn [success output error metadata executionTime];
      repeat split; lia.
  - cbn [lift throw ret]. eexists. split; [reflexivity|]. split; reflexivity.
Qed.

Lemma turns_app (l t : list (jsstring * jsstring)) :
  turns l = true -> turns (l ++ t) = turns t.
Proof.
  assert (H : forall n (l : list (jsstring * jsstring)),
             List.length l <= n -> turns l = true -> turns (l ++ t) = turns t).
  { induction n as [|n IH]; intros l0 Hn Ht.
    - destruct l0; [reflexivity | cbn in Hn; lia].
    - destruct l0 as [|[r1 c1] [|[r2 c2] l2]]; [reflexivity | discriminate |].
      cbn [turns] in Ht. apply andb_true_iff in Ht. destruct Ht as [Hr Ht].
      cbn [app turns]. rewrite Hr. cbn [andb].
      apply IH; [cbn in Hn; lia | exact Ht]. }
  apply (H (List.length l)). lia.
Qed.

(** X10.  A retained history made of turns stays made of turns through
    [executeWithHistory], whatever the call does: it grows by one turn or
    not at all. *)
Theorem executeWithHistory_keeps_turns (this : BaseAgent)
  (retained : list (jsstring * jsstring)) (input : JValue)
  (history : list (jsstring * jsstring)) (context : JValue) (w : World) :
  turns retained = true ->
  exists h w',
    executeWithHistory this retained input history context w = Ret h w' /\
    turns (he_retained h) = true /\
    (he_retained h = retained \/
     exists u a, he_retained h = retained ++ [(lit "user", u); (lit "assistant", a)]) /\
    (success (he_result h) = true <-> he_retained h <> retained).
Proof.
  intros Ht.
  pose proof (executeWithHistory_outcome this retained input history context w) as H.
  assert (Hgrow : forall u a,
             retained ++ [(lit "user", u); (lit "assistant", a)] <> retained).
  { intros u a Heq. apply (f_equal (@List.length _)) in Heq.
    rewrite length_app in Heq. cbn in Heq. lia. }
  destruct (_buildUserMessage input (default_object context)) as [um|e].
  - cbv zeta in H.
    destruct (messages_create _ _) as [[response|message] ms];
      destruct H as (r & Hr & Hs & Hrest); rewrite Hr;
      eexists; eexists; (split; [reflexivity|]); cbn [he_retained he_result].
    + split; [rewrite (turns_app _ Ht); reflexivity|].
      split; [right; eauto|].
      split; [intros _; apply Hgrow | intros _; exact Hs].
    + split; [exact Ht|]. split; [left; reflexivity|].
      split; [congruence | intros Hn; exfalso; apply Hn; reflexivity].
  - destruct H as (r & Hr & Hs & Hrest). rewrite Hr.
    eexists; eexists; (split; [reflexivity|]); cbn [he_retained he_result].
    split; [exact Ht|]. split; [left; reflexivity|].
    split; [congruence | intros Hn; exfalso; apply Hn; reflexivity].
Qed.

(** X11.  With an empty history, [executeWithHistory] sends the request of
    [execute] and leaves the clock, the requests and the workflow history as
    [execute] does; the object it returns has the properties of the result of
    [execute], with their values.  The two differ in the conversation
    history, which [execute] does not touch: when the result is a success,
    the history that the agent retains has grown by the message of the user
    and the raw text of the response, of which the output is the
    extraction, and the object has it as one more property,
    [conversationHistory]; when the result is a failure, the retained
    history is unchanged and the object has no such property. *)
Theorem executeWithHistory_empty_history (this : BaseAgent)
  (retained : list (jsstring * jsstring)) (input context : JValue) (w : World) :
  exists h w' r,
    executeWithHistory this retained input [] context w = Ret h w' /\
    execute this input context w = Ret r w' /\
    he_result h = r /\
    if success r then
      exists userMessage response ms,
        _buildUserMessage input (default_object context) = Normal userMessage /\
        messages_create (List.length (requests w))
          (create_params (systemPrompt this) [(lit "user", userMessage)]
             (agent_options this)) = (inl response, ms) /\
        output r = Some (_parseResponse (text response)) /\
        he_retained h =
          retained ++ [(lit "user", userMessage);
                       (lit "assistant", text response)] /\
        he_conversationHistory h = Some (he_retained h)
    else
      he_retained h = retained /\ he_conversationHistory h = None.
Proof.
  unfold executeWithHistory, execute, bind, Date_now, try_catch.
  destruct (_buildUserMessage input (default_object context)) as [um|e].
  - cbn [lift ret app].
    unfold sendConversation, sendMessage, try_catch, bind, create_and_read.
    unfold create_params, agent_options.
    destruct (messages_create _ _) as [[response|message] ms] eqn:Em;
      cbn [ret throw now error_message]; eexists; eexists; eexists;
      (split; [reflexivity|]); (split; [reflexivity|]);
      (split; [reflexivity|]); cbn [success he_retained he_conversationHistory].
    + exists um, response, ms.
      split; [reflexivity|]. split; [exact Em|]. repeat split; reflexivity.
    + split; reflexivity.
  - cbn [lift throw ret]. eexists; eexists; eexists.
    split; [reflexivity|]. split; [reflexivity|]. split; [reflexivity|].
    cbn [success he_retained he_conversationHistory]. split; reflexivity.
Qed.

End ConversationProperties.

(** X10, at a history of one turn and an agent whose call fails. *)
Lemma executeWithHistory_keeps_turns_witness :
  exists h w',
    executeWithHistory (host := offline_host)
      (snd (config (host := offline_host) "outreach" "Outreach Agent"
              "communication" "" (6 # 10)%Q))
      [(lit "user", lit "Draft a note."); (lit "assistant", lit "Here it is.")]
      (JStr (lit "Shorter, please.")) [] JUndefined w0 = Ret h w' /\
    turns (he_retained h) = true /\
    (he_retained h =
       [(lit "user", lit "Draft a note."); (lit "assistant", lit "Here it is.")] \/
     exists u a,
       he_retained h =
       [(lit "user", lit "Draft a note."); (lit "assistant", lit "Here it is.")]
       ++ [(lit "user", u); (lit "assistant", a)]) /\
    (success (he_result h) = true <->
     he_retained h <>
       [(lit "user", lit "Draft a note."); (lit "assistant", lit "Here it is.")]).
Proof.
  apply (@executeWithHistory_keeps_turns offline_host). reflexivity.
Defined.

(** ** The history of the orchestrator *)

Section HistoryProperties.

Context {host : Host}.

Lemma lookup_agent_known (key : jsstring) (a : BaseAgent) :
  lookup_agent key agents = Some a -> known key.
Proof.
  intros H. apply lookup_agent_In in H. unfold known.
  apply in_map_iff. exists (key, a). split; [reflexivity | exact H].
Qed.

(** Every call of [executeAgent] is of one of two kinds. *)
Lemma executeAgent_cases (key : jsstring) (input context : JValue) (w : World) :
  (exists a r w',
     lookup_agent key agents = Some a /\
     executeAgent key input context w = Ret r w' /\
     agent_run key a context w r w') \/
  (~ known key /\ exists e, executeAgent key input context w = Throw e w).
Proof.
  destruct (lookup_agent key agents) as [a|] eqn:E.
  - left. destruct (executeAgent_known input context w E) as (r & w' & He & Hrun).
    exists a, r, w'. split; [reflexivity | split; assumption].
  - right. split.
    + intros Hk. destruct (lookup_agent_some Hk) as [a Ha]. congruence.
    + unfold executeAgent, agents_get. rewrite E.
      destruct (existsb (str_eqb key) Object_prototype_names);
        eexists; reflexivity.
Qed.

Lemma executeAgent_keeps_known (key : jsstring) (input context : JValue)
  (w : World) :
  Forall known (map h_agent (workflowHistory w)) ->
  Forall known
    (map h_agent (workflowHistory (world_of (executeAgent key input context w)))).
Proof.
  intros Hw.
  destruct (executeAgent_cases key input context w)
    as [(a & r & w' & Ha & He & Hrun) | (_ & e & He)]; rewrite He; cbn [world_of].
  - rewrite (run_history Hrun), map_app. apply Forall_app. split; [exact Hw|].
    constructor; [|constructor]. exact (lookup_agent_known Ha).
  - exact Hw.
Qed.

Lemma pipeline_loop_keeps_known (seq : list jsstring) :
  forall results input context w,
    Forall known (map h_agent (workflowHistory w)) ->
    Forall known
      (map h_agent
         (workflowHistory (world_of (pipeline_loop seq results input context w)))).
Proof.
  induction seq as [|key seq IH]; intros results input context w Hw.
  - cbn [pipeline_loop]. destruct (rev results); exact Hw.
  - cbn [pipeline_loop]. unfold bind at 1.
    pose proof (executeAgent_keeps_known key input (JObj context) Hw) as H1.
    destruct (executeAgent key input (JObj context) w) as [r w1|e w1];
      cbn [world_of] in *; [|exact H1].
    destruct (success r); cbn [negb]; [apply IH, H1 | exact H1].
Qed.

Lemma start_all_keeps_known (input context : JValue) (t0 : nat)
  (keys : list jsstring) :
  forall w,
    Forall known (map h_agent (workflowHistory w)) ->
    Forall known
      (map h_agent
         (workflowHistory
            (snd (start_all t0 (map (fun k => executeAgent k input context) keys) w)))).
Proof.
  induction keys as [|key keys IH]; intros w Hw; [exact Hw|].
  cbn [map start_all].
  pose proof (@executeAgent_keeps_known key input context (set_now t0 w) Hw) as H1.
  specialize (IH _ H1).
  destruct (start_all t0 _ (world_of _)) as [rest w']. exact IH.
Qed.

(** X12.  The history never gets an entry for a key that is not in the
    agent table: whatever the keys given to [executeAgent], [executePipeline]
    and [executeParallel], and whether they return or throw, every entry
    of the history they leave is for an agent of the table, if it was so
    before. *)
Theorem history_keys_known (key : jsstring) (keys : list jsstring)
  (input context : JValue) (w : World) :
  Forall known (map h_agent (workflowHistory w)) ->
  Forall known
    (map h_agent (workflowHistory (world_of (executeAgent key input context w)))) /\
  Forall known
    (map h_agent (workflowHistory (world_of (executePipeline keys input w)))) /\
  Forall known
    (map h_agent
       (workflowHistory (world_of (executeParallel keys input context w)))).
Proof.
  intros Hw. split; [exact (executeAgent_keeps_known key input context Hw)|].
  split; [exact (pipeline_loop_keeps_known keys [] input [] Hw)|].
  unfold executeParallel, bind, Promise_all.
  pose proof (@start_all_keeps_known input (default_object context) (now w) keys w Hw)
    as H.
  destruct (start_all (now w) _ w) as [l w']. cbn [snd] in H.
  destruct (first_rejection l) as [[t e]|]; cbn [world_of ret]; exact H.
Qed.

End HistoryProperties.

(** X12, at the start of the process, with a key that no agent has. *)
Lemma history_keys_known_witness :
  Forall (known (host := first_call_fails_host))
    (map h_agent
       (workflowHistory
          (world_of (executeAgent (host := first_call_fails_host) (lit "ghost")
                       JNull JUndefined w0)))) /\
  Forall (known (host := first_call_fails_host))
    (map h_agent
       (workflowHistory
          (world_of (executePipeline (host := first_call_fails_host)
                       [lit "scout"; lit "ghost"] JNull w0)))) /\
  Forall (known (host := first_call_fails_host))
    (map h_agent
       (workflowHistory
          (world_of (executeParallel (host := first_call_fails_host)
                       [lit "scout"; lit "ghost"] JNull JUndefined w0)))).
Proof.
  apply (@history_keys_known first_call_fails_host). constructor.
Defined.

(** ** Parallel groups and pipelines with a key that no agent has *)

Section UnknownKeys.

Context {host : Host}.

Lemma start_all_app {A} (t0 : nat) (c1 c2 : list (M A)) (w : World) :
  start_all t0 (c1 ++ c2) w =
  let '(l1, w1) := start_all t0 c1 w in
  let '(l2, w2) := start_all t0 c2 w1 in
  (l1 ++ l2, w2).
Proof.
  revert w. induction c1 as [|c c1 IH]; intros w.
  - cbn [app start_all]. destruct (start_all t0 c2 w). reflexivity.
  - cbn [app start_all]. rewrite IH.
    destruct (start_all t0 c1 _) as [l1 w1].
    destruct (start_all t0 c2 w1) as [l2 w2]. reflexivity.
Qed.

Lemma first_rejection_app {A} (l1 l2 : list (nat * Completion A)) :
  first_rejection l1 = None ->
  first_rejection (l1 ++ l2) = first_rejection l2.
Proof.
  induction l1 as [|[t [a|e]] l1 IH]; intros H; cbn [app first_rejection] in *.
  - reflexivity.
  - apply IH, H.
  - destruct (first_rejection l1) as [[t' e']|]; [|discriminate].
    destruct (Nat.ltb t' t); discriminate.
Qed.

Lemma first_rejection_ge {A} (t0 : nat) (l : list (nat * Completion A)) :
  Forall (fun x => t0 <= fst x) l ->
  forall t e, first_rejection l = Some (t, e) -> t0 <= t.
Proof.
  induction 1 as [|[t1 [a|e1]] l Hx Hl IH]; intros t e H;
    cbn [first_rejection] in H.
  - discriminate.
  - exact (IH _ _ H).
  - cbn [fst] in Hx. destruct (first_rejection l) as [[t' e']|].
    + destruct (Nat.ltb t' t1); inversion H; subst; [exact (IH _ _ eq_refl) | exact Hx].
    + inversion H; subst. exact Hx.
Qed.

(** The calls of a parallel group over any keys: none ends before the group
    starts, and every key of the table has its request. *)
Lemma start_all_any (input context : JValue) (t0 : nat) (keys : list jsstring) :
  forall w,
    Forall (fun x => t0 <= fst x)
      (fst (start_all t0 (map (fun k => executeAgent k input context) keys) w)) /\
    (context <> JNull ->
     List.length
       (requests
          (snd (start_all t0 (map (fun k => executeAgent k input context) keys) w)))
     = List.length (requests w)
       + List.length
           (filter (fun k => match lookup_agent k agents with
                             | Some _ => true
                             | None => false
                             end) keys)).
Proof.
  induction keys as [|key keys IH]; intros w.
  - cbn. split; [constructor | intros _; lia].
  - cbn [map start_all filter].
    destruct (executeAgent_cases key input context (set_now t0 w))
      as [(a & r & w1 & Ha & He & Hrun) | (Hk & e & He)]; rewrite He;
      cbn [world_of settled].
    + specialize (IH w1). destruct (start_all t0 _ w1) as [rest w'].
      cbn [fst snd] in *. destruct IH as [IH1 IH2]. rewrite Ha. split.
      * constructor; [|exact IH1]. cbn [fst].
        pose proof (run_clock Hrun) as Hc. cbn in Hc. exact Hc.
      * intros Hn. rewrite (IH2 Hn).
        destruct (run_request Hrun Hn) as [p Hp]. rewrite Hp, length_app.
        cbn. lia.
    + specialize (IH (set_now t0 w)).
      destruct (start_all t0 _ (set_now t0 w)) as [rest w'].
      cbn [fst snd] in *. destruct IH as [IH1 IH2].
      assert (Hnone : lookup_agent key agents = None).
      { destruct (lookup_agent key agents) eqn:E; [|reflexivity].
        exfalso. apply Hk. exact (lookup_agent_known E). }
      rewrite Hnone. split.
      * constructor; [cbn; lia | exact IH1].
      * intros Hn. rewrite (IH2 Hn). reflexivity.
Qed.

(** X13.  A parallel group with a key that no agent has is rejected, with
    the exception that [executeAgent] throws for the first such key, and at
    once: the clock has not moved.  No call is cancelled: the request of
    every agent of the table has left, for the keys after that key as for
    the keys before it. *)
Theorem executeParallel_unknown_key (pre post : list jsstring) (bad : jsstring)
  (input context : JValue) (w : World) :
  Forall known pre ->
  ~ known bad ->
  exists e w',
    executeParallel (pre ++ bad :: post) input context w = Throw e w' /\
    executeAgent bad input context w = Throw e w /\
    now w' = now w /\
    (context <> JNull ->
     List.length (requests w')
     = List.length (requests w) + List.length pre
       + List.length
           (filter (fun k => match lookup_agent k agents with
                             | Some _ => true
                             | None => false
                             end) post)).
Proof.
  intros Hpre Hbad.
  destruct (executeAgent_cases bad input context w)
    as [(a & _ & _ & Ha & _) | (_ & e & He)];
    [exfalso; exact (Hbad (lookup_agent_known Ha))|].
  assert (Hany : forall c w1, executeAgent bad input c w1 = Throw e w1).
  { intros c w1.
    assert (Hnone : lookup_agent bad agents = None).
    { destruct (lookup_agent bad agents) eqn:E; [|reflexivity].
      exfalso. exact (Hbad (lookup_agent_known E)). }
    unfold executeAgent, agents_get in *. rewrite Hnone in *.
    destruct (existsb _ _); inversion He; reflexivity. }
  unfold executeParallel, bind, Promise_all.
  rewrite map_app, start_all_app. cbn [map].
  destruct (start_all_agents input (default_object context) (now w) w Hpre)
    as (l1 & w1 & Hs1 & Hrej1 & _ & _ & Hq1).
  rewrite Hs1. cbn [start_all]. rewrite Hany. cbn [world_of settled].
  pose proof (start_all_any input (default_object context) (now w) post
                (set_now (now w) w1)) as Hpost.
  destruct (start_all (now w) _ (set_now (now w) w1)) as [l2 w2].
  cbn [fst snd] in Hpost. destruct Hpost as [Hge Hq2].
  rewrite (first_rejection_app _ Hrej1). cbn [first_rejection now set_now].
  assert (Hfirst :
    match first_rejection l2 with
    | Some (t', e') => if Nat.ltb t' (now w) then Some (t', e') else Some (now w, e)
    | None => Some (now w, e)
    end = Some (now w, e)).
  { destruct (first_rejection l2) as [[t' e']|] eqn:E; [|reflexivity].
    pose proof (first_rejection_ge Hge E) as Hle.
    apply Nat.ltb_ge in Hle. rewrite Hle. reflexivity. }
  rewrite Hfirst.
  exists e. eexists. split; [reflexivity|]. split; [exact He|].
  split; [reflexivity|].
  intros Hn. cbn [set_now requests].
  assert (Hn' : default_object context <> JNull)
    by (destruct context; cbn; congruence).
  rewrite (Hq2 Hn'). cbn [set_now requests]. rewrite (Hq1 Hn'). lia.
Qed.

End UnknownKeys.

(** X13, at the group scout, ghost, compliance. *)
Lemma executeParallel_unknown_key_witness :
  exists e w',
    executeParallel (host := first_call_fails_host)
      ([lit "scout"] ++ lit "ghost" :: [lit "compliance"]) JNull JUndefined w0
      = Throw e w' /\
    executeAgent (host := first_call_fails_host) (lit "ghost") JNull JUndefined w0
      = Throw e w0 /\
    now w' = now w0 /\
    (JUndefined <> JNull ->
     List.length (requests w')
     = List.length (requests w0) + List.length [lit "scout"]
       + List.length
           (filter (fun k => match lookup_agent k (agents (host := first_call_fails_host)) with
                             | Some _ => true
                             | None => false
                             end) [lit "compliance"])).
Proof.
  apply (@executeParallel_unknown_key first_call_fails_host
           [lit "scout"] [lit "compliance"] (lit "ghost") JNull JUndefined w0).
  - apply Forall_cons; [vm_compute; auto 10 | apply Forall_nil].
  - vm_compute. intros H.
    repeat (destruct H as [H|H]; [discriminate H|]). exact H.
Defined.

(** ** Pipelines: composition, the path of success, a key that no agent has *)

Section PipelineMore.

Context {host : Host}.

(** The loop over [s1 ++ s2] is the loop over [s1] and then, if no step
    failed, the loop over [s2] from where the first loop ended. *)
Lemma pipeline_loop_app (s1 s2 : list jsstring) :
  forall results input context w,
    (s1 = [] -> exists rs r, results = rs ++ [r] /\ input = get_output r) ->
    pipeline_loop (s1 ++ s2) results input context w =
    match pipeline_loop s1 results input context w with
    | Ret res w1 =>
        match p_success res, finalOutput res, p_context res with
        | true, Some out, Some c => pipeline_loop s2 (p_results res) out c w1
        | _, _, _ => Ret res w1
        end
    | Throw e w1 => Throw e w1
    end.
Proof.
  induction s1 as [|key s1 IH]; intros results input context w Hin.
  - destruct (Hin eq_refl) as (rs & r & -> & ->).
    cbn [app pipeline_loop]. rewrite rev_app_distr. cbn [rev app].
    unfold ret. cbn [p_success finalOutput p_context p_results]. reflexivity.
  - cbn [app pipeline_loop]. unfold bind.
    destruct (executeAgent key input (JObj context) w) as [r w1|e w1];
      [|reflexivity].
    destruct (success r) eqn:Es; cbn [negb].
    + apply IH. intros _. exists results, r. split; reflexivity.
    + reflexivity.
Qed.

(** X14.  A pipeline over [keys1 ++ keys2] is the pipeline over [keys1]
    followed, when every step of it succeeded, by the loop over [keys2],
    which starts from the results of the first part with its final output as
    the input and its context as the context: the next agent is called with
    the output of the previous one.  When a step of the first part failed,
    the result of the first part is the result of the whole, in the same
    state. *)
Theorem executePipeline_app (keys1 keys2 : list jsstring) (input : JValue)
  (w w1 : World) (res1 : PipelineResult) :
  keys1 <> [] ->
  executePipeline keys1 input w = Ret res1 w1 ->
  (p_success res1 = false ->
   executePipeline (keys1 ++ keys2) input w = Ret res1 w1) /\
  (p_success res1 = true ->
   exists out c,
     finalOutput res1 = Some out /\
     p_context res1 = Some c /\
     executePipeline (keys1 ++ keys2) input w =
     pipeline_loop keys2 (p_results res1) out c w1).
Proof.
  intros Hne H1. unfold executePipeline in *.
  rewrite pipeline_loop_app by (intros ->; congruence).
  rewrite H1. split.
  - intros ->. reflexivity.
  - intros Hs. rewrite Hs.
    assert (Hshape : forall seq results i c w0 res w',
               pipeline_loop seq results i c w0 = Ret res w' ->
               p_success res = true ->
               exists out c', finalOutput res = Some out /\ p_context res = Some c').
    { clear. induction seq as [|k seq IH]; intros results i c w0 res w' H Hs.
      - cbn [pipeline_loop] in H. destruct (rev results); [discriminate|].
        inversion H; subst. eexists; eexists; split; reflexivity.
      - cbn [pipeline_loop] in H. unfold bind in H.
        destruct (executeAgent k i (JObj c) w0) as [r w1|e w1]; [|discriminate].
        destruct (success r); cbn [negb] in H.
        + exact (IH _ _ _ _ _ _ H Hs).
        + inversion H; subst. discriminate. }
    destruct (Hshape _ _ _ _ _ _ _ H1 Hs) as (out & c & Ho & Hc).
    exists out, c. rewrite Ho, Hc. repeat split; reflexivity.
Qed.

Lemma pipeline_loop_success (seq : list jsstring) :
  forall results input context w res w',
    pipeline_loop seq results input context w = Ret res w' ->
    p_success res = true ->
    exists ran,
      p_results res = results ++ ran /\
      Forall2 (fun k r => exists a, lookup_agent k agents = Some a /\
                                    agent r = name a /\
                                    role r = agent_role a /\
                                    exactly_one r) seq ran /\
      Forall (fun r => success r = true) ran /\
      failedAt res = None /\
      p_error res = None /\
      p_context res =
        Some (fold_left (fun acc r => obj_set (role r) (get_output r) acc)
                ran context) /\
      exists rs r, results ++ ran = rs ++ [r] /\
                   finalOutput res = Some (get_output r).
Proof.
  induction seq as [|key seq IH]; intros results input context w res w' H Hs.
  - cbn [pipeline_loop] in H. destruct (rev results) as [|r l] eqn:Er;
      [discriminate|].
    inversion H; subst. exists []. rewrite app_nil_r.
    repeat split; try constructor.
    exists (rev l), r. split; [|reflexivity].
    rewrite <- (rev_involutive results), Er. reflexivity.
  - cbn [pipeline_loop] in H. unfold bind in H.
    destruct (executeAgent_cases key input (JObj context) w)
      as [(a & r & w1 & Ha & He & Hrun) | (_ & e & He)]; rewrite He in H;
      [|discriminate].
    destruct (success r) eqn:Es; cbn [negb] in H.
    + destruct (IH _ _ _ _ _ _ H Hs)
        as (ran & Hres & Hf2 & Hall & Hfa & Hpe & Hctx & rs & r' & Hlast & Hfo).
      exists (r :: ran). rewrite Hres, <- app_assoc.
      split; [reflexivity|].
      split.
      { constructor; [|exact Hf2]. exists a.
        split; [exact Ha|]. split; [exact (run_agent Hrun)|].
        split; [exact (run_role Hrun) | exact (run_exactly_one Hrun)]. }
      split; [constructor; assumption|].
      split; [exact Hfa|]. split; [exact Hpe|]. split; [exact Hctx|].
      exists rs, r'. rewrite <- app_assoc in Hlast. split; assumption.
    + inversion H; subst. discriminate.
Qed.

(** X15.  When [executePipeline] returns with [success] true, every key had
    its step and every step succeeded: there is one result for each key, in
    order, each with an output; [finalOutput] is the output of the last
    result; and, the keys being distinct, [context] holds the output of
    every step under the role of its agent. *)
Theorem executePipeline_success (keys : list jsstring) (input : JValue)
  (w w' : World) (res : PipelineResult) :
  executePipeline keys input w = Ret res w' ->
  p_success res = true ->
  Forall2 (fun k r => exists a, lookup_agent k agents = Some a /\
                                agent r = name a /\
                                role r = agent_role a /\
                                exactly_one r) keys (p_results res) /\
  Forall (fun r => success r = true) (p_results res) /\
  failedAt res = None /\
  p_error res = None /\
  (exists rs r, p_results res = rs ++ [r] /\
                finalOutput res = Some (get_output r)) /\
  (NoDup keys ->
   exists c, p_context res = Some c /\
             forall r, In r (p_results res) ->
                       assoc (role r) c = Some (get_output r)).
Proof.
  intros H Hs. unfold executePipeline in H.
  destruct (pipeline_loop_success H Hs)
    as (ran & Hres & Hf2 & Hall & Hfa & Hpe & Hctx & rs & r & Hlast & Hfo).
  cbn [app] in Hres, Hlast. rewrite Hres.
  split; [exact Hf2|]. split; [exact Hall|]. split; [exact Hfa|].
  split; [exact Hpe|].
  split; [exists rs, r; split; assumption|].
  intros Hnd. eexists. split; [exact Hctx|].
  intros r0 Hin. apply outputs_In; [|exact Hin].
  exact (distinct_roles Hf2 Hnd).
Qed.

(** X16.  A pipeline with a key that no agent has, after keys of the table.
    Either a step before that key fails: the calls made are those of the keys
    up to that step, its result is the last one and the first failure, and
    the pipeline returns what the pipeline over the keys before the unknown
    key returns, in the same state, with [failedAt] and [error] of that step.
    Or every step before the unknown key succeeds: the calls of all these
    keys are made, and the pipeline then throws the exception of
    [executeAgent] for the unknown key, in the state in which the last call
    ended; the results of the calls are not returned. *)
Theorem executePipeline_unknown_key (pre post : list jsstring) (bad : jsstring)
  (input : JValue) (w : World) :
  Forall known pre ->
  ~ known bad ->
  (exists res w' done r m,
     executePipeline (pre ++ bad :: post) input w = Ret res w' /\
     executePipeline pre input w = Ret res w' /\
     p_results res = done ++ [r] /\
     pipeline_steps (firstn (List.length (done ++ [r])) pre) input [] w
       (done ++ [r]) w' /\
     List.length (done ++ [r]) <= List.length pre /\
     Forall (fun r => success r = true) done /\
     success r = false /\
     error r = Some m /\
     p_success res = false /\
     failedAt res = Some (agent r) /\
     p_error res = Some (JStr m)) \/
  (exists e w' rs,
     executePipeline (pre ++ bad :: post) input w = Throw e w' /\
     (forall i c w0, executeAgent bad i c w0 = Throw e w0) /\
     pipeline_steps pre input [] w rs w' /\
     Forall (fun r => success r = true) rs /\
     map h_agent (workflowHistory w') = map h_agent (workflowHistory w) ++ pre /\
     List.length (requests w') = List.length (requests w) + List.length pre).
Proof.
  intros Hpre Hbad.
  assert (Hthrow : exists e, forall i c w0, executeAgent bad i c w0 = Throw e w0).
  { assert (Hnone : lookup_agent bad agents = None).
    { destruct (lookup_agent bad agents) eqn:E; [|reflexivity].
      exfalso. exact (Hbad (lookup_agent_known E)). }
    unfold executeAgent, agents_get. rewrite Hnone.
    destruct (existsb _ _); eexists; intros; reflexivity. }
  destruct Hthrow as [e He].
  unfold executePipeline.
  destruct pre as [|k pre].
  - right. exists e, w, []. cbn [app pipeline_loop]. unfold bind. rewrite He.
    split; [reflexivity|]. split; [exact He|].
    split; [constructor|]. split; [constructor|].
    cbn. rewrite app_nil_r. split; [reflexivity | lia].
  - rewrite pipeline_loop_app by discriminate.
    assert (Hne : k :: pre <> [] \/ @nil ExecutionResult <> [])
      by (left; discriminate).
    destruct (@pipeline_loop_spec host (k :: pre) [] input [] w Hpre Hne)
      as (res & w1 & ran & Hl & Hres & Hlen & _ & Hh & Hq & Hend).
    destruct (pipeline_loop_steps Hl) as (ran' & Hres' & Hsteps).
    cbn [app] in Hres'. rewrite <- Hres' in Hsteps. clear ran' Hres'.
    rewrite Hl. cbn [app] in Hres. rewrite Hres in Hsteps.
    destruct Hend as [(Hs & Hall & Hn)
                     | (done & r & m & Hran & Hd & Hf & Hm & Hs & Hfa & Hpe)].
    + right. rewrite Hs.
      assert (Hshape : exists out c,
                 finalOutput res = Some out /\ p_context res = Some c).
      { destruct (pipeline_loop_success Hl Hs)
          as (ran2 & _ & _ & _ & _ & _ & Hc & rs & r & _ & Hfo).
        eexists; eexists; split; eassumption. }
      destruct Hshape as (out & c & Ho & Hc). rewrite Ho, Hc.
      exists e, w1, ran. cbn [pipeline_loop]. unfold bind. rewrite He.
      split; [reflexivity|]. split; [exact He|].
      rewrite Hn, firstn_all in Hh. rewrite Hn in Hq.
      rewrite Hn, firstn_all in Hsteps.
      split; [exact Hsteps|]. split; [exact Hall|].
      split; assumption.
    + left. exists res, w1, done, r, m. rewrite Hs. subst ran.
      rewrite Hran in Hsteps, Hlen.
      split; [reflexivity|]. split; [reflexivity|]. split; [exact Hran|].
      split; [exact Hsteps|]. split; [exact Hlen|].
      repeat split; assumption.
Qed.

End PipelineMore.

(** X14, at the pipeline scout, profiler, with agents that answer. *)
Lemma executePipeline_app_witness :
  exists w1 res1,
    [lit "scout"] <> [] /\
    executePipeline (host := prose_scout_host) [lit "scout"] (JObj []) w0
      = Ret res1 w1 /\
    (p_success res1 = false ->
     executePipeline (host := prose_scout_host)
       ([lit "scout"] ++ [lit "profiler"]) (JObj []) w0 = Ret res1 w1) /\
    (p_success res1 = true ->
     exists out c,
       finalOutput res1 = Some out /\
       p_context res1 = Some c /\
       executePipeline (host := prose_scout_host)
         ([lit "scout"] ++ [lit "profiler"]) (JObj []) w0 =
       pipeline_loop (host := prose_scout_host) [lit "profiler"]
         (p_results res1) out c w1).
Proof.
  do 2 eexists.
  keep ltac:(discriminate).
  keep ltac:(lazy; reflexivity).
  eapply executePipeline_app; eassumption.
Defined.

(** X15, at the same pipeline. *)
Lemma executePipeline_success_witness :
  exists w' res,
    executePipeline (host := prose_scout_host)
      [lit "scout"; lit "profiler"] (JObj []) w0 = Ret res w' /\
    p_success res = true /\
    Forall2 (fun k r =>
               exists a,
                 lookup_agent k (agents (host := prose_scout_host)) = Some a /\
                 agent r = name a /\
                 role r = agent_role a /\
                 exactly_one r)
      [lit "scout"; lit "profiler"] (p_results res) /\
    Forall (fun r => success r = true) (p_results res) /\
    failedAt res = None /\
    p_error res = None /\
    (exists rs r, p_results res = rs ++ [r] /\
                  finalOutput res = Some (get_output r)) /\
    (NoDup [lit "scout"; lit "profiler"] ->
     exists c, p_context res = Some c /\
               forall r, In r (p_results res) ->
                         assoc (role r) c = Some (get_output r)).
Proof.
  do 2 eexists.
  keep ltac:(lazy; reflexivity).
  keep ltac:(reflexivity).
  eapply executePipeline_success; eassumption.
Defined.

(** X16, at the pipeline scout, ghost, profiler. *)
Lemma executePipeline_unknown_key_witness :
  (exists res w' done r m,
     executePipeline (host := prose_scout_host)
       ([lit "scout"] ++ lit "ghost" :: [lit "profiler"]) (JObj []) w0
       = Ret res w' /\
     executePipeline (host := prose_scout_host) [lit "scout"] (JObj []) w0
       = Ret res w' /\
     p_results res = done ++ [r] /\
     pipeline_steps (host := prose_scout_host)
       (firstn (List.length (done ++ [r])) [lit "scout"]) (JObj []) [] w0
       (done ++ [r]) w' /\
     List.length (done ++ [r]) <= List.length [lit "scout"] /\
     Forall (fun r => success r = true) done /\
     success r = false /\
     error r = Some m /\
     p_success res = false /\
     failedAt res = Some (agent r) /\
     p_error res = Some (JStr m)) \/
  (exists e w' rs,
     executePipeline (host := prose_scout_host)
       ([lit "scout"] ++ lit "ghost" :: [lit "profiler"]) (JObj []) w0
       = Throw e w' /\
     (forall i c w1,
        executeAgent (host := prose_scout_host) (lit "ghost") i c w1 = Throw e w1) /\
     pipeline_steps (host := prose_scout_host) [lit "scout"] (JObj []) [] w0
       rs w' /\
     Forall (fun r => success r = true) rs /\
     map h_agent (workflowHistory w') =
       map h_agent (workflowHistory w0) ++ [lit "scout"] /\
     List.length (requests w') =
       List.length (requests w0) + List.length [lit "scout"]).
Proof.
  apply (@executePipeline_unknown_key prose_scout_host
           [lit "scout"] [lit "profiler"] (lit "ghost") (JObj []) w0).
  - apply Forall_cons; [vm_compute; auto 10 | apply Forall_nil].
  - vm_compute. intros H.
    repeat (destruct H as [H|H]; [discriminate H|]). exact H.
Defined.

(** ** The outreach, diligence and integration workflows *)

Section WorkflowsMore.

Context {host : Host}.

Lemma outreach_known : exists a, lookup_agent (lit "outreach") agents = Some a.
Proof. eexists; reflexivity. Qed.

Lemma diligence_known : exists a, lookup_agent (lit "diligence") agents = Some a.
Proof. eexists; reflexivity. Qed.

Lemma integrator_known : exists a, lookup_agent (lit "integrator") agents = Some a.
Proof. eexists; reflexivity. Qed.

(** The result that [executeAgent] returns is a result of [execute]. *)
Lemma executeAgent_returns_execute (key : jsstring) (input context : JValue)
  (w w' : World) (r : ExecutionResult) :
  executeAgent key input context w = Ret r w' ->
  exists a w1, execute a input (default_object context) w = Ret r w1.
Proof.
  unfold executeAgent. destruct (agents_get key) as [a| |]; try discriminate.
  unfold bind, Date_now, push_history, ret.
  destruct (execute a input (default_object context) w) as [r1 w1|e w1] eqn:E;
    [|discriminate].
  intros H. inversion H; subst. exists a, w1. exact E.
Qed.

Lemma executeAgent_output_truthy (key : jsstring) (input context : JValue)
  (w w' : World) (r : ExecutionResult) :
  executeAgent key input context w = Ret r w' ->
  success r = true ->
  exists o, output r = Some o /\ truthy o = true.
Proof.
  intros H Hs. destruct (executeAgent_returns_execute H) as (a & w1 & He).
  destruct (success_output_truthy a input (default_object context) w)
    as (r' & w2 & He' & Ht).
  rewrite He in He'. inversion He'; subst r' w2.
  destruct (Ht Hs) as (o & Ho & Hto & _). exists o. split; assumption.
Qed.

Lemma prop_normal_any (o v : JValue) (k k' : string) :
  prop o k = Normal v -> exists v', prop o k' = Normal v'.
Proof.
  destruct o; cbn; intros H; try discriminate; eexists; reflexivity.
Qed.

(** X17.  When the compliance agent answers and its output has an
    [approved] that is falsy (false, or missing), the outreach workflow
    returns [{success: false, reason, violations}] with the violations of
    that output, in the state in which the compliance call ended: the
    outreach agent is not called. *)
Theorem outreach_denied (companyData context id contact o v : JValue)
  (w w1 : World) (r1 : ExecutionResult) :
  prop companyData "company_id" = Normal id ->
  prop companyData "contact" = Normal contact ->
  executeAgent (lit "compliance")
    (JObj (obj_lit [(lit "entity_id", id);
                    (lit "check_type", JStr (lit "outreach"));
                    (lit "contact_info", contact)]))
    JUndefined w = Ret r1 w1 ->
  output r1 = Some o ->
  prop o "approved" = Normal v ->
  truthy v = false ->
  exists violations,
    prop o "violations" = Normal violations /\
    executeOutreachWorkflow companyData context w =
      Ret {| o_success := false;
             o_reason := Some (lit "Outreach not approved by compliance");
             o_violations := Some violations;
             complianceCheck := None;
             outreachDraft := None |} w1 /\
    map h_agent (workflowHistory w1) =
      map h_agent (workflowHistory w) ++ [lit "compliance"] /\
    List.length (requests w1) = S (List.length (requests w)).
Proof.
  intros Hid Hct He Ho Hv Hf.
  destruct (prop_normal_any "violations" Hv) as [vio Hvio].
  exists vio. split; [exact Hvio|].
  assert (Hc : JUndefined <> JNull) by discriminate.
  destruct (executeAgent_trace compliance_known Hc He) as (Hh & Hq & _).
  split; [|split; assumption].
  unfold executeOutreachWorkflow.
  rewrite !bind_lift, Hid, bind_lift, Hct.
  unfold bind at 1. rewrite He.
  rewrite bind_lift. unfold get_output. rewrite Ho, Hv, Hf. cbn [negb].
  rewrite bind_lift, Hvio. reflexivity.
Qed.

(** X18.  When the compliance agent answers and its output has a truthy
    [approved], the outreach workflow calls the outreach agent, with a
    context in which [complianceApproved] is [true] whatever the context of
    the caller says, and returns [{success: true, complianceCheck,
    outreachDraft}]; [success] is true whether the outreach agent succeeded
    or failed. *)
Theorem outreach_approved (companyData context id contact o v : JValue)
  (w w1 : World) (r1 : ExecutionResult) :
  prop companyData "company_id" = Normal id ->
  prop companyData "contact" = Normal contact ->
  executeAgent (lit "compliance")
    (JObj (obj_lit [(lit "entity_id", id);
                    (lit "check_type", JStr (lit "outreach"));
                    (lit "contact_info", contact)]))
    JUndefined w = Ret r1 w1 ->
  output r1 = Some o ->
  prop o "approved" = Normal v ->
  truthy v = true ->
  exists c r2 w2,
    assoc (lit "complianceApproved") c = Some (JBool true) /\
    executeAgent (lit "outreach") companyData (JObj c) w1 = Ret r2 w2 /\
    executeOutreachWorkflow companyData context w =
      Ret {| o_success := true;
             o_reason := None;
             o_violations := None;
             complianceCheck := Some r1;
             outreachDraft := Some r2 |} w2 /\
    map h_agent (workflowHistory w2) =
      map h_agent (workflowHistory w) ++ [lit "compliance"; lit "outreach"] /\
    List.length (requests w2) = List.length (requests w) + 2.
Proof.
  intros Hid Hct He Ho Hv Ht.
  set (c := obj_set (lit "complianceApproved") (JBool true)
              (obj_lit (object_spread (default_object context)))).
  destruct outreach_known as [a Ha].
  destruct (executeAgent_known companyData (JObj c) w1 Ha) as (r2 & w2 & He2 & Hrun).
  exists c, r2, w2.
  split; [apply assoc_obj_set_same|]. split; [exact He2|].
  assert (Hc : JUndefined <> JNull) by discriminate.
  destruct (executeAgent_trace compliance_known Hc He) as (Hh & Hq & _).
  assert (Hc2 : JObj c <> JNull) by discriminate.
  destruct (executeAgent_trace (ex_intro _ a Ha) Hc2 He2) as (Hh2 & Hq2 & _).
  split.
  - unfold executeOutreachWorkflow.
    rewrite !bind_lift, Hid, bind_lift, Hct.
    unfold bind at 1. rewrite He.
    rewrite bind_lift. unfold get_output. rewrite Ho, Hv, Ht. cbn [negb].
    unfold bind at 1. fold c. rewrite He2. reflexivity.
  - split; [rewrite Hh2, Hh, <- app_assoc; reflexivity | rewrite Hq2, Hq; lia].
Qed.

(** X19.  For a company that is not [undefined] or [null], the outreach
    workflow throws exactly when the compliance step fails: when that step
    succeeds, the workflow returns. *)
Theorem outreach_returns_iff_compliance_succeeds
  (companyData context id contact : JValue) (w w1 : World) (r1 : ExecutionResult) :
  prop companyData "company_id" = Normal id ->
  prop companyData "contact" = Normal contact ->
  executeAgent (lit "compliance")
    (JObj (obj_lit [(lit "entity_id", id);
                    (lit "check_type", JStr (lit "outreach"));
                    (lit "contact_info", contact)]))
    JUndefined w = Ret r1 w1 ->
  (success r1 = true <->
   exists res w', executeOutreachWorkflow companyData context w = Ret res w').
Proof.
  intros Hid Hct He. split.
  - intros Hs. destruct (executeAgent_output_truthy He Hs) as (o & Ho & Hto).
    destruct (prop_of_truthy "approved" Hto) as [v Hv].
    destruct (truthy v) eqn:Ht.
    + destruct (outreach_approved context Hid Hct He Ho Hv Ht)
        as (c & r2 & w2 & _ & _ & Hw & _).
      eexists; eexists; exact Hw.
    + destruct (outreach_denied context Hid Hct He Ho Hv Ht)
        as (vio & _ & Hw & _).
      eexists; eexists; exact Hw.
  - intros (res & w' & Hw).
    destruct (success r1) eqn:Hs; [reflexivity|]. exfalso.
    assert (Hout : output r1 = None).
    { assert (Hc : JUndefined <> JNull) by discriminate.
      destruct (executeAgent_trace compliance_known Hc He) as (_ & _ & Hx).
      destruct Hx as [(Ht & _) | (_ & Hn & _)]; [congruence | exact Hn]. }
    unfold executeOutreachWorkflow in Hw.
    rewrite !bind_lift, Hid, bind_lift, Hct in Hw.
    unfold bind at 1 in Hw. rewrite He in Hw.
    rewrite bind_lift in Hw. unfold get_output in Hw. rewrite Hout in Hw.
    cbn [prop] in Hw. discriminate.
Qed.

(** X20.  The diligence workflow reads [company_id] and [vertical] of the
    company before anything else: for a company that is [undefined] or
    [null] it throws at once, without a call.  For any other company it
    calls the diligence agent, once, and returns [success: true] with the
    result of the agent, whether that result is a success or a failure. *)
Theorem diligence_workflow (companyData documents : JValue) (w : World) :
  match prop companyData "company_id" with
  | Abrupt e =>
      executeDiligenceWorkflow companyData documents w = Throw e w
  | Normal id =>
      exists vertical r w',
        executeDiligenceWorkflow companyData documents w =
          Ret {| d_success := true; diligenceReport := r |} w' /\
        prop companyData "vertical" = Normal vertical /\
        executeAgent (lit "diligence")
          (JObj (obj_lit [(lit "company_id", id);
                          (lit "documents",
                           match documents with
                           | JUndefined => JArr []
                           | _ => documents
                           end);
                          (lit "vertical", vertical)]))
          JUndefined w = Ret r w' /\
        exactly_one r /\
        map h_agent (workflowHistory w') =
          map h_agent (workflowHistory w) ++ [lit "diligence"] /\
        List.length (requests w') = S (List.length (requests w))
  end.
Proof.
  destruct (prop companyData "company_id") as [id|e] eqn:Hid.
  - destruct (prop_normal_any "vertical" Hid) as [vertical Hv].
    destruct diligence_known as [a Ha].
    set (documents' := match documents with JUndefined => JArr [] | _ => documents end).
    destruct (executeAgent_known
                (JObj (obj_lit [(lit "company_id", id);
                                (lit "documents", documents');
                                (lit "vertical", vertical)]))
                JUndefined w Ha) as (r & w' & He & Hrun).
    assert (Hc : JUndefined <> JNull) by discriminate.
    destruct (executeAgent_trace (ex_intro _ a Ha) Hc He) as (Hh & Hq & Hx).
    exists vertical, r, w'.
    split; [|split; [exact Hv|split; [exact He|split; [exact Hx | split; assumption]]]].
    unfold executeDiligenceWorkflow. fold documents'.
    rewrite bind_lift, Hid, bind_lift, Hv. unfold bind. rewrite He. reflexivity.
  - unfold executeDiligenceWorkflow. rewrite bind_lift, Hid. reflexivity.
Qed.

(** X21.  The integration workflow never throws, whatever the deal data: it
    calls the integrator, once, and returns [success: true] with the result
    of the agent, whether that result is a success or a failure. *)
Theorem integration_workflow (dealData : JValue) (w : World) :
  exists r w',
    executeIntegrationWorkflow dealData w =
      Ret {| i_success := true; integrationPlan := r |} w' /\
    executeAgent (lit "integrator") dealData JUndefined w = Ret r w' /\
    exactly_one r /\
    map h_agent (workflowHistory w') =
      map h_agent (workflowHistory w) ++ [lit "integrator"] /\
    List.length (requests w') = S (List.length (requests w)).
Proof.
  destruct integrator_known as [a Ha].
  destruct (executeAgent_known dealData JUndefined w Ha) as (r & w' & He & Hrun).
  assert (Hc : JUndefined <> JNull) by discriminate.
  destruct (executeAgent_trace (ex_intro _ a Ha) Hc He) as (Hh & Hq & Hx).
  exists r, w'. split; [|split; [exact He | split; [exact Hx | split; assumption]]].
  unfold executeIntegrationWorkflow, bind. rewrite He. reflexivity.
Qed.

End WorkflowsMore.

(** With the network down both workflows report a success that holds a
    failure. *)
Lemma integration_success_holds_failure :
  exists res w',
    executeIntegrationWorkflow (host := offline_host) JNull w0 = Ret res w' /\
    i_success res = true /\
    success (integrationPlan res) = false /\
    error (integrationPlan res) = Some (lit "Connection error.").
Proof. eexists; eexists. vm_compute. repeat split; reflexivity. Qed.

(** X17, at a company that the compliance agent does not approve. *)
Lemma outreach_denied_witness :
  exists id contact o v w1 r1,
    prop some_company "company_id" = Normal id /\
    prop some_company "contact" = Normal contact /\
    executeAgent (host := denying_host) (lit "compliance")
      (JObj (obj_lit [(lit "entity_id", id);
                      (lit "check_type", JStr (lit "outreach"));
                      (lit "contact_info", contact)]))
      JUndefined w0 = Ret r1 w1 /\
    output r1 = Some o /\
    prop o "approved" = Normal v /\
    truthy v = false /\
    exists violations,
      prop o "violations" = Normal violations /\
      executeOutreachWorkflow (host := denying_host) some_company JUndefined w0 =
        Ret {| o_success := false;
               o_reason := Some (lit "Outreach not approved by compliance");
               o_violations := Some violations;
               complianceCheck := None;
               outreachDraft := None |} w1 /\
      map h_agent (workflowHistory w1) =
        map h_agent (workflowHistory w0) ++ [lit "compliance"] /\
      List.length (requests w1) = S (List.length (requests w0)).
Proof.
  do 6 eexists.
  keep ltac:(reflexivity).
  keep ltac:(reflexivity).
  keep ltac:(lazy; reflexivity).
  keep ltac:(reflexivity).
  keep ltac:(reflexivity).
  keep ltac:(reflexivity).
  eapply outreach_denied; eassumption.
Defined.

(** X18, at a company that the compliance agent approves, with a caller
    that says it is not approved. *)
Lemma outreach_approved_witness :
  exists id contact o v w1 r1,
    prop some_company "company_id" = Normal id /\
    prop some_company "contact" = Normal contact /\
    executeAgent (host := approving_host) (lit "compliance")
      (JObj (obj_lit [(lit "entity_id", id);
                      (lit "check_type", JStr (lit "outreach"));
                      (lit "contact_info", contact)]))
      JUndefined w0 = Ret r1 w1 /\
    output r1 = Some o /\
    prop o "approved" = Normal v /\
    truthy v = true /\
    exists c r2 w2,
      assoc (lit "complianceApproved") c = Some (JBool true) /\
      executeAgent (host := approving_host) (lit "outreach") some_company
        (JObj c) w1 = Ret r2 w2 /\
      executeOutreachWorkflow (host := approving_host) some_company
        (JObj [(lit "complianceApproved", JBool false)]) w0 =
        Ret {| o_success := true;
               o_reason := None;
               o_violations := None;
               complianceCheck := Some r1;
               outreachDraft := Some r2 |} w2 /\
      map h_agent (workflowHistory w2) =
        map h_agent (workflowHistory w0) ++ [lit "compliance"; lit "outreach"] /\
      List.length (requests w2) = List.length (requests w0) + 2.
Proof.
  do 6 eexists.
  keep ltac:(reflexivity).
  keep ltac:(reflexivity).
  keep ltac:(lazy; reflexivity).
  keep ltac:(reflexivity).
  keep ltac:(reflexivity).
  keep ltac:(reflexivity).
  eapply outreach_approved; eassumption.
Defined.

(** X19, at the same company. *)
Lemma outreach_returns_iff_compliance_succeeds_witness :
  exists id contact w1 r1,
    prop some_company "company_id" = Normal id /\
    prop some_company "contact" = Normal contact /\
    executeAgent (host := approving_host) (lit "compliance")
      (JObj (obj_lit [(lit "entity_id", id);
                      (lit "check_type", JStr (lit "outreach"));
                      (lit "contact_info", contact)]))
      JUndefined w0 = Ret r1 w1 /\
    (success r1 = true <->
     exists res w',
       executeOutreachWorkflow (host := approving_host) some_company JUndefined w0
       = Ret res w').
Proof.
  do 4 eexists.
  keep ltac:(reflexivity).
  keep ltac:(reflexivity).
  keep ltac:(lazy; reflexivity).
  eapply outreach_returns_iff_compliance_succeeds; eassumption.
Defined.

(** ** The sourcing workflow: a qualified company *)

Section SourcingMore.

Context {host : Host}.

(** X22.  When the scout succeeds with a score of at least 50 and a list of
    risks, the valuation agent succeeds, and the compliance agent succeeds
    with a truthy [approved] and a list of violations, none of them [null],
    the sourcing workflow returns [qualified: true] with the four results
    and a summary: the score of the scout, the value range of the valuation
    agent, the signals of the scout, and the risks of the scout followed by
    the [details] of every violation. *)
Theorem sourcing_qualified (thesis companyData : JValue)
  (w w1 w2 w3 : World) (r1 r2 r3 r4 : ExecutionResult)
  (o1 o3 o4 v ev ts : JValue) (q : Q) (rs vs ds : list JValue) :
  executeAgent (lit "scout")
    (JObj (obj_lit [(lit "thesis", thesis); (lit "companyData", companyData)]))
    JUndefined w = Ret r1 w1 ->
  success r1 = true ->
  output r1 = Some o1 ->
  prop o1 "score" = Normal (JNum (NFin q)) ->
  (50 <= q)%Q ->
  prop o1 "top_signals" = Normal ts ->
  prop o1 "risks" = Normal (JArr rs) ->
  executeAgent (lit "profiler") companyData
    (JObj (obj_lit [(lit "scoutAnalysis", o1)])) w1 = Ret r2 w2 ->
  Promise_all
    [ executeAgent (lit "valuation") companyData
        (JObj (obj_lit [(lit "scoutAnalysis", o1);
                        (lit "profile", get_output r2)]));
      executeAgent (lit "compliance") companyData
        (JObj (obj_lit [(lit "checkType", JStr (lit "licensure"))])) ] w2
    = Ret [r3; r4] w3 ->
  output r3 = Some o3 ->
  prop o3 "estimated_value_range" = Normal ev ->
  output r4 = Some o4 ->
  prop o4 "approved" = Normal v ->
  truthy v = true ->
  prop o4 "violations" = Normal (JArr vs) ->
  map_completion (fun x => prop x "details") vs = Normal ds ->
  executeSourcingWorkflow thesis companyData w =
    Ret {| s_success := true;
           qualified := true;
           reason := None;
           scoutResult := None;
           s_results := Some {| scout := r1;
                                profiler := r2;
                                valuation := Some r3;
                                compliance := r4 |};
           summary := Some {| score := JNum (NFin q);
                              estimatedValue := ev;
                              topSignals := ts;
                              risks := rs ++ ds |} |} w3.
Proof.
  intros He1 Hs1 Ho1 Hscore Hq Hts Hrisks He2 Hpar Ho3 Hev Ho4 Happ Ht Hvio Hds.
  assert (Hg1 : get_output r1 = o1) by (unfold get_output; rewrite Ho1; reflexivity).
  assert (Hg3 : get_output r3 = o3) by (unfold get_output; rewrite Ho3; reflexivity).
  assert (Hg4 : get_output r4 = o4) by (unfold get_output; rewrite Ho4; reflexivity).
  unfold executeSourcingWorkflow. unfold bind at 1. rewrite He1.
  unfold bind at 1. rewrite Hs1. cbn [negb]. rewrite Hg1, Hscore.
  cbn [cbind]. unfold js_lt. cbn [to_number cbind].
  rewrite (not_below_50 Hq). cbn [lift ret].
  unfold bind at 1. rewrite He2.
  unfold bind at 1. rewrite Hpar. cbn [nth_error].
  rewrite bind_lift, Hg4, Happ, Ht. cbn [negb].
  unfold bind at 1. unfold ret at 1.
  rewrite bind_lift. cbn [element_output cbind]. rewrite Hg3, Hev.
  rewrite bind_lift, Hts.
  rewrite bind_lift, Hrisks. cbn [cbind spread].
  rewrite bind_lift, Hvio.
  rewrite bind_lift. cbn [array_map]. rewrite Hds.
  reflexivity.
Qed.

End SourcingMore.

(** X22, at a company that the scout scores 87. *)
Lemma sourcing_qualified_witness :
  exists w1 w2 w3 r1 r2 r3 r4 o1 o3 o4 v ev ts q rs vs ds,
    executeAgent (host := qualifying_host) (lit "scout")
      (JObj (obj_lit [(lit "thesis", JObj []); (lit "companyData", JObj [])]))
      JUndefined w0 = Ret r1 w1 /\
    success r1 = true /\
    output r1 = Some o1 /\
    prop o1 "score" = Normal (JNum (NFin q)) /\
    (50 <= q)%Q /\
    prop o1 "top_signals" = Normal ts /\
    prop o1 "risks" = Normal (JArr rs) /\
    executeAgent (host := qualifying_host) (lit "profiler") (JObj [])
      (JObj (obj_lit [(lit "scoutAnalysis", o1)])) w1 = Ret r2 w2 /\
    Promise_all
      [ executeAgent (host := qualifying_host) (lit "valuation") (JObj [])
          (JObj (obj_lit [(lit "scoutAnalysis", o1);
                          (lit "profile", get_output r2)]));
        executeAgent (host := qualifying_host) (lit "compliance") (JObj [])
          (JObj (obj_lit [(lit "checkType", JStr (lit "licensure"))])) ] w2
      = Ret [r3; r4] w3 /\
    output r3 = Some o3 /\
    prop o3 "estimated_value_range" = Normal ev /\
    output r4 = Some o4 /\
    prop o4 "approved" = Normal v /\
    truthy v = true /\
    prop o4 "violations" = Normal (JArr vs) /\
    map_completion (fun x => prop x "details") vs = Normal ds /\
    executeSourcingWorkflow (host := qualifying_host) (JObj []) (JObj []) w0 =
      Ret {| s_success := true;
             qualified := true;
             reason := None;
             scoutResult := None;
             s_results := Some {| scout := r1;
                                  profiler := r2;
                                  valuation := Some r3;
                                  compliance := r4 |};
             summary := Some {| score := JNum (NFin q);
                                estimatedValue := ev;
                                topSignals := ts;
                                risks := rs ++ ds |} |} w3.
Proof.
  do 17 eexists.
  keep ltac:(lazy; reflexivity).
  keep ltac:(reflexivity).
  keep ltac:(reflexivity).
  keep ltac:(reflexivity).
  keep ltac:(vm_compute; discriminate).
  keep ltac:(reflexivity).
  keep ltac:(reflexivity).
  keep ltac:(lazy; reflexivity).
  keep ltac:(lazy; reflexivity).
  keep ltac:(reflexivity).
  keep ltac:(reflexivity).
  keep ltac:(reflexivity).
  keep ltac:(reflexivity).
  keep ltac:(reflexivity).
  keep ltac:(reflexivity).
  keep ltac:(reflexivity).
  eapply sourcing_qualified; eassumption.
Defined.

(** The same run, computed: the summary. *)
Lemma sourcing_qualified_run :
  exists res w',
    executeSourcingWorkflow (host := qualifying_host) (JObj []) (JObj []) w0
      = Ret res w' /\
    qualified res = true /\
    option_map score (summary res) = Some (JNum (NFin 87%Q)) /\
    option_map risks (summary res) =
      Some [JStr (lit "owner age"); JStr (lit "license renewal due")].
Proof. eexists; eexists. vm_compute. repeat split; reflexivity. Qed.

(** ** Statistics *)

Section StatisticsProperties.

Variable round : Q -> Q.

Lemma agent_stats_set_same (k : jsstring) (st : AgentStats)
  (l : list (jsstring * AgentStats)) :
  agent_stats k (set_agent_stats k st l) = Some st.
Proof.
  induction l as [|[k0 s0] l IH]; cbn [set_agent_stats agent_stats].
  - rewrite str_eqb_refl. reflexivity.
  - destruct (str_eqb k k0) eqn:E; cbn [agent_stats].
    + rewrite str_eqb_refl. reflexivity.
    + rewrite E. exact IH.
Qed.

Lemma agent_stats_set_other (k k' : jsstring) (st : AgentStats)
  (l : list (jsstring * AgentStats)) :
  str_eqb k k' = false ->
  agent_stats k (set_agent_stats k' st l) = agent_stats k l.
Proof.
  intros Hf. induction l as [|[k0 s0] l IH]; cbn [set_agent_stats agent_stats].
  - rewrite Hf. reflexivity.
  - destruct (str_eqb k' k0) eqn:E; cbn [agent_stats].
    + apply str_eqb_eq in E. subst k0. rewrite Hf. reflexivity.
    + destruct (str_eqb k k0); [reflexivity | exact IH].
Qed.

Lemma str_eqb_sym (a b : jsstring) : str_eqb a b = str_eqb b a.
Proof.
  destruct (str_eqb a b) eqn:E.
  - apply str_eqb_eq in E. subst. symmetry. apply str_eqb_refl.
  - destruct (str_eqb b a) eqn:E'; [|reflexivity].
    apply str_eqb_eq in E'. subst. rewrite str_eqb_refl in E. discriminate.
Qed.

Lemma filter_success_le (k : jsstring) (l : list HistoryEntry) :
  List.length (filter (fun e => str_eqb k (h_agent e) && h_success e) l)
  <= List.length (filter (fun e => str_eqb k (h_agent e)) l).
Proof.
  induction l as [|e l IH]; [cbn; lia|].
  cbn [filter]. destruct (str_eqb k (h_agent e)); cbn [andb].
  - destruct (h_success e); cbn [List.length]; lia.
  - exact IH.
Qed.

(** What the callback has recorded for a key after the items [l]. *)
Lemma tally_agent (l : list HistoryEntry) :
  forall (acc : Tally) (k : jsstring),
    existsb (str_eqb k) Object_prototype_names = false ->
    agent_stats k (t_byAgent (fold_left (tally_item round) l acc)) =
    match List.length (filter (fun e => str_eqb k (h_agent e)) l),
          agent_stats k (t_byAgent acc) with
    | 0, old => old
    | S n, old =>
        Some {| count :=
                  S n + match old with Some st => count st | None => 0 end;
                successes :=
                  List.length
                    (filter (fun e => str_eqb k (h_agent e) && h_success e) l)
                  + match old with Some st => successes st | None => 0 end |}
    end.
Proof.
  induction l as [|item l IH]; intros acc k Hk; [destruct (agent_stats k _); reflexivity|].
  cbn [fold_left filter]. rewrite (IH _ k Hk). clear IH.
  set (key := h_agent item).
  assert (Hstep :
    agent_stats k (t_byAgent (tally_item round acc item)) =
    if str_eqb k key then
      Some {| count := S match agent_stats k (t_byAgent acc) with
                         | Some st => count st | None => 0 end;
              successes :=
                (if h_success item then 1 else 0)
                + match agent_stats k (t_byAgent acc) with
                  | Some st => successes st | None => 0 end |}
    else agent_stats k (t_byAgent acc)).
  { unfold tally_item. fold key. cbn [t_byAgent].
    destruct (str_eqb k key) eqn:E.
    - apply str_eqb_eq in E. subst k.
      destruct (agent_stats key (t_byAgent acc)) as [st|] eqn:Est.
      + rewrite Est. destruct (h_success item).
        * rewrite agent_stats_set_same, agent_stats_set_same. reflexivity.
        * rewrite agent_stats_set_same. reflexivity.
      + rewrite Hk. rewrite agent_stats_set_same.
        destruct (h_success item).
        * rewrite agent_stats_set_same, agent_stats_set_same. reflexivity.
        * rewrite agent_stats_set_same. reflexivity.
    - assert (Hother : forall st l0,
                 agent_stats k (set_agent_stats key st l0) = agent_stats k l0)
        by (intros; apply agent_stats_set_other, E).
      destruct (agent_stats key (t_byAgent acc)) as [st|] eqn:Est.
      + rewrite Est. destruct (h_success item).
        * rewrite agent_stats_set_same, Hother, Hother. reflexivity.
        * rewrite Hother. reflexivity.
      + destruct (existsb (str_eqb key) Object_prototype_names).
        * rewrite Est. destruct (h_success item); rewrite ?Est; reflexivity.
        * rewrite agent_stats_set_same.
          destruct (h_success item).
          -- rewrite agent_stats_set_same, !Hother. reflexivity.
          -- rewrite !Hother. reflexivity. }
  rewrite Hstep. fold key.
  pose proof (filter_success_le k l) as Hle.
  destruct (str_eqb k key) eqn:E; cbn [andb List.length].
  - destruct (List.length (filter (fun e => str_eqb k (h_agent e)) l)) as [|n];
      destruct (h_success item); cbn [List.length count successes];
      f_equal; f_equal; lia.
  - destruct (List.length (filter (fun e => str_eqb k (h_agent e)) l));
      reflexivity.
Qed.

(** X23.  [getStats] counts by agent: for a key that is not a name
    inherited from [Object.prototype], [byAgent] has no entry when the
    history has no entry for the key, and otherwise an entry whose [count]
    is the number of the entries for the key and whose [successes] is the
    number of those that succeeded, so never more than [count]. *)
Theorem stats_by_agent (l : list HistoryEntry) (k : jsstring) :
  existsb (str_eqb k) Object_prototype_names = false ->
  totalExecutions (stats_of round l) = List.length l /\
  agent_stats k (byAgent (stats_of round l)) =
    match List.length (filter (fun e => str_eqb k (h_agent e)) l) with
    | 0 => None
    | S n =>
        Some {| count := S n;
                successes :=
                  List.length
                    (filter (fun e => str_eqb k (h_agent e) && h_success e) l) |}
    end /\
  List.length (filter (fun e => str_eqb k (h_agent e) && h_success e) l)
  <= List.length (filter (fun e => str_eqb k (h_agent e)) l).
Proof.
  intros Hk. split; [reflexivity|]. split.
  - unfold stats_of. cbn [byAgent]. rewrite (tally_agent l _ Hk).
    cbn [t_byAgent agent_stats].
    destruct (List.length (filter (fun e => str_eqb k (h_agent e)) l));
      [reflexivity|]. f_equal. f_equal; lia.
  - induction l as [|e l IH]; [cbn; lia|].
    cbn [filter]. destruct (str_eqb k (h_agent e)); cbn [andb].
    + destruct (h_success e); cbn [List.length]; lia.
    + exact IH.
Qed.

Lemma sum_set (f : AgentStats -> nat) (k : jsstring) (st : AgentStats)
  (l : list (jsstring * AgentStats)) :
  list_sum (map (fun x => f (snd x)) (set_agent_stats k st l))
  + match agent_stats k l with Some st0 => f st0 | None => 0 end
  = list_sum (map (fun x => f (snd x)) l) + f st.
Proof.
  unfold list_sum in *.
  induction l as [|[k0 s0] l IH];
    cbn [set_agent_stats agent_stats map fold_right snd].
  - lia.
  - destruct (str_eqb k k0); cbn [map fold_right snd]; lia.
Qed.

(** One call of the callback, for a key that is not an inherited name, adds
    one to the counts and, for a success, one to the successes. *)
Lemma tally_item_sums (acc : Tally) (item : HistoryEntry) :
  existsb (str_eqb (h_agent item)) Object_prototype_names = false ->
  list_sum (map (fun x => count (snd x)) (t_byAgent (tally_item round acc item)))
  = S (list_sum (map (fun x => count (snd x)) (t_byAgent acc))) /\
  list_sum (map (fun x => successes (snd x)) (t_byAgent (tally_item round acc item)))
  = (if h_success item then 1 else 0)
    + list_sum (map (fun x => successes (snd x)) (t_byAgent acc)) /\
  successCount (tally_item round acc item)
  = (if h_success item then 1 else 0) + successCount acc.
Proof.
  intros Hk. unfold tally_item. cbn [t_byAgent successCount].
  set (key := h_agent item) in *. set (by_ := t_byAgent acc).
  split; [|split; [|destruct (h_success item); reflexivity]].
  - destruct (agent_stats key by_) as [st|] eqn:Est.
    + rewrite Est.
      pose proof (sum_set count key {| count := S (count st); successes := successes st |} by_) as H1.
      rewrite Est in H1. cbn [count] in H1.
      destruct (h_success item).
      * rewrite agent_stats_set_same.
        pose proof (sum_set count key
                      {| count := S (count st); successes := S (successes st) |}
                      (set_agent_stats key
                         {| count := S (count st); successes := successes st |} by_)) as H2.
        rewrite agent_stats_set_same in H2. cbn [count successes] in H2 |- *. lia.
      * lia.
    + rewrite Hk. rewrite agent_stats_set_same. cbn [count successes].
      pose proof (sum_set count key {| count := 0; successes := 0 |} by_) as H0.
      rewrite Est in H0. cbn [count] in H0.
      pose proof (sum_set count key {| count := 1; successes := 0 |}
                    (set_agent_stats key {| count := 0; successes := 0 |} by_)) as H1.
      rewrite agent_stats_set_same in H1. cbn [count] in H1.
      destruct (h_success item).
      * rewrite agent_stats_set_same.
        pose proof (sum_set count key {| count := 1; successes := 1 |}
                      (set_agent_stats key {| count := 1; successes := 0 |}
                         (set_agent_stats key {| count := 0; successes := 0 |} by_))) as H2.
        rewrite agent_stats_set_same in H2. cbn [count successes] in H2 |- *. lia.
      * lia.
  - destruct (agent_stats key by_) as [st|] eqn:Est.
    + rewrite Est.
      pose proof (sum_set successes key {| count := S (count st); successes := successes st |} by_) as H1.
      rewrite Est in H1. cbn [successes] in H1.
      destruct (h_success item).
      * rewrite agent_stats_set_same.
        pose proof (sum_set successes key
                      {| count := S (count st); successes := S (successes st) |}
                      (set_agent_stats key
                         {| count := S (count st); successes := successes st |} by_)) as H2.
        rewrite agent_stats_set_same in H2. cbn [count successes] in H2 |- *. lia.
      * lia.
    + rewrite Hk. rewrite agent_stats_set_same. cbn [count successes].
      pose proof (sum_set successes key {| count := 0; successes := 0 |} by_) as H0.
      rewrite Est in H0. cbn [successes] in H0.
      pose proof (sum_set successes key {| count := 1; successes := 0 |}
                    (set_agent_stats key {| count := 0; successes := 0 |} by_)) as H1.
      rewrite agent_stats_set_same in H1. cbn [successes] in H1.
      destruct (h_success item).
      * rewrite agent_stats_set_same.
        pose proof (sum_set successes key {| count := 1; successes := 1 |}
                      (set_agent_stats key {| count := 1; successes := 0 |}
                         (set_agent_stats key {| count := 0; successes := 0 |} by_))) as H2.
        rewrite agent_stats_set_same in H2. cbn [count successes] in H2 |- *. lia.
      * lia.
Qed.

Lemma tally_sums (l : list HistoryEntry) :
  forall acc,
    Forall (fun e => existsb (str_eqb (h_agent e)) Object_prototype_names = false) l ->
    list_sum (map (fun x => count (snd x))
                (t_byAgent (fold_left (tally_item round) l acc)))
    = List.length l + list_sum (map (fun x => count (snd x)) (t_byAgent acc)) /\
    list_sum (map (fun x => successes (snd x))
                (t_byAgent (fold_left (tally_item round) l acc)))
    = List.length (filter h_success l)
      + list_sum (map (fun x => successes (snd x)) (t_byAgent acc)) /\
    successCount (fold_left (tally_item round) l acc)
    = List.length (filter h_success l) + successCount acc.
Proof.
  induction l as [|e l IH]; intros acc Hl; [cbn; auto|].
  inversion Hl as [|? ? He Hl']; subst.
  cbn [fold_left filter].
  destruct (IH (tally_item round acc e) Hl') as (H1 & H2 & H3).
  destruct (tally_item_sums acc He) as (S1 & S2 & S3).
  rewrite H1, H2, H3, S1, S2, S3.
  destruct (h_success e); cbn [List.length]; repeat split; lia.
Qed.

(** X24.  Over a history whose keys are keys of the agent table, the counts
    of [byAgent] add up to [totalExecutions] and its successes add up to the
    number of the entries that succeeded. *)
Theorem stats_sums {host : Host} (l : list HistoryEntry) :
  Forall known (map h_agent l) ->
  list_sum (map (fun x => count (snd x)) (byAgent (stats_of round l)))
  = totalExecutions (stats_of round l) /\
  list_sum (map (fun x => successes (snd x)) (byAgent (stats_of round l)))
  = List.length (filter h_success l) /\
  List.length (filter h_success l) <= totalExecutions (stats_of round l).
Proof.
  intros Hk.
  assert (Hl : Forall (fun e => existsb (str_eqb (h_agent e))
                                  Object_prototype_names = false) l).
  { apply Forall_forall. intros e He.
    rewrite Forall_forall in Hk. specialize (Hk (h_agent e) (in_map _ _ _ He)).
    unfold known in Hk. cbn in Hk.
    repeat (destruct Hk as [Hk|Hk]; [rewrite <- Hk; reflexivity|]).
    destruct Hk. }
  destruct (tally_sums {| t_byAgent := []; successCount := 0; totalTime := 0%Q |} Hl)
    as (H1 & H2 & _).
  unfold stats_of. cbn [byAgent totalExecutions]. rewrite H1, H2.
  cbn [t_byAgent map list_sum fold_right]. split; [lia|]. split; [lia|].
  apply filter_length_le.
Qed.

End StatisticsProperties.

(** X23, on three entries, two of them of the scout, with the identity for
    the rounding. *)
Lemma stats_by_agent_witness :
  existsb (str_eqb (lit "scout")) Object_prototype_names = false /\
  agent_stats (lit "scout")
    (byAgent
       (stats_of (fun q => q)
          [ {| h_agent := lit "scout"; h_timestamp := 1; h_success := true;
               h_executionTime := 10 |};
            {| h_agent := lit "compliance"; h_timestamp := 2; h_success := true;
               h_executionTime := 20 |};
            {| h_agent := lit "scout"; h_timestamp := 3; h_success := false;
               h_executionTime := 30 |} ]))
  = Some {| count := 2; successes := 1 |}.
Proof.
  keep ltac:(vm_compute; reflexivity).
  match goal with
  | |- agent_stats ?k (byAgent (stats_of ?r ?l)) = _ =>
      destruct (@stats_by_agent r l k) as (_ & Hst & _); [assumption|]
  end.
  rewrite Hst. vm_compute. reflexivity.
Defined.

(** X24, on the same three entries. *)
Lemma stats_sums_witness :
  Forall (known (host := offline_host))
    (map h_agent
       [ {| h_agent := lit "scout"; h_timestamp := 1; h_success := true;
            h_executionTime := 10 |};
         {| h_agent := lit "compliance"; h_timestamp := 2; h_success := true;
            h_executionTime := 20 |};
         {| h_agent := lit "scout"; h_timestamp := 3; h_success := false;
            h_executionTime := 30 |} ]) /\
  list_sum
    (map (fun x => count (snd x))
       (byAgent
          (stats_of (fun q => q)
             [ {| h_agent := lit "scout"; h_timestamp := 1; h_success := true;
                  h_executionTime := 10 |};
               {| h_agent := lit "compliance"; h_timestamp := 2; h_success := true;
                  h_executionTime := 20 |};
               {| h_agent := lit "scout"; h_timestamp := 3; h_success := false;
                  h_executionTime := 30 |} ]))) = 3.
Proof.
  keep ltac:(repeat apply Forall_cons; try apply Forall_nil; vm_compute; auto 10).
  match goal with
  | H : Forall _ (map _ ?l) |- list_sum (map _ (byAgent (stats_of ?r _))) = _ =>
      destruct (@stats_sums r offline_host l H) as (Esum & _)
  end.
  rewrite Esum. reflexivity.
Defined.

(** X25.  After [clearHistory()], [getHistory()] is empty and [getStats()]
    is all zeros, with no agent: the two quotients are not taken. *)
Theorem stats_after_clearHistory (round : Q -> Q) (w : World) :
  getHistory (world_of (clearHistory w)) = [] /\
  getStats round (world_of (clearHistory w))
  = {| totalExecutions := 0; byAgent := []; successRate := 0%Q;
       avgExecutionTime := 0%Q |}.
Proof.
  assert (H : getHistory (world_of (clearHistory w)) = []).
  { unfold getHistory, clearHistory. cbn [world_of now workflowHistory].
    replace (filter _ (filter _ (workflowHistory w))) with (@nil HistoryEntry);
      [reflexivity|].
    symmetry. induction (workflowHistory w) as [|e l IH]; [reflexivity|].
    cbn [filter]. destruct (Nat.leb (h_timestamp e) (now w)) eqn:E; cbn [negb filter].
    - exact IH.
    - rewrite E. exact IH. }
  split; [exact H|]. unfold getStats. rewrite H. reflexivity.
Qed.
